(** * ClipForge AI: gallery store, credential holder and generation jobs

    A shallow embedding of the original logic of the ClipForge AI front end:

    - [src/types.ts]: the records and enums;
    - [src/App.tsx]: the gallery handlers ([handleCapture],
      [handleSelectFrame], [handleDeleteFrame], [handleImageSaved]), the
      credential handlers ([handleSaveApiKey], [handleCancelKeyInput]) and
      the key editor;
    - [src/services/geminiService.ts]: [getClient], the data URL helpers,
      [analyzeFrame], [generateImageFromPrompt] and
      [generateVideoFromImage];
    - the [CreativeStudio] component: [handleGenerate] and
      [handleSaveToGallery];
    - the [VeoStudio] component: [handleGenerateVideo].

    React state is modelled by explicit state passing: a handler is a
    function from the state of the render that installed it to the state of
    the next render.  The asynchronous service functions talk to a remote
    API and are modelled as interaction trees over the events of that API. *)

From Stdlib Require Import String Ascii List ZArith Bool Lia DecimalString Morphisms.
From Stdlib Require Import Setoid.
From Stdlib Require QArith_base.
From ITree Require Import ITree ITreeFacts Events.State Events.StateFacts.
From Paco Require Import paco.
Import ITreeNotations.
Import ListNotations.
Local Open Scope string_scope.
Local Open Scope list_scope.
Local Open Scope itree_scope.

(** A JavaScript [number] that holds seconds: a rational. *)
Definition number : Type := QArith_base.Q.

(** ** JavaScript strings

    A JavaScript string is modelled by the byte string of its UTF-8
    encoding. *)

Module Js.
Local Open Scope nat_scope.

(** [s.startsWith(p)] *)
Definition startsWith (p s : string) : bool := String.prefix p s.

(** [s.includes(p)] *)
Fixpoint includes (p s : string) : bool :=
  String.prefix p s ||
  match s with
  | EmptyString => false
  | String _ s' => includes p s'
  end.

(** Truthiness of a string: only the empty string is falsy. *)
Definition truthy (s : string) : bool :=
  match s with
  | EmptyString => false
  | String _ _ => true
  end.

(** [a || b] on strings. *)
Definition or_else (a b : string) : string :=
  if truthy a then a else b.

(** The ECMAScript white space and line terminator code points, by the
    length of their UTF-8 encoding: TAB, LF, VT, FF, CR and SP take one
    byte; U+00A0 two; U+1680, U+2000..U+200A, U+2028, U+2029, U+202F,
    U+205F, U+3000 and U+FEFF three. *)
Definition ws1 (a : ascii) : bool :=
  let n := nat_of_ascii a in
  ((9 <=? n) && (n <=? 13)) || (n =? 32).

Definition ws2 (a b : ascii) : bool :=
  (nat_of_ascii a =? 194) && (nat_of_ascii b =? 160).

Definition ws3 (a b c : ascii) : bool :=
  let x := nat_of_ascii a in
  let y := nat_of_ascii b in
  let z := nat_of_ascii c in
  ((x =? 225) && (y =? 154) && (z =? 128))
  || ((x =? 226) && (y =? 128)
      && (((128 <=? z) && (z <=? 138)) || (z =? 168) || (z =? 169) || (z =? 175)))
  || ((x =? 226) && (y =? 129) && (z =? 159))
  || ((x =? 227) && (y =? 128) && (z =? 128))
  || ((x =? 239) && (y =? 187) && (z =? 191)).

(** [s.trimStart()] *)
Fixpoint trimStart (s : string) : string :=
  match s with
  | String a s1 =>
      if ws1 a then trimStart s1
      else match s1 with
           | String b s2 =>
               if ws2 a b then trimStart s2
               else match s2 with
                    | String c s3 => if ws3 a b c then trimStart s3 else s
                    | EmptyString => s
                    end
           | EmptyString => s
           end
  | EmptyString => EmptyString
  end.

Definition rev (s : string) : string :=
  string_of_list_ascii (List.rev (list_ascii_of_string s)).

(** The same scan on the reversed string, where the bytes of a
    multi-byte white space arrive last byte first. *)
Fixpoint trimStart_rev (s : string) : string :=
  match s with
  | String a s1 =>
      if ws1 a then trimStart_rev s1
      else match s1 with
           | String b s2 =>
               if ws2 b a then trimStart_rev s2
               else match s2 with
                    | String c s3 => if ws3 c b a then trimStart_rev s3 else s
                    | EmptyString => s
                    end
           | EmptyString => s
           end
  | EmptyString => EmptyString
  end.

(** [s.trimEnd()] *)
Definition trimEnd (s : string) : string := rev (trimStart_rev (rev s)).

(** [s.trim()] *)
Definition trim (s : string) : string := trimEnd (trimStart s).

(** [s.split(sep)] for a one-character separator. *)
Fixpoint split (sep : ascii) (s : string) : list string :=
  match s with
  | EmptyString => [EmptyString]
  | String c s' =>
      if Ascii.eqb c sep then EmptyString :: split sep s'
      else match split sep s' with
           | h :: t => String c h :: t
           | [] => [String c EmptyString]
           end
  end.

(** [a[i] || dflt] for an array of strings: a missing element is
    [undefined], and so falsy, like the empty string. *)
Definition nth_or (i : nat) (a : list string) (dflt : string) : string :=
  match nth_error a i with
  | Some x => or_else x dflt
  | None => dflt
  end.

(** A number in a template literal, for integers. *)
Definition ofZ (z : Z) : string := NilZero.string_of_int (Z.to_int z).

(** A value that is [undefined], a number or a string. *)
Inductive Prim : Type :=
| Undefined
| Num (n : Z)
| Str (s : string).

(** [v === n] for a number literal [n]. *)
Definition strictEqNum (v : Prim) (n : Z) : bool :=
  match v with
  | Num m => Z.eqb m n
  | _ => false
  end.

(** What [JSON.parse] returns. *)
Local Unset Elimination Schemes.
Inductive Json : Type :=
| JNull
| JBool (b : bool)
| JNumber (q : number)
| JString (s : string)
| JArray (a : list Json)
| JObject (o : list (string * Json)).
Local Set Elimination Schemes.

Definition truthyJson (v : Json) : bool :=
  match v with
  | JNull => false
  | JBool b => b
  | JNumber q => negb (QArith_base.Qeq_bool q (QArith_base.Qmake 0 1))
  | JString s => truthy s
  | JArray _ | JObject _ => true
  end.

Fixpoint assoc (k : string) (o : list (string * Json)) : option Json :=
  match o with
  | [] => None
  | (k', v) :: o' => if String.eqb k' k then Some v else assoc k o'
  end.

End Js.

(** ** Errors

    An exception value: the vendor's errors carry a [status] and a [code]
    next to the message; [new Error(msg)] has the message only. *)

Record JsError : Type := mkJsError {
  err_status : Js.Prim;
  err_code : Js.Prim;
  err_message : option string
}.

Definition Error (msg : string) : JsError :=
  {| err_status := Js.Undefined; err_code := Js.Undefined; err_message := Some msg |}.

(** Reading a property of [null]. *)
Definition TypeError_null (prop : string) : JsError :=
  Error ("Cannot read properties of null (reading '" ++ prop ++ "')")%string.

(** [json.prop]: throws on [null], is [undefined] where the value has no
    such property. *)
Definition getProp (json : Js.Json) (prop : string) : JsError + option Js.Json :=
  match json with
  | Js.JNull => inl (TypeError_null prop)
  | Js.JObject o => inr (Js.assoc prop o)
  | _ => inr None
  end.

(** [v || dflt] for a property that was read. *)
Definition orDefault (v : option Js.Json) (dflt : string) : Js.Json :=
  match v with
  | Some x => if Js.truthyJson x then x else Js.JString dflt
  | None => Js.JString dflt
  end.

(** ** [src/types.ts] *)

Record CapturedFrame : Type := mkCapturedFrame {
  id : string;
  dataUrl : string;
  timestamp : number;
  createdAt : Z;
  isGenerated : option bool;
  width : option Z;
  height : option Z
}.

(** The types are erased at run time: the two fields hold what the parsed
    response carried, a string on every path that does not go through
    [JSON.parse]. *)
Record AnalysisResult : Type := mkAnalysisResult {
  chineseDescription : Js.Json;
  englishPrompt : Js.Json
}.

Record GeneratedImage : Type := mkGeneratedImage {
  img_id : string;
  img_dataUrl : string;
  img_promptUsed : string;
  img_createdAt : Z
}.

Record GeneratedVideo : Type := mkGeneratedVideo {
  videoUrl : string;
  vid_promptUsed : string;
  vid_createdAt : Z
}.

Inductive AppState : Type := IDLE | ANALYZING | GENERATING | ERROR.

Inductive WorkflowStep : Type := CAPTURE | CREATIVE | VEO.

Definition WorkflowStep_eqb (a b : WorkflowStep) : bool :=
  match a, b with
  | CAPTURE, CAPTURE | CREATIVE, CREATIVE | VEO, VEO => true
  | _, _ => false
  end.

(** ** [src/App.tsx]: the state of the [App] component

    One field per [useState] hook, with the hooks' initial values in
    [initialApp]. *)

Record App : Type := mkApp {
  frames : list CapturedFrame;
  selectedFrame : option CapturedFrame;
  currentStep : WorkflowStep;
  seekTimestamp : option number;
  apiKey : string;
  showKeyInput : bool;
  keyError : option string
}.

Definition initialApp : App :=
  {| frames := [];
     selectedFrame := None;
     currentStep := CAPTURE;
     seekTimestamp := None;
     apiKey := EmptyString;
     showKeyInput := false;
     keyError := None |}.

Definition setFrames (upd : list CapturedFrame -> list CapturedFrame) (st : App) : App :=
  {| frames := upd (frames st);
     selectedFrame := selectedFrame st;
     currentStep := currentStep st;
     seekTimestamp := seekTimestamp st;
     apiKey := apiKey st;
     showKeyInput := showKeyInput st;
     keyError := keyError st |}.

Definition setSelectedFrame (v : option CapturedFrame) (st : App) : App :=
  {| frames := frames st;
     selectedFrame := v;
     currentStep := currentStep st;
     seekTimestamp := seekTimestamp st;
     apiKey := apiKey st;
     showKeyInput := showKeyInput st;
     keyError := keyError st |}.

Definition setCurrentStep (v : WorkflowStep) (st : App) : App :=
  {| frames := frames st;
     selectedFrame := selectedFrame st;
     currentStep := v;
     seekTimestamp := seekTimestamp st;
     apiKey := apiKey st;
     showKeyInput := showKeyInput st;
     keyError := keyError st |}.

Definition setSeekTimestamp (v : option number) (st : App) : App :=
  {| frames := frames st;
     selectedFrame := selectedFrame st;
     currentStep := currentStep st;
     seekTimestamp := v;
     apiKey := apiKey st;
     showKeyInput := showKeyInput st;
     keyError := keyError st |}.

Definition setApiKey (v : string) (st : App) : App :=
  {| frames := frames st;
     selectedFrame := selectedFrame st;
     currentStep := currentStep st;
     seekTimestamp := seekTimestamp st;
     apiKey := v;
     showKeyInput := showKeyInput st;
     keyError := keyError st |}.

Definition setShowKeyInput (v : bool) (st : App) : App :=
  {| frames := frames st;
     selectedFrame := selectedFrame st;
     currentStep := currentStep st;
     seekTimestamp := seekTimestamp st;
     apiKey := apiKey st;
     showKeyInput := v;
     keyError := keyError st |}.

Definition setKeyError (v : option string) (st : App) : App :=
  {| frames := frames st;
     selectedFrame := selectedFrame st;
     currentStep := currentStep st;
     seekTimestamp := seekTimestamp st;
     apiKey := apiKey st;
     showKeyInput := showKeyInput st;
     keyError := v |}.

(** A handler reads the state of its own render (the closure) and queues
    setter calls; [st0] is the closed-over state and the setters are
    applied in order to produce the next render. *)

(** [handleCapture]: [setFrames(prev => [...prev, frame])], then
    [setSelectedFrame(frame)] when [!selectedFrame]. *)
Definition handleCapture (frame : CapturedFrame) (st0 : App) : App :=
  let st := setFrames (fun prev => prev ++ [frame]) st0 in
  match selectedFrame st0 with
  | None => setSelectedFrame (Some frame) st
  | Some _ => st
  end.

(** [handleSelectFrame]: the selection is set without looking at [frames];
    the video is synced in capture mode. *)
Definition handleSelectFrame (frame : CapturedFrame) (st0 : App) : App :=
  let st := setSelectedFrame (Some frame) st0 in
  if WorkflowStep_eqb (currentStep st0) CAPTURE
  then setSeekTimestamp (Some (timestamp frame)) st
  else st.

(** [handleDeleteFrame]: [prev.filter(f => f.id !== id)], then the
    selection is cleared when [selectedFrame?.id === id]. *)
Definition handleDeleteFrame (id0 : string) (st0 : App) : App :=
  let st := setFrames (filter (fun f => negb (String.eqb (id f) id0))) st0 in
  match selectedFrame st0 with
  | Some s => if String.eqb (id s) id0 then setSelectedFrame None st else st
  | None => st
  end.

(** [handleImageSaved]: the generated image becomes a frame that is put in
    front of the gallery; the selection is not touched. *)
Definition handleImageSaved (img : GeneratedImage) (st0 : App) : App :=
  let newFrame :=
    {| id := img_id img;
       dataUrl := img_dataUrl img;
       timestamp := QArith_base.Qmake 0 1;
       createdAt := img_createdAt img;
       isGenerated := Some true;
       width := None;
       height := None |} in
  setFrames (fun prev => newFrame :: prev) st0.

(** *** Sequences of gallery operations *)

Inductive GalleryOp : Type :=
| Add (frame : CapturedFrame)
| Select (frame : CapturedFrame)
| Remove (id0 : string)
| ImportGenerated (img : GeneratedImage)
| Navigate (step : WorkflowStep).

Definition applyOp (st : App) (op : GalleryOp) : App :=
  match op with
  | Add frame => handleCapture frame st
  | Select frame => handleSelectFrame frame st
  | Remove id0 => handleDeleteFrame id0 st
  | ImportGenerated img => handleImageSaved img st
  | Navigate step => setCurrentStep step st
  end.

Definition run (ops : list GalleryOp) (st : App) : App :=
  fold_left applyOp ops st.

(** Is there a frame with this id in the list? *)
Definition hasId (id0 : string) (l : list CapturedFrame) : bool :=
  existsb (fun f => String.eqb (id f) id0) l.

(** The selection resolves: it is null or its id is the id of a frame of
    the gallery. *)
Definition selection_ok (st : App) : bool :=
  match selectedFrame st with
  | None => true
  | Some s => hasId (id s) (frames st)
  end.

(** The gallery views bind [onSelect] to the frames they render
    ([frames.map(f => ... onClick={() => handleSelectFrame(f)})]): a select
    coming from the user interface carries the id of a frame of the list. *)
Definition fromRenderedList (st : App) (op : GalleryOp) : bool :=
  match op with
  | Select frame => hasId (id frame) (frames st)
  | _ => true
  end.

Fixpoint allFromRenderedList (st : App) (ops : list GalleryOp) : bool :=
  match ops with
  | [] => true
  | op :: ops' => fromRenderedList st op && allFromRenderedList (applyOp st op) ops'
  end.

(** ** [src/App.tsx]: the credential

    [localStorage] is an association list from keys to values. *)

Definition Storage : Type := list (string * string).

Fixpoint getItem (k : string) (l : Storage) : option string :=
  match l with
  | [] => None
  | (k', v) :: l' => if String.eqb k' k then Some v else getItem k l'
  end.

Definition setItem (k v : string) (l : Storage) : Storage :=
  (k, v) :: filter (fun kv => negb (String.eqb (fst kv) k)) l.

Definition user_gemini_api_key : string := "user_gemini_api_key".

(** The effect at mount: [if (storedKey) setApiKey(storedKey)]. *)
Definition loadApiKey (ls : Storage) (st0 : App) : App :=
  match getItem user_gemini_api_key ls with
  | Some storedKey => if Js.truthy storedKey then setApiKey storedKey st0 else st0
  | None => st0
  end.

Definition keyError_empty : string := "API Key 不能为空".
Definition keyError_format : string := "无效的 Key 格式 (应以 AIza 开头)".

(** [handleSaveApiKey]: the candidate is the text of the key input, which
    is bound to the [apiKey] state. *)
Definition handleSaveApiKey (st0 : App) (ls : Storage) : App * Storage :=
  let trimmedKey := Js.trim (apiKey st0) in
  if negb (Js.truthy trimmedKey) then
    (setKeyError (Some keyError_empty) st0, ls)
  else if negb (Js.startsWith "AIza" trimmedKey) then
    (setKeyError (Some keyError_format) st0, ls)
  else
    (setKeyError None (setShowKeyInput false (setApiKey trimmedKey st0)),
     setItem user_gemini_api_key trimmedKey ls).

(** [handleCancelKeyInput] *)
Definition handleCancelKeyInput (st0 : App) (ls : Storage) : App * Storage :=
  let st := setKeyError None (setShowKeyInput false st0) in
  match getItem user_gemini_api_key ls with
  | Some storedKey => (setApiKey (Js.or_else storedKey EmptyString) st, ls)
  | None => (setApiKey EmptyString st, ls)
  end.

(** ** The remote API and the browser, as events

    What [src/services/geminiService.ts] and the components ask of their
    environment: the vendor SDK, timers, [fetch], object URLs, the console,
    the clock and the random source, and the callback a component receives
    as a prop. *)

Record GoogleGenAI : Type := mkGoogleGenAI { client_apiKey : string }.

Inductive Part : Type :=
| InlineDataPart (data mimeType : string)
| TextPart (text : string).

Inductive ContentConfig : Type :=
| ResponseMimeType (mime : string)
| ImageConfig (aspectRatio : string).

Record ContentRequest : Type := mkContentRequest {
  c_model : string;
  c_parts : list Part;
  c_config : ContentConfig
}.

Record InlineData : Type := mkInlineData {
  inline_data : option string;
  inline_mimeType : option string
}.

Record ResponsePart : Type := mkResponsePart { inlineData : option InlineData }.

Record Content : Type := mkContent { content_parts : option (list ResponsePart) }.

Record Candidate : Type := mkCandidate { content : option Content }.

Record ContentResponse : Type := mkContentResponse {
  text : option string;
  candidates : option (list Candidate)
}.

Record Image : Type := mkImage { imageBytes : string; image_mimeType : string }.

Record VideoConfig : Type := mkVideoConfig {
  numberOfVideos : Z;
  resolution : string;
  v_aspectRatio : string;
  lastFrame : option Image
}.

Record VideoRequest : Type := mkVideoRequest {
  v_model : string;
  v_prompt : string;
  v_image : Image;
  v_config : VideoConfig
}.

Record Video : Type := mkVideo { uri : option string }.

Record VideoEntry : Type := mkVideoEntry { video : option Video }.

Record VideosResponse : Type := mkVideosResponse {
  generatedVideos : option (list VideoEntry)
}.

(** The long-running operation handle. *)
Record Operation : Type := mkOperation {
  op_name : string;
  done : option bool;
  response : option VideosResponse
}.

Definition Blob : Type := string.

Record FetchResponse : Type := mkFetchResponse {
  ok : bool;
  resp_status : Z;
  statusText : string;
  resp_body : Blob
}.

(** The answer to one request, with the instant at which it arrives: of
    several requests in flight the answers come back in any order. *)
Record Reply (A : Type) : Type := mkReply {
  arrival : nat;
  outcome : JsError + A
}.
Arguments mkReply {A}.
Arguments arrival {A}.
Arguments outcome {A}.

Variant envE : Type -> Type :=
| GenerateContent (ai : GoogleGenAI) (req : ContentRequest) : envE (Reply ContentResponse)
| GenerateVideos (ai : GoogleGenAI) (req : VideoRequest) : envE (JsError + Operation)
| GetVideosOperation (ai : GoogleGenAI) (operation : Operation) : envE (JsError + Operation)
| SetTimeout (ms : Z) : envE unit
| Fetch (url : string) : envE (JsError + FetchResponse)
| ReadBlob (r : FetchResponse) : envE (JsError + Blob)
| CreateObjectURL (b : Blob) : envE string
| ConsoleError (label : string) (e : JsError) : envE unit
| DateNow : envE Z
| RandomSuffix : envE string
| OnImageSaved (img : GeneratedImage) : envE unit.

(** An asynchronous function that resolves with an [A] or rejects. *)
Definition Promise (A : Type) : Type := itree envE (JsError + A).

Definition resolve {A : Type} (a : A) : Promise A := Ret (inr a).
Definition throw {A : Type} (e : JsError) : Promise A := Ret (inl e).

(** [const x = await p; k x] inside a [try]: a rejection skips [k]. *)
Definition await {A B : Type} (p : Promise A) (k : A -> Promise B) : Promise B :=
  r <- p;;
  match r with
  | inl e => throw e
  | inr a => k a
  end.

(** [try { p } catch (error) { h error }] *)
Definition tryCatch {A : Type} (p : Promise A) (h : JsError -> Promise A) : Promise A :=
  r <- p;;
  match r with
  | inl e => h e
  | inr a => resolve a
  end.

(** A synchronous step that may throw, inside an asynchronous function. *)
Definition lift {A : Type} (r : JsError + A) : Promise A := Ret r.

(** ** [src/services/geminiService.ts] *)

Section Service.

(** [process.env.API_KEY], fixed when the bundle is built. *)
Variable env_API_KEY : option string.

(** [JSON.parse], which throws on text that is not JSON. *)
Variable JSON_parse : string -> JsError + Js.Json.

(** [customKey?.trim() || process.env.API_KEY] *)
Definition resolveKey (customKey : option string) : option string :=
  match customKey with
  | Some k => if Js.truthy (Js.trim k) then Some (Js.trim k) else env_API_KEY
  | None => env_API_KEY
  end.

Definition getClient (customKey : option string) : JsError + GoogleGenAI :=
  match resolveKey customKey with
  | Some apiKey =>
      if Js.truthy apiKey then inr {| client_apiKey := apiKey |}
      else inl (Error "API Key is missing. Please enter your Google Gemini API Key.")
  | None => inl (Error "API Key is missing. Please enter your Google Gemini API Key.")
  end.

(** [dataUrl.split(',')[1] || dataUrl] *)
Definition stripBase64Prefix (dataUrl : string) : string :=
  Js.nth_or 1 (Js.split "," dataUrl) dataUrl.

(** [dataUrl.split(';')[0].split(':')[1] || 'image/png'] *)
Definition getMimeType (dataUrl : string) : string :=
  Js.nth_or 1 (Js.split ":" (nth 0 (Js.split ";" dataUrl) EmptyString)) "image/png".

(** *** The three [catch] blocks *)

Definition billingRequiredError : JsError :=
  Error "Permission Denied (403): Veo requires a PAID Google Cloud API Key with billing enabled. Please set a valid key in the top right corner.".

(** [error.status === 403 || error.code === 403 ||
    (error.message && error.message.includes('403'))] *)
Definition indicates403 (error : JsError) : bool :=
  Js.strictEqNum (err_status error) 403
  || Js.strictEqNum (err_code error) 403
  || match err_message error with
     | Some m => Js.truthy m && Js.includes "403" m
     | None => false
     end.

(** What each of the three [catch] blocks throws for a caught [error]. *)
Definition analyzeFrame_rethrows (error : JsError) : JsError := error.
Definition generateImage_rethrows (error : JsError) : JsError := error.
Definition generateVideo_rethrows (error : JsError) : JsError :=
  if indicates403 error then billingRequiredError else error.

(** *** [analyzeFrame] *)

Definition analyzePrompt : string :=
  "Analyze this video frame. Return a JSON object with two keys: 'chineseDescription' (a detailed description of the scene in Chinese) and 'englishPrompt' (a high-quality, detailed English text-to-image prompt suitable for Generative AI).".

Definition analyzeRequest (base64Image : string) : ContentRequest :=
  {| c_model := "gemini-3-flash-preview";
     c_parts := [ InlineDataPart (stripBase64Prefix base64Image) (getMimeType base64Image);
                  TextPart analyzePrompt ];
     c_config := ResponseMimeType "application/json" |}.

(** The body of the inner [try]: parse, then read the two keys. *)
Definition parseAnalysis (responseText : string) : JsError + AnalysisResult :=
  match JSON_parse responseText with
  | inl e => inl e
  | inr json =>
      match getProp json "chineseDescription" with
      | inl e => inl e
      | inr cd =>
          match getProp json "englishPrompt" with
          | inl e => inl e
          | inr ep =>
              inr {| chineseDescription := orDefault cd "无法生成中文描述";
                     englishPrompt := orDefault ep "Could not generate prompt" |}
          end
      end
  end.

(** What the inner [catch] returns. *)
Definition parseFailed (responseText : string) : AnalysisResult :=
  {| chineseDescription := Js.JString "解析响应失败";
     englishPrompt := Js.JString responseText |}.

Definition generateContent (ai : GoogleGenAI) (req : ContentRequest) : Promise ContentResponse :=
  reply <- ITree.trigger (GenerateContent ai req);;
  Ret (outcome reply).

(** The outer [try] block. *)
Definition analyzeFrame_try (base64Image : string) (apiKey : option string)
  : Promise AnalysisResult :=
  await (lift (getClient apiKey)) (fun ai =>
  await (generateContent ai (analyzeRequest base64Image)) (fun response =>
  match text response with
  | Some responseText =>
      if Js.truthy responseText then
        match parseAnalysis responseText with
        | inr result => resolve result
        | inl e =>
            ITree.trigger (ConsoleError "JSON Parse Error" e);;
            resolve (parseFailed responseText)
        end
      else throw (Error "No text response received from Gemini.")
  | None => throw (Error "No text response received from Gemini.")
  end)).

Definition analyzeFrame (base64Image : string) (apiKey : option string)
  : Promise AnalysisResult :=
  tryCatch
    (analyzeFrame_try base64Image apiKey)
    (fun error =>
       ITree.trigger (ConsoleError "Analysis Error:" error);;
       throw (analyzeFrame_rethrows error)).

(** *** [generateImageFromPrompt] *)

Definition imageRequest (prompt aspectRatio : string) : ContentRequest :=
  {| c_model := "gemini-2.5-flash-image";
     c_parts := [ TextPart prompt ];
     c_config := ImageConfig aspectRatio |}.

(** [response.candidates?.[0]?.content?.parts] *)
Definition firstParts (response : ContentResponse) : option (list ResponsePart) :=
  match candidates response with
  | Some (c :: _) =>
      match content c with
      | Some ct => content_parts ct
      | None => None
      end
  | _ => None
  end.

(** The [for] loop over the parts: the first part with inline data wins. *)
Fixpoint firstInlineImage (parts : list ResponsePart) : option string :=
  match parts with
  | [] => None
  | part :: rest =>
      match inlineData part with
      | Some d =>
          match inline_data d with
          | Some bytes =>
              if Js.truthy bytes then
                let mime := match inline_mimeType d with
                            | Some m => Js.or_else m "image/png"
                            | None => "image/png"
                            end in
                Some ("data:" ++ mime ++ ";base64," ++ bytes)%string
              else firstInlineImage rest
          | None => firstInlineImage rest
          end
      | None => firstInlineImage rest
      end
  end.

Definition extractImage (response : ContentResponse) : JsError + string :=
  match firstParts response with
  | None => inl (Error "No content generated.")
  | Some parts =>
      match firstInlineImage parts with
      | Some url => inr url
      | None => inl (Error "No image data found in response.")
      end
  end.

(** How the closure of one request settles, given the answer. *)
Definition imageOutcome (reply : Reply ContentResponse) : JsError + string :=
  match outcome reply with
  | inl e => inl e
  | inr response => extractImage response
  end.

(** One of the [count] asynchronous closures: it settles when its answer
    arrives. *)
Definition imageTask (ai : GoogleGenAI) (prompt aspectRatio : string)
  : itree envE (nat * (JsError + string)) :=
  reply <- ITree.trigger (GenerateContent ai (imageRequest prompt aspectRatio));;
  Ret (arrival reply, imageOutcome reply).

(** [Array.from({ length: count }).map(async () => ...)]: every closure
    runs up to its [await], so all [count] requests are sent, in index
    order, before any answer is looked at. *)
Fixpoint startAll {A : Type} (count : nat) (task : itree envE A) : itree envE (list A) :=
  match count with
  | O => Ret []
  | S count' =>
      r <- task;;
      rs <- startAll count' task;;
      Ret (r :: rs)
  end.

(** The rejection that settles first; of two at the same instant, the
    one of the lower index. *)
Fixpoint firstRejection {A : Type} (settled : list (nat * (JsError + A)))
  : option (nat * JsError) :=
  match settled with
  | [] => None
  | (t, inl e) :: rest =>
      match firstRejection rest with
      | Some (t', e') => if (t <=? t')%nat then Some (t, e) else Some (t', e')
      | None => Some (t, e)
      end
  | (_, inr _) :: rest => firstRejection rest
  end.

Fixpoint fulfilled {A : Type} (settled : list (nat * (JsError + A))) : list A :=
  match settled with
  | [] => []
  | (_, inr a) :: rest => a :: fulfilled rest
  | (_, inl _) :: rest => fulfilled rest
  end.

(** [await Promise.all(promises)]: rejects with the first rejection,
    else resolves with all the values in index order. *)
Definition Promise_all {A : Type} (settled : list (nat * (JsError + A))) : JsError + list A :=
  match firstRejection settled with
  | Some (_, e) => inl e
  | None => inr (fulfilled settled)
  end.

(** The [try] block. *)
Definition generateImage_try
  (prompt aspectRatio : string) (count : nat) (apiKey : option string)
  : Promise (list string) :=
  await (lift (getClient apiKey)) (fun ai =>
  settled <- startAll count (imageTask ai prompt aspectRatio);;
  lift (Promise_all settled)).

Definition generateImageFromPrompt
  (prompt : string) (aspectRatio : option string) (count : option nat)
  (apiKey : option string) : Promise (list string) :=
  let aspectRatio := match aspectRatio with Some a => a | None => "1:1" end in
  let count := match count with Some c => c | None => 1%nat end in
  tryCatch
    (generateImage_try prompt aspectRatio count apiKey)
    (fun error =>
       ITree.trigger (ConsoleError "Generation Error:" error);;
       throw (generateImage_rethrows error)).

(** *** [generateVideoFromImage] *)

(** The two canonical aspect ratios of the video model. *)
Definition targetAspectRatio (aspectRatio : string) : string :=
  if String.eqb aspectRatio "9:16" || String.eqb aspectRatio "3:4"
  then "9:16" else "16:9".

Definition defaultVideoPrompt : string :=
  "Animate this scene naturally, cinematic lighting, 4k".

Definition videoRequest (imageBase64 prompt aspectRatio : string)
  (endImageBase64 : option string) : VideoRequest :=
  {| v_model := "veo-3.1-fast-generate-preview";
     v_prompt := Js.or_else prompt defaultVideoPrompt;
     v_image := {| imageBytes := stripBase64Prefix imageBase64;
                   image_mimeType := getMimeType imageBase64 |};
     v_config :=
       {| numberOfVideos := 1;
          resolution := "720p";
          v_aspectRatio := targetAspectRatio aspectRatio;
          lastFrame :=
            match endImageBase64 with
            | Some e =>
                if Js.truthy e
                then Some {| imageBytes := stripBase64Prefix e;
                             image_mimeType := getMimeType e |}
                else None
            | None => None
            end |} |}.

(** [operation.done] as a condition. *)
Definition isDone (operation : Operation) : bool :=
  match done operation with
  | Some b => b
  | None => false
  end.

(** [while (!operation.done) { await sleep(5000); operation = await
    getVideosOperation(...) }]: no bound on the number of rounds. *)
Definition pollUntilDone (aiClient : GoogleGenAI) (operation : Operation) : Promise Operation :=
  ITree.iter
    (fun operation : Operation =>
       if isDone operation then Ret (inr (inr operation))
       else
         ITree.trigger (SetTimeout 5000);;
         r <- ITree.trigger (GetVideosOperation aiClient operation);;
         match r with
         | inl e => Ret (inr (inl e))
         | inr operation' => Ret (inl operation')
         end)
    operation.

(** [operation.response?.generatedVideos?.[0]?.video?.uri] *)
Definition downloadLinkOf (operation : Operation) : option string :=
  match response operation with
  | Some r =>
      match generatedVideos r with
      | Some (g :: _) =>
          match video g with
          | Some v => uri v
          | None => None
          end
      | _ => None
      end
  | None => None
  end.

Definition finalUrlOf (downloadLink : string) (apiKey : option string) : string :=
  let keyToUse := match resolveKey apiKey with
                  | Some k => k
                  | None => "undefined"
                  end in
  let separator := if Js.includes "?" downloadLink then "&" else "?" in
  (downloadLink ++ separator ++ "key=" ++ keyToUse)%string.

(** The [try] block. *)
Definition generateVideo_try
  (imageBase64 prompt : string) (aspectRatio : string)
  (apiKey endImageBase64 : option string) : Promise string :=
  await (lift (getClient apiKey)) (fun aiClient =>
  await (ITree.trigger
           (GenerateVideos aiClient
              (videoRequest imageBase64 prompt aspectRatio endImageBase64)))
        (fun operation =>
  await (pollUntilDone aiClient operation) (fun operation =>
  match downloadLinkOf operation with
  | Some downloadLink =>
      if Js.truthy downloadLink then
        await (ITree.trigger (Fetch (finalUrlOf downloadLink apiKey))) (fun videoResponse =>
        if ok videoResponse then
          await (ITree.trigger (ReadBlob videoResponse)) (fun videoBlob =>
          url <- ITree.trigger (CreateObjectURL videoBlob);;
          resolve url)
        else
          throw (Error ("Failed to download video: " ++ statusText videoResponse
                        ++ " (" ++ Js.ofZ (resp_status videoResponse) ++ ")")%string))
      else throw (Error "Video generation failed: No URI returned.")
  | None => throw (Error "Video generation failed: No URI returned.")
  end))).

Definition generateVideoFromImage
  (imageBase64 prompt : string) (aspectRatio : option string)
  (apiKey endImageBase64 : option string) : Promise string :=
  let aspectRatio := match aspectRatio with Some a => a | None => "16:9" end in
  tryCatch
    (generateVideo_try imageBase64 prompt aspectRatio apiKey endImageBase64)
    (fun error =>
       ITree.trigger (ConsoleError "Veo Generation Error:" error);;
       throw (generateVideo_rethrows error)).

End Service.

(** ** The [CreativeStudio] component *)

Record CreativeStudio : Type := mkCreativeStudio {
  studio_englishPrompt : string;
  studio_chineseDesc : string;
  studio_appState : AppState;
  studio_error : option string;
  generatedImages : list GeneratedImage;
  studio_aspectRatio : string;
  imageCount : nat
}.

Definition initialCreativeStudio : CreativeStudio :=
  {| studio_englishPrompt := EmptyString;
     studio_chineseDesc := EmptyString;
     studio_appState := IDLE;
     studio_error := None;
     generatedImages := [];
     studio_aspectRatio := "16:9";
     imageCount := 1 |}.

Definition setAppState (v : AppState) (st : CreativeStudio) : CreativeStudio :=
  {| studio_englishPrompt := studio_englishPrompt st;
     studio_chineseDesc := studio_chineseDesc st;
     studio_appState := v;
     studio_error := studio_error st;
     generatedImages := generatedImages st;
     studio_aspectRatio := studio_aspectRatio st;
     imageCount := imageCount st |}.

Definition setError (v : option string) (st : CreativeStudio) : CreativeStudio :=
  {| studio_englishPrompt := studio_englishPrompt st;
     studio_chineseDesc := studio_chineseDesc st;
     studio_appState := studio_appState st;
     studio_error := v;
     generatedImages := generatedImages st;
     studio_aspectRatio := studio_aspectRatio st;
     imageCount := imageCount st |}.

Definition setGeneratedImages (v : list GeneratedImage) (st : CreativeStudio) : CreativeStudio :=
  {| studio_englishPrompt := studio_englishPrompt st;
     studio_chineseDesc := studio_chineseDesc st;
     studio_appState := studio_appState st;
     studio_error := studio_error st;
     generatedImages := v;
     studio_aspectRatio := studio_aspectRatio st;
     imageCount := imageCount st |}.

Definition generateError : string := "生成图片失败，模型可能繁忙，请重试。".

Section Studio.

Variable env_API_KEY : option string.

(** The [apiKey] prop. *)
Variable props_apiKey : option string.

(** [`img-${Date.now()}-${Math.random().toString(36).substr(2, 9)}`] *)
Definition generateId : itree envE string :=
  now <- ITree.trigger DateNow;;
  suffix <- ITree.trigger RandomSuffix;;
  Ret ("img-" ++ Js.ofZ now ++ "-" ++ suffix)%string.

(** [imageUrls.map(url => ({ id: generateId(), dataUrl: url, ... }))] *)
Fixpoint toGeneratedImages (englishPrompt : string) (imageUrls : list string)
  : itree envE (list GeneratedImage) :=
  match imageUrls with
  | [] => Ret []
  | url :: rest =>
      i <- generateId;;
      now <- ITree.trigger DateNow;;
      imgs <- toGeneratedImages englishPrompt rest;;
      Ret ({| img_id := i; img_dataUrl := url;
              img_promptUsed := englishPrompt; img_createdAt := now |} :: imgs)
  end.

(** [handleGenerate]: the previous batch is cleared before the request;
    the new batch is stored only when the whole request resolved. *)
Definition handleGenerate (st0 : CreativeStudio) : itree envE CreativeStudio :=
  if negb (Js.truthy (studio_englishPrompt st0)) then Ret st0
  else
    let st := setGeneratedImages [] (setError None (setAppState GENERATING st0)) in
    r <- generateImageFromPrompt env_API_KEY
           (studio_englishPrompt st0) (Some (studio_aspectRatio st0))
           (Some (imageCount st0)) props_apiKey;;
    match r with
    | inr imageUrls =>
        newImages <- toGeneratedImages (studio_englishPrompt st0) imageUrls;;
        Ret (setAppState IDLE (setGeneratedImages newImages st))
    | inl _ =>
        Ret (setAppState ERROR (setError (Some generateError) st))
    end.

(** [handleSaveToGallery]: the one place where the component hands an
    image to the gallery, on a click. *)
Definition handleSaveToGallery (img : GeneratedImage) : itree envE unit :=
  ITree.trigger (OnImageSaved img).

End Studio.

(** ** A scripted environment

    The remote service and the browser, played from a script: the answers
    to the successive requests are listed in advance, every call is
    recorded, and [setTimeout] moves the clock.  The gallery of the parent
    [App] is part of the environment of a component: [onImageSaved] is
    [handleImageSaved]. *)

Inductive Call : Type :=
| CallGenerateContent (ai : GoogleGenAI) (req : ContentRequest)
| CallGenerateVideos (ai : GoogleGenAI) (req : VideoRequest)
| CallGetVideosOperation (ai : GoogleGenAI) (operation : Operation)
| CallSetTimeout (ms : Z)
| CallFetch (url : string)
| CallReadBlob (r : FetchResponse)
| CallCreateObjectURL (b : Blob)
| CallConsoleError (label : string) (e : JsError).

Record Script : Type := mkScript {
  contentReplies : list (Reply ContentResponse);
  submitReply : JsError + Operation;
  pollReplies : list (JsError + Operation);
  fetchReply : JsError + FetchResponse;
  blobReply : JsError + Blob;
  objectUrl : string;
  randoms : list string
}.

Record World : Type := mkWorld {
  script : Script;
  now : Z;
  calls : list Call;
  app : App
}.

(** The answer when a script has run out. *)
Definition notScripted : JsError := Error "no scripted reply".

Definition logCall (c : Call) (w : World) : World :=
  {| script := script w; now := now w; calls := calls w ++ [c]; app := app w |}.

Definition nextContentReply (w : World) : World * Reply ContentResponse :=
  match contentReplies (script w) with
  | r :: rest =>
      ({| script := {| contentReplies := rest;
                       submitReply := submitReply (script w);
                       pollReplies := pollReplies (script w);
                       fetchReply := fetchReply (script w);
                       blobReply := blobReply (script w);
                       objectUrl := objectUrl (script w);
                       randoms := randoms (script w) |};
          now := now w; calls := calls w; app := app w |}, r)
  | [] => (w, {| arrival := 0; outcome := inl notScripted |})
  end.

Definition nextPollReply (w : World) : World * (JsError + Operation) :=
  match pollReplies (script w) with
  | r :: rest =>
      ({| script := {| contentReplies := contentReplies (script w);
                       submitReply := submitReply (script w);
                       pollReplies := rest;
                       fetchReply := fetchReply (script w);
                       blobReply := blobReply (script w);
                       objectUrl := objectUrl (script w);
                       randoms := randoms (script w) |};
          now := now w; calls := calls w; app := app w |}, r)
  | [] => (w, inl notScripted)
  end.

Definition nextRandom (w : World) : World * string :=
  match randoms (script w) with
  | r :: rest =>
      ({| script := {| contentReplies := contentReplies (script w);
                       submitReply := submitReply (script w);
                       pollReplies := pollReplies (script w);
                       fetchReply := fetchReply (script w);
                       blobReply := blobReply (script w);
                       objectUrl := objectUrl (script w);
                       randoms := rest |};
          now := now w; calls := calls w; app := app w |}, r)
  | [] => (w, EmptyString)
  end.

Definition sleep (ms : Z) (w : World) : World :=
  {| script := script w; now := (now w + ms)%Z; calls := calls w; app := app w |}.

Definition onApp (f : App -> App) (w : World) : World :=
  {| script := script w; now := now w; calls := calls w; app := f (app w) |}.

Definition respond {T : Type} (e : envE T) (w : World) : World * T :=
  match e in envE T return World * T with
  | GenerateContent ai req => nextContentReply (logCall (CallGenerateContent ai req) w)
  | GenerateVideos ai req => (logCall (CallGenerateVideos ai req) w, submitReply (script w))
  | GetVideosOperation ai operation =>
      nextPollReply (logCall (CallGetVideosOperation ai operation) w)
  | SetTimeout ms => (sleep ms (logCall (CallSetTimeout ms) w), tt)
  | Fetch url => (logCall (CallFetch url) w, fetchReply (script w))
  | ReadBlob r => (logCall (CallReadBlob r) w, blobReply (script w))
  | CreateObjectURL b => (logCall (CallCreateObjectURL b) w, objectUrl (script w))
  | ConsoleError label e => (logCall (CallConsoleError label e) w, tt)
  | DateNow => (w, now w)
  | RandomSuffix => nextRandom w
  | OnImageSaved img => (onApp (handleImageSaved img) w, tt)
  end.

Definition scripted : envE ~> Monads.stateT World (itree void1) :=
  fun _ e w => Ret (respond e w).

(** Running a program in the scripted environment. *)
Definition runIn {R : Type} (w : World) (t : itree envE R) : itree void1 (World * R) :=
  interp_state scripted t w.

(** The same, for a bounded number of steps: [None] when the program is
    still running after [fuel] steps. *)
Fixpoint observeFor {R : Type} (fuel : nat) (t : itree void1 R) : option R :=
  match fuel with
  | O => None
  | S fuel' =>
      match observe t with
      | RetF r => Some r
      | TauF t' => observeFor fuel' t'
      | VisF e _ => match e with end
      end
  end.

(** How many status requests a log holds, and how long it slept. *)
Definition isPoll (c : Call) : bool :=
  match c with
  | CallGetVideosOperation _ _ => true
  | _ => false
  end.

Definition pollCount (l : list Call) : nat := length (filter isPoll l).

Definition isRequest (c : Call) : bool :=
  match c with
  | CallGenerateContent _ _ => true
  | _ => false
  end.

Definition requestCount (l : list Call) : nat := length (filter isRequest l).

(** One round of the polling loop on the handle [operation]. *)
Definition pollRound (ai : GoogleGenAI) (operation : Operation) : list Call :=
  [CallSetTimeout 5000; CallGetVideosOperation ai operation].

(** The world after [cs] were recorded and the content answers up to
    [rest] were consumed. *)
Definition afterRequests (cs : list Call) (rest : list (Reply ContentResponse))
  (w : World) : World :=
  {| script := {| contentReplies := rest;
                  submitReply := submitReply (script w);
                  pollReplies := pollReplies (script w);
                  fetchReply := fetchReply (script w);
                  blobReply := blobReply (script w);
                  objectUrl := objectUrl (script w);
                  randoms := randoms (script w) |};
     now := now w; calls := calls w ++ cs; app := app w |}.

(** The world after [cs] were recorded, the status answers up to [rest]
    were consumed and [ms] milliseconds went by. *)
Definition afterPolls (cs : list Call) (rest : list (JsError + Operation)) (ms : Z)
  (w : World) : World :=
  {| script := {| contentReplies := contentReplies (script w);
                  submitReply := submitReply (script w);
                  pollReplies := rest;
                  fetchReply := fetchReply (script w);
                  blobReply := blobReply (script w);
                  objectUrl := objectUrl (script w);
                  randoms := randoms (script w) |};
     now := (now w + ms)%Z; calls := calls w ++ cs; app := app w |}.

(** What an image job of [n] requests leaves in the log: the requests,
    and the error it logged when it rejected. *)
Definition imageJobCalls (ai : GoogleGenAI) (prompt aspectRatio : string) (n : nat)
  (r : JsError + list string) : list Call :=
  repeat (CallGenerateContent ai (imageRequest prompt aspectRatio)) n
  ++ match r with
     | inl e => [CallConsoleError "Generation Error:" e]
     | inr _ => []
     end.

(** ** Sample data *)

Definition sampleFrame (i : string) (t : Z) : CapturedFrame :=
  {| id := i;
     dataUrl := "data:image/jpeg;base64,/9j/4AAQ";
     timestamp := QArith_base.Qmake t 1;
     createdAt := 1700000000000 + t;
     isGenerated := None;
     width := Some 1280%Z;
     height := Some 720%Z |}.

Definition frameA : CapturedFrame := sampleFrame "frame-1700000000001-k3x9q2m1a" 1.
Definition frameB : CapturedFrame := sampleFrame "frame-1700000000002-p0d8w7z5b" 2.
Definition frameC : CapturedFrame := sampleFrame "frame-1700000000003-t4h6n1c8d" 3.

Definition sampleImage : GeneratedImage :=
  {| img_id := "img-1700000000004-a1b2c3d4e";
     img_dataUrl := "data:image/png;base64,iVBORw0KGgo";
     img_promptUsed := "a lighthouse at dusk";
     img_createdAt := 1700000000004 |}.

Definition sampleKey : string := "AIzaSyD-sample-key".

Definition sampleDataUrl : string := "data:image/jpeg;base64,/9j/4AAQ".

(** A stand-in for [JSON.parse] that knows the three JSON literals and
    rejects every other text. *)
Definition literalJSON (s : string) : JsError + Js.Json :=
  if String.eqb s "null" then inr Js.JNull
  else if String.eqb s "true" then inr (Js.JBool true)
  else if String.eqb s "false" then inr (Js.JBool false)
  else inl (Error "Unexpected token in JSON at position 0").

Definition quietScript : Script :=
  {| contentReplies := [];
     submitReply := inl notScripted;
     pollReplies := [];
     fetchReply := inl notScripted;
     blobReply := inl notScripted;
     objectUrl := "blob:https://clipforge.example/3f0c";
     randoms := [] |}.

Definition worldOf (s : Script) : World :=
  {| script := s; now := 1700000000000; calls := []; app := initialApp |}.

Definition withContentReplies (l : list (Reply ContentResponse)) : Script :=
  {| contentReplies := l;
     submitReply := inl notScripted;
     pollReplies := [];
     fetchReply := inl notScripted;
     blobReply := inl notScripted;
     objectUrl := objectUrl quietScript;
     randoms := ["k3x9q2m1a"; "p0d8w7z5b"; "t4h6n1c8d"] |}.

Definition replyText (t : string) : Reply ContentResponse :=
  {| arrival := 1; outcome := inr {| text := Some t; candidates := None |} |}.

Definition replyImage (at_ : nat) (bytes : string) : Reply ContentResponse :=
  {| arrival := at_;
     outcome :=
       inr {| text := None;
              candidates :=
                Some [ {| content :=
                            Some {| content_parts :=
                                      Some [ {| inlineData :=
                                                  Some {| inline_data := Some bytes;
                                                          inline_mimeType := Some "image/png" |} |} ] |} |} ] |} |}.

Definition replyError (at_ : nat) (e : JsError) : Reply ContentResponse :=
  {| arrival := at_; outcome := inl e |}.

Definition forbidden : JsError :=
  {| err_status := Js.Num 403;
     err_code := Js.Undefined;
     err_message := Some "The caller does not have permission" |}.

Definition overloaded : JsError :=
  {| err_status := Js.Num 503;
     err_code := Js.Undefined;
     err_message := Some "The model is overloaded. Please try again later." |}.

Definition pendingOp : Operation :=
  {| op_name := "models/veo-3.1-fast-generate-preview/operations/x7"; done := Some false;
     response := None |}.

Definition doneOp : Operation :=
  {| op_name := "models/veo-3.1-fast-generate-preview/operations/x7"; done := Some true;
     response :=
       Some {| generatedVideos :=
                 Some [ {| video :=
                             Some {| uri := Some "https://files.example/v1/video.mp4?alt=media" |} |} ] |} |}.

Definition videoFile : FetchResponse :=
  {| ok := true; resp_status := 200; statusText := "OK"; resp_body := "mp4-bytes" |}.

Definition videoForbidden : FetchResponse :=
  {| ok := false; resp_status := 403; statusText := "Forbidden"; resp_body := EmptyString |}.

Definition videoScript (submit : JsError + Operation) (polls : list (JsError + Operation))
  (download : JsError + FetchResponse) : Script :=
  {| contentReplies := [];
     submitReply := submit;
     pollReplies := polls;
     fetchReply := download;
     blobReply := inr "mp4-bytes";
     objectUrl := objectUrl quietScript;
     randoms := [] |}.

(** A studio whose prompt was filled in and whose count is [n]. *)
Definition studioAsking (prompt : string) (n : nat) : CreativeStudio :=
  {| studio_englishPrompt := prompt;
     studio_chineseDesc := EmptyString;
     studio_appState := IDLE;
     studio_error := None;
     generatedImages := [];
     studio_aspectRatio := "16:9";
     imageCount := n |}.

(** Three requests, of which the second fails. *)
Definition secondOfThreeFails : list (Reply ContentResponse) :=
  [replyImage 2 "QUFB"; replyError 1 overloaded; replyImage 3 "Q0ND"].

(** ** [src/App.tsx]: the key editor

    The editor is the input that the header shows while [showKeyInput] is
    set: its [onChange], the button that opens it, and the save and cancel
    buttons. *)

(** [onChange]: [setApiKey(e.target.value); if (keyError) setKeyError(null)] *)
Definition handleKeyInputChange (value : string) (st0 : App) : App :=
  let st := setApiKey value st0 in
  match keyError st0 with
  | Some m => if Js.truthy m then setKeyError None st else st
  | None => st
  end.

(** [onClick={() => setShowKeyInput(true)}] *)
Definition openKeyInput (st0 : App) : App := setShowKeyInput true st0.

Inductive KeyOp : Type :=
| OpenEditor
| TypeKey (value : string)
| SaveKey
| CancelEdit.

Definition applyKeyOp (p : App * Storage) (op : KeyOp) : App * Storage :=
  match op with
  | OpenEditor => (openKeyInput (fst p), snd p)
  | TypeKey value => (handleKeyInputChange value (fst p), snd p)
  | SaveKey => handleSaveApiKey (fst p) (snd p)
  | CancelEdit => handleCancelKeyInput (fst p) (snd p)
  end.

Definition runKeyOps (ops : list KeyOp) (p : App * Storage) : App * Storage :=
  fold_left applyKeyOp ops p.

(** The input and its two buttons are rendered only while the editor is
    open, the opening button only while it is closed. *)
Definition keyOpRendered (st : App) (op : KeyOp) : bool :=
  match op with
  | OpenEditor => negb (showKeyInput st)
  | TypeKey _ | SaveKey | CancelEdit => showKeyInput st
  end.

Fixpoint allKeyOpsRendered (p : App * Storage) (ops : list KeyOp) : bool :=
  match ops with
  | [] => true
  | op :: ops' => keyOpRendered (fst p) op && allKeyOpsRendered (applyKeyOp p op) ops'
  end.

(** The application as it is after mounting on a given [localStorage]. *)
Definition mounted (ls : Storage) : App * Storage := (loadApiKey ls initialApp, ls).

(** The key that [localStorage] holds, [''] when it holds none: what
    [storedKey || ''] is. *)
Definition persistedKey (ls : Storage) : string :=
  match getItem user_gemini_api_key ls with
  | Some storedKey => Js.or_else storedKey EmptyString
  | None => EmptyString
  end.

(** What is stored under the key, if anything, has the vendor prefix. *)
Definition storedKeyHasPrefix (ls : Storage) : bool :=
  match getItem user_gemini_api_key ls with
  | Some storedKey => Js.startsWith "AIza" storedKey
  | None => true
  end.

(** While the editor is closed, the key in memory is the persisted one. *)
Definition closed_editor_shows_persisted (p : App * Storage) : Prop :=
  showKeyInput (fst p) = false -> apiKey (fst p) = persistedKey (snd p).

(** ** [src/App.tsx]: more on the gallery *)

(** The frame that [handleImageSaved] makes of a generated image. *)
Definition frameOfImage (img : GeneratedImage) : CapturedFrame :=
  {| id := img_id img;
     dataUrl := img_dataUrl img;
     timestamp := QArith_base.Qmake 0 1;
     createdAt := img_createdAt img;
     isGenerated := Some true;
     width := None;
     height := None |}.

(** The ids of the gallery, in order. *)
Definition idsOf (st : App) : list string := List.map id (frames st).

(** An add or an import that brings an id the gallery does not hold. *)
Definition bringsFreshId (st : App) (op : GalleryOp) : bool :=
  match op with
  | Add frame => negb (hasId (id frame) (frames st))
  | ImportGenerated img => negb (hasId (img_id img) (frames st))
  | _ => true
  end.

Fixpoint allBringFreshIds (st : App) (ops : list GalleryOp) : bool :=
  match ops with
  | [] => true
  | op :: ops' => bringsFreshId st op && allBringFreshIds (applyOp st op) ops'
  end.

(** The frames that the adds of a sequence carry, in order, and the
    images that its imports carry. *)
Fixpoint addedBy (ops : list GalleryOp) : list CapturedFrame :=
  match ops with
  | [] => []
  | Add frame :: ops' => frame :: addedBy ops'
  | _ :: ops' => addedBy ops'
  end.

Fixpoint importedBy (ops : list GalleryOp) : list GeneratedImage :=
  match ops with
  | [] => []
  | ImportGenerated img :: ops' => img :: importedBy ops'
  | _ :: ops' => importedBy ops'
  end.

Definition removesNothing (op : GalleryOp) : bool :=
  match op with
  | Remove _ => false
  | _ => true
  end.

(** ** Data URLs *)

(** The character does not occur in the string. *)
Fixpoint lacks (c : ascii) (s : string) : bool :=
  match s with
  | EmptyString => true
  | String c' s' => negb (Ascii.eqb c' c) && lacks c s'
  end.

(** [`data:${mime};base64,${data}`] *)
Definition dataUrlOf (mime data : string) : string :=
  ("data:" ++ mime ++ ";base64," ++ data)%string.

(** A part of a response that carries inline data the [for] loop of
    [generateImageFromPrompt] accepts. *)
Definition carriesImage (part : ResponsePart) : bool :=
  match inlineData part with
  | Some d =>
      match inline_data d with
      | Some bytes => Js.truthy bytes
      | None => false
      end
  | None => false
  end.

(** The error of [getClient]. *)
Definition apiKeyMissing : JsError :=
  Error "API Key is missing. Please enter your Google Gemini API Key.".

Definition isFetch (c : Call) : bool :=
  match c with
  | CallFetch _ => true
  | _ => false
  end.

Definition isConsoleError (c : Call) : bool :=
  match c with
  | CallConsoleError _ _ => true
  | _ => false
  end.

(** What [generateVideoFromImage] does once the polling loop has handed
    over the finished operation: the rest of its [try] block. *)
Definition downloadVideo (env_API_KEY apiKey : option string) (operation : Operation)
  : Promise string :=
  match downloadLinkOf operation with
  | Some downloadLink =>
      if Js.truthy downloadLink then
        await (ITree.trigger (Fetch (finalUrlOf env_API_KEY downloadLink apiKey)))
          (fun videoResponse =>
          if ok videoResponse then
            await (ITree.trigger (ReadBlob videoResponse)) (fun videoBlob =>
            url <- ITree.trigger (CreateObjectURL videoBlob);;
            resolve url)
          else
            throw (Error ("Failed to download video: " ++ statusText videoResponse
                          ++ " (" ++ Js.ofZ (resp_status videoResponse) ++ ")")%string))
      else throw (Error "Video generation failed: No URI returned.")
  | None => throw (Error "Video generation failed: No URI returned.")
  end.

(** The message of a download that was refused. *)
Definition downloadFailed (videoResponse : FetchResponse) : JsError :=
  Error ("Failed to download video: " ++ statusText videoResponse
         ++ " (" ++ Js.ofZ (resp_status videoResponse) ++ ")")%string.

Definition noUriReturned : JsError := Error "Video generation failed: No URI returned.".

Definition noTextResponse : JsError := Error "No text response received from Gemini.".

(** What [analyzeFrame] does with the response once it has it: the rest
    of its [try] block. *)
Definition readAnalysis (JSON_parse : string -> JsError + Js.Json)
  (response : ContentResponse) : Promise AnalysisResult :=
  match text response with
  | Some responseText =>
      if Js.truthy responseText then
        match parseAnalysis JSON_parse responseText with
        | inr result => resolve result
        | inl e =>
            ITree.trigger (ConsoleError "JSON Parse Error" e);;
            resolve (parseFailed responseText)
        end
      else throw (Error "No text response received from Gemini.")
  | None => throw (Error "No text response received from Gemini.")
  end.

(** A stand-in for [JSON.parse] given by the table of the texts it
    accepts, with the value of each. *)
Definition tableJSON (table : list (string * Js.Json)) (s : string) : JsError + Js.Json :=
  match Js.assoc s table with
  | Some v => inr v
  | None => inl (Error "Unexpected token in JSON at position 0")
  end.

Definition quote : string := String (ascii_of_nat 34) EmptyString.

(** The text of an object with the one key [englishPrompt]. *)
Definition promptOnlyText : string :=
  ("{" ++ quote ++ "englishPrompt" ++ quote ++ ":" ++ quote ++ "a lighthouse at dusk"
   ++ quote ++ "}")%string.

Definition promptOnlyJSON : string -> JsError + Js.Json :=
  tableJSON [(promptOnlyText,
              Js.JObject [("englishPrompt", Js.JString "a lighthouse at dusk")])].

(** The world after the random suffixes up to [more] were consumed. *)
Definition afterRandoms (more : list string) (w : World) : World :=
  {| script := {| contentReplies := contentReplies (script w);
                  submitReply := submitReply (script w);
                  pollReplies := pollReplies (script w);
                  fetchReply := fetchReply (script w);
                  blobReply := blobReply (script w);
                  objectUrl := objectUrl (script w);
                  randoms := more |};
     now := now w; calls := calls w; app := app w |}.

(** [`img-${now}-${suffix}`] *)
Definition imageIdOf (now0 : Z) (suffix : string) : string :=
  ("img-" ++ Js.ofZ now0 ++ "-" ++ suffix)%string.

(** ** The [VeoStudio] component

    The component talks to the service and the browser, and to the
    key-selection affordance of the host ([window.aistudio]) where the
    host has one. *)

Inductive Slot : Type := SlotStart | SlotEnd.

Record VeoStudio : Type := mkVeoStudio {
  veo_prompt : string;
  veo_appState : AppState;
  veo_error : option string;
  generatedVideo : option GeneratedVideo;
  veo_aspectRatio : string;
  startFrame : option CapturedFrame;
  endFrame : option CapturedFrame;
  activeSlot : Slot
}.

Definition initialVeoStudio : VeoStudio :=
  {| veo_prompt := EmptyString;
     veo_appState := IDLE;
     veo_error := None;
     generatedVideo := None;
     veo_aspectRatio := "16:9";
     startFrame := None;
     endFrame := None;
     activeSlot := SlotStart |}.

Definition setVeoAppState (v : AppState) (st : VeoStudio) : VeoStudio :=
  {| veo_prompt := veo_prompt st;
     veo_appState := v;
     veo_error := veo_error st;
     generatedVideo := generatedVideo st;
     veo_aspectRatio := veo_aspectRatio st;
     startFrame := startFrame st;
     endFrame := endFrame st;
     activeSlot := activeSlot st |}.

Definition setVeoError (v : option string) (st : VeoStudio) : VeoStudio :=
  {| veo_prompt := veo_prompt st;
     veo_appState := veo_appState st;
     veo_error := v;
     generatedVideo := generatedVideo st;
     veo_aspectRatio := veo_aspectRatio st;
     startFrame := startFrame st;
     endFrame := endFrame st;
     activeSlot := activeSlot st |}.

Definition setGeneratedVideo (v : option GeneratedVideo) (st : VeoStudio) : VeoStudio :=
  {| veo_prompt := veo_prompt st;
     veo_appState := veo_appState st;
     veo_error := veo_error st;
     generatedVideo := v;
     veo_aspectRatio := veo_aspectRatio st;
     startFrame := startFrame st;
     endFrame := endFrame st;
     activeSlot := activeSlot st |}.

(** The host: [window.aistudio], and [console.error] with one argument. *)
Variant hostE : Type -> Type :=
| HasSelectedApiKey : hostE (JsError + bool)
| OpenSelectKey : hostE (JsError + unit)
| ConsoleErrorValue (e : JsError) : hostE unit.

Definition veoE : Type -> Type := envE +' hostE.

Definition noStartFrame : string := "请至少选择一个起始帧。".
Definition videoFailed : string := "生成视频失败。".
Definition billingMessage : string :=
  "权限拒绝 (403): Veo 模型需要开通计费的 API Key。请在右上角设置您的 API Key。".

(** [err.message || "生成视频失败。"] *)
Definition messageOf (err : JsError) : string :=
  match err_message err with
  | Some m => Js.or_else m videoFailed
  | None => videoFailed
  end.

(** [errMsg.includes("403") || errMsg.includes("Permission Denied")] *)
Definition looksLikeBilling (errMsg : string) : bool :=
  Js.includes "403" errMsg || Js.includes "Permission Denied" errMsg.

(** An event of the host, and one of the environment of the service. *)
Definition host {T : Type} (e : hostE T) : itree veoE T := ITree.trigger (inr1 e).
Definition env {T : Type} (e : envE T) : itree veoE T := ITree.trigger (inl1 e).

Section Veo.

(** [process.env.API_KEY] *)
Variable env_API_KEY : option string.

(** The [apiKey] prop. *)
Variable props_apiKey : option string.

(** [typeof window !== 'undefined' && window.aistudio], as a condition. *)
Variable hasAiStudio : bool.

(** The first [try]: the key check of the host; what it throws is logged
    and dropped. *)
Definition checkHostKey : itree veoE unit :=
  if hasAiStudio then
    r <- host HasSelectedApiKey;;
    match r with
    | inr hasKey =>
        if hasKey then Ret tt
        else
          r' <- host OpenSelectKey;;
          match r' with
          | inr _ => Ret tt
          | inl e => env (ConsoleError "Error checking API key status:" e)
          end
    | inl e => env (ConsoleError "Error checking API key status:" e)
    end
  else Ret tt.

(** [handleGenerateVideo] *)
Definition handleGenerateVideo (st0 : VeoStudio) : itree veoE VeoStudio :=
  match startFrame st0 with
  | None => Ret (setVeoError (Some noStartFrame) st0)
  | Some start =>
      checkHostKey;;
      let st := setGeneratedVideo None (setVeoError None (setVeoAppState GENERATING st0)) in
      let endImage := match endFrame st0 with
                      | Some frame => Some (dataUrl frame)
                      | None => None
                      end in
      r <- translate inl1
             (generateVideoFromImage env_API_KEY (dataUrl start) (veo_prompt st0)
                (Some (veo_aspectRatio st0)) props_apiKey endImage);;
      match r with
      | inr videoUrl =>
          now0 <- env DateNow;;
          Ret (setVeoAppState IDLE
                 (setGeneratedVideo
                    (Some {| videoUrl := videoUrl;
                             vid_promptUsed := veo_prompt st0;
                             vid_createdAt := now0 |}) st))
      | inl err =>
          host (ConsoleErrorValue err);;
          if looksLikeBilling (messageOf err) then
            (if hasAiStudio
             then (opened <- host OpenSelectKey;; Ret tt)
             else Ret tt);;
            Ret (setVeoAppState ERROR (setVeoError (Some billingMessage) st))
          else
            Ret (setVeoAppState ERROR (setVeoError (Some (messageOf err)) st))
      end
  end.

End Veo.

(** *** The scripted host *)

Inductive HostCall : Type :=
| CallHasSelectedApiKey
| CallOpenSelectKey
| CallConsoleErrorValue (e : JsError).

Record Host : Type := mkHost {
  hasSelectedApiKeyReply : JsError + bool;
  openSelectKeyReply : JsError + unit;
  hostCalls : list HostCall
}.

Definition logHost (c : HostCall) (h : Host) : Host :=
  {| hasSelectedApiKeyReply := hasSelectedApiKeyReply h;
     openSelectKeyReply := openSelectKeyReply h;
     hostCalls := hostCalls h ++ [c] |}.

Definition respondHost {T : Type} (e : hostE T) (h : Host) : Host * T :=
  match e in hostE T return Host * T with
  | HasSelectedApiKey => (logHost CallHasSelectedApiKey h, hasSelectedApiKeyReply h)
  | OpenSelectKey => (logHost CallOpenSelectKey h, openSelectKeyReply h)
  | ConsoleErrorValue e => (logHost (CallConsoleErrorValue e) h, tt)
  end.

Definition respondVeo {T : Type} (e : veoE T) (p : World * Host) : (World * Host) * T :=
  match e with
  | inl1 e1 => let (w', x) := respond e1 (fst p) in ((w', snd p), x)
  | inr1 e2 => let (h', x) := respondHost e2 (snd p) in ((fst p, h'), x)
  end.

Definition scriptedVeo : veoE ~> Monads.stateT (World * Host) (itree void1) :=
  fun _ e p => Ret (respondVeo e p).

Definition runVeo {R : Type} (p : World * Host) (t : itree veoE R)
  : itree void1 ((World * Host) * R) :=
  interp_state scriptedVeo t p.

Definition opensKeySelection (c : HostCall) : bool :=
  match c with
  | CallOpenSelectKey => true
  | _ => false
  end.

Definition sampleHost : Host :=
  {| hasSelectedApiKeyReply := inr true;
     openSelectKeyReply := inr tt;
     hostCalls := [] |}.

Definition veoWith (start : CapturedFrame) (prompt : string) : VeoStudio :=
  {| veo_prompt := prompt;
     veo_appState := IDLE;
     veo_error := None;
     generatedVideo := None;
     veo_aspectRatio := "16:9";
     startFrame := Some start;
     endFrame := None;
     activeSlot := SlotStart |}.

(** * Properties *)

(** ** The gallery *)

Lemma hasId_app (i : string) (l1 l2 : list CapturedFrame) :
  hasId i (l1 ++ l2) = hasId i l1 || hasId i l2.
Proof. unfold hasId. apply existsb_app. Qed.

Lemma hasId_In (i : string) (l : list CapturedFrame) :
  hasId i l = true <-> exists f, In f l /\ id f = i.
Proof.
  unfold hasId. rewrite existsb_exists.
  split; intros [f [Hin Hid]]; exists f; split; auto.
  - now apply String.eqb_eq.
  - now apply String.eqb_eq.
Qed.

Lemma hasId_filter_other (i j : string) (l : list CapturedFrame) :
  String.eqb i j = false ->
  hasId i (filter (fun f => negb (String.eqb (id f) j)) l) = hasId i l.
Proof.
  intros Hij. induction l as [|f l IH]; simpl; [reflexivity|].
  destruct (String.eqb (id f) j) eqn:Hfj; simpl.
  - destruct (String.eqb (id f) i) eqn:Hfi; simpl; [|exact IH].
    apply String.eqb_eq in Hfj, Hfi. subst.
    rewrite String.eqb_refl in Hij. discriminate.
  - now rewrite IH.
Qed.

Lemma filter_other_ids (j : string) (l : list CapturedFrame) :
  (forall g, In g l -> id g <> j) ->
  filter (fun f => negb (String.eqb (id f) j)) l = l.
Proof.
  induction l as [|f l IH]; intros H; simpl; [reflexivity|].
  destruct (String.eqb (id f) j) eqn:E; simpl.
  - apply String.eqb_eq in E. exfalso. apply (H f); [now left | exact E].
  - f_equal. apply IH. intros g Hg. apply H. now right.
Qed.

(** Every handler keeps the selection resolvable, a select provided it
    carries the id of a frame of the list. *)
Lemma applyOp_selection_ok (st : App) (op : GalleryOp) :
  selection_ok st = true ->
  fromRenderedList st op = true ->
  selection_ok (applyOp st op) = true.
Proof.
  unfold selection_ok. intros Hok Hop.
  destruct op as [frame|frame|id0|img|step]; cbn [applyOp fromRenderedList] in *.
  - unfold handleCapture. destruct (selectedFrame st) as [s|] eqn:Hs;
      cbn [selectedFrame frames setFrames setSelectedFrame]; rewrite ?Hs.
    + rewrite hasId_app, Hok. reflexivity.
    + rewrite hasId_app. cbn. rewrite String.eqb_refl. apply orb_true_r.
  - unfold handleSelectFrame.
    destruct (WorkflowStep_eqb (currentStep st) CAPTURE); cbn; exact Hop.
  - unfold handleDeleteFrame. destruct (selectedFrame st) as [s|] eqn:Hs;
      cbn [selectedFrame frames setFrames setSelectedFrame]; rewrite ?Hs; [|reflexivity].
    destruct (String.eqb (id s) id0) eqn:E;
      cbn [selectedFrame frames setFrames setSelectedFrame]; rewrite ?Hs; [reflexivity|].
    rewrite hasId_filter_other; assumption.
  - unfold handleImageSaved. cbn [selectedFrame frames setFrames].
    destruct (selectedFrame st) as [s|]; [|reflexivity].
    change (hasId (id s) (?x :: frames st)) with (hasId (id s) ([x] ++ frames st)).
    rewrite hasId_app, Hok. apply orb_true_r.
  - exact Hok.
Qed.

Lemma run_selection_ok (ops : list GalleryOp) (st : App) :
  selection_ok st = true ->
  allFromRenderedList st ops = true ->
  selection_ok (run ops st) = true.
Proof.
  revert st. induction ops as [|op ops IH]; intros st Hok Hops; simpl in *.
  - exact Hok.
  - apply andb_true_iff in Hops. destruct Hops as [Hop Hops].
    apply IH; [apply applyOp_selection_ok|]; assumption.
Qed.

(** C1, as amended: from the empty gallery, along every sequence of add,
    select, remove, importGenerated and navigation in which each select
    carries the id of a frame then in the gallery, the selection is null
    or has the id of a frame of the current sequence. *)
Theorem selection_never_dangles (ops : list GalleryOp) :
  allFromRenderedList initialApp ops = true ->
  forall s, selectedFrame (run ops initialApp) = Some s ->
  exists f, In f (frames (run ops initialApp)) /\ id f = id s.
Proof.
  intros Hops s Hs.
  pose proof (run_selection_ok ops initialApp eq_refl Hops) as Hok.
  unfold selection_ok in Hok. rewrite Hs in Hok.
  now apply hasId_In.
Qed.

Lemma selection_never_dangles_witness :
  exists f,
    In f (frames (run [Add frameA; Add frameB; Select frameB; Remove (id frameA);
                       ImportGenerated sampleImage] initialApp))
    /\ id f = id frameB.
Proof.
  apply (selection_never_dangles
           [Add frameA; Add frameB; Select frameB; Remove (id frameA);
            ImportGenerated sampleImage]).
  - reflexivity.
  - reflexivity.
Defined.

(** C1 as stated fails: [handleSelectFrame] stores the frame it is given
    without looking it up, so a select of a frame that is not in the
    gallery leaves a selection that resolves to nothing. *)
Lemma select_absent_frame_dangles :
  frames (run [Select frameA] initialApp) = []
  /\ selectedFrame (run [Select frameA] initialApp) = Some frameA
  /\ selection_ok (run [Select frameA] initialApp) = false.
Proof. repeat split. Qed.

Lemma filter_removes_the_frame (f : CapturedFrame) (l1 l2 : list CapturedFrame) :
  (forall g, In g (l1 ++ l2) -> id g <> id f) ->
  filter (fun g => negb (String.eqb (id g) (id f))) (l1 ++ f :: l2) = l1 ++ l2.
Proof.
  intros H. rewrite filter_app. simpl. rewrite String.eqb_refl. simpl.
  rewrite !filter_other_ids; [reflexivity | |];
    intros g Hg; apply H; apply in_or_app; auto.
Qed.

(** C2: where [f] is the frame of the gallery with its id, removing that
    id deletes [f] and leaves the frames before and after it as they were;
    a selection with that id becomes null, any other selection stays. *)
Theorem remove_deletes_the_frame_and_clears_its_selection
  (st : App) (f : CapturedFrame) (l1 l2 : list CapturedFrame) :
  frames st = l1 ++ f :: l2 ->
  (forall g, In g (l1 ++ l2) -> id g <> id f) ->
  frames (handleDeleteFrame (id f) st) = l1 ++ l2
  /\ (forall s, selectedFrame st = Some s -> id s = id f ->
        selectedFrame (handleDeleteFrame (id f) st) = None)
  /\ (forall s, selectedFrame st = Some s -> id s <> id f ->
        selectedFrame (handleDeleteFrame (id f) st) = Some s)
  /\ (selectedFrame st = None ->
        selectedFrame (handleDeleteFrame (id f) st) = None).
Proof.
  intros Hfr Hothers.
  assert (Hframes : forall st', frames st' = frames (setFrames
            (filter (fun g => negb (String.eqb (id g) (id f)))) st) ->
            frames st' = l1 ++ l2).
  { intros st' ->. cbn. rewrite Hfr. now apply filter_removes_the_frame. }
  unfold handleDeleteFrame. repeat split.
  - apply Hframes. destruct (selectedFrame st) as [s|]; [|reflexivity].
    destruct (String.eqb (id s) (id f)); reflexivity.
  - intros s Hs Hid. rewrite Hs, Hid, String.eqb_refl. reflexivity.
  - intros s Hs Hid. rewrite Hs.
    apply String.eqb_neq in Hid. rewrite Hid. cbn. exact Hs.
  - intros Hs. rewrite Hs. cbn. exact Hs.
Qed.

Lemma remove_deletes_the_frame_and_clears_its_selection_witness :
  let st := run [Add frameA; Add frameB; Add frameC; Select frameB] initialApp in
  frames (handleDeleteFrame (id frameB) st) = [frameA] ++ [frameC]
  /\ selectedFrame (handleDeleteFrame (id frameB) st) = None.
Proof.
  intros st.
  destruct (remove_deletes_the_frame_and_clears_its_selection
              st frameB [frameA] [frameC]) as [Hfr [Hsel _]].
  - reflexivity.
  - intros g [<-|[<-|[]]]; discriminate.
  - split; [exact Hfr|]. apply (Hsel frameB); reflexivity.
Defined.

(** Where several frames share the id (one generated image kept twice),
    all of them go. *)
Lemma remove_deletes_every_frame_with_the_id (st : App) (id0 : string) :
  hasId id0 (frames (handleDeleteFrame id0 st)) = false
  /\ forall g, String.eqb (id g) id0 = false ->
       (In g (frames (handleDeleteFrame id0 st)) <-> In g (frames st)).
Proof.
  assert (Hfr : frames (handleDeleteFrame id0 st)
                = filter (fun f => negb (String.eqb (id f) id0)) (frames st)).
  { unfold handleDeleteFrame. destruct (selectedFrame st) as [s|]; [|reflexivity].
    destruct (String.eqb (id s) id0); reflexivity. }
  rewrite Hfr. clear Hfr. split.
  - induction (frames st) as [|f l IH]; [reflexivity|]. simpl.
    destruct (String.eqb (id f) id0) eqn:E; simpl; [exact IH|].
    rewrite E. exact IH.
  - intros g Hg. rewrite filter_In, Hg. simpl. tauto.
Qed.

(** C3, as amended: add appends the frame at the end; the new frame
    becomes the selection exactly when nothing was selected, which is the
    case on an empty gallery whose selection resolves; when a frame is
    selected, add leaves the selection as it is. *)
Theorem add_appends_and_selects_when_nothing_selected
  (frame : CapturedFrame) (st : App) :
  frames (handleCapture frame st) = frames st ++ [frame]
  /\ (selectedFrame st = None -> selectedFrame (handleCapture frame st) = Some frame)
  /\ (selection_ok st = true -> frames st = [] ->
        selectedFrame (handleCapture frame st) = Some frame)
  /\ (forall s, selectedFrame st = Some s ->
        selectedFrame (handleCapture frame st) = Some s).
Proof.
  unfold handleCapture, selection_ok. repeat split.
  - destruct (selectedFrame st); reflexivity.
  - intros ->. reflexivity.
  - intros Hok Hempty. destruct (selectedFrame st) as [s|]; [|reflexivity].
    rewrite Hempty in Hok. discriminate.
  - intros s Hs. rewrite Hs. exact Hs.
Qed.

Lemma add_appends_and_selects_when_nothing_selected_witness :
  selectedFrame (handleCapture frameA initialApp) = Some frameA
  /\ selectedFrame (handleCapture frameB (handleCapture frameA initialApp)) = Some frameA.
Proof.
  split.
  - destruct (add_appends_and_selects_when_nothing_selected frameA initialApp)
      as [_ [_ [Hempty _]]].
    apply Hempty; reflexivity.
  - destruct (add_appends_and_selects_when_nothing_selected frameB
                (handleCapture frameA initialApp)) as [_ [_ [_ Hkeep]]].
    apply Hkeep. reflexivity.
Defined.

(** C3 as stated fails: after the selected frame was removed the gallery
    is not empty and nothing is selected, and the next add selects the new
    frame. *)
Lemma add_on_nonempty_gallery_changes_selection :
  let st := run [Add frameA; Add frameB; Remove (id frameA)] initialApp in
  frames st = [frameB]
  /\ selectedFrame st = None
  /\ selectedFrame (handleCapture frameC st) = Some frameC
  /\ selectedFrame (handleCapture frameC st) <> selectedFrame st.
Proof. repeat split. discriminate. Qed.

(** ** The credential *)

Lemma truthy_false_iff (s : string) : Js.truthy s = false <-> s = EmptyString.
Proof. destruct s; simpl; split; intros H; try reflexivity; discriminate. Qed.

Lemma getItem_setItem (k v : string) (ls : Storage) :
  getItem k (setItem k v ls) = Some v.
Proof. unfold setItem. simpl. now rewrite String.eqb_refl. Qed.

(** C9: a candidate that is empty after trimming, or whose trimmed text
    does not start with the vendor prefix, is refused with an error and
    [localStorage] is left as it was; any other candidate is stored,
    trimmed, under the fixed key and becomes the in-memory value. *)
Theorem save_validates_then_persists (st : App) (ls : Storage) :
  (Js.trim (apiKey st) = EmptyString \/ Js.startsWith "AIza" (Js.trim (apiKey st)) = false ->
     (keyError (fst (handleSaveApiKey st ls)) = Some keyError_empty
      \/ keyError (fst (handleSaveApiKey st ls)) = Some keyError_format)
     /\ snd (handleSaveApiKey st ls) = ls
     /\ apiKey (fst (handleSaveApiKey st ls)) = apiKey st)
  /\ (Js.trim (apiKey st) <> EmptyString -> Js.startsWith "AIza" (Js.trim (apiKey st)) = true ->
     keyError (fst (handleSaveApiKey st ls)) = None
     /\ getItem user_gemini_api_key (snd (handleSaveApiKey st ls)) = Some (Js.trim (apiKey st))
     /\ apiKey (fst (handleSaveApiKey st ls)) = Js.trim (apiKey st)).
Proof.
  unfold handleSaveApiKey. split.
  - intros H.
    destruct (Js.truthy (Js.trim (apiKey st))) eqn:Ht; cbn [negb].
    + destruct H as [H|H].
      * apply truthy_false_iff in H. congruence.
      * rewrite H. cbn. auto.
    + cbn. auto.
  - intros Hne Hpre.
    destruct (Js.truthy (Js.trim (apiKey st))) eqn:Ht; cbn [negb].
    + rewrite Hpre. cbn [negb fst snd]. rewrite getItem_setItem. auto.
    + apply truthy_false_iff in Ht. contradiction.
Qed.

Lemma save_validates_then_persists_witness :
  let ls := [(user_gemini_api_key, "AIzaSyOLD")] in
  snd (handleSaveApiKey (setApiKey "not-a-key" initialApp) ls) = ls
  /\ getItem user_gemini_api_key
       (snd (handleSaveApiKey (setApiKey "  AIzaSyNEW " initialApp) ls))
     = Some "AIzaSyNEW".
Proof.
  intros ls. split.
  - destruct (save_validates_then_persists (setApiKey "not-a-key" initialApp) ls)
      as [Hbad _].
    apply Hbad. right. reflexivity.
  - destruct (save_validates_then_persists (setApiKey "  AIzaSyNEW " initialApp) ls)
      as [_ Hgood].
    apply Hgood.
    + discriminate.
    + reflexivity.
Defined.

(** ** Aspect ratios *)

(** C8: the bucketing is a total function with two values, applying it
    twice is applying it once, "9:16" and "3:4" go to "9:16", and "16:9",
    "4:3" and "1:1" go to "16:9"; the request carries the bucket. *)
Theorem aspect_ratio_bucketing :
  (forall a, targetAspectRatio a = "16:9" \/ targetAspectRatio a = "9:16")
  /\ (forall a, targetAspectRatio (targetAspectRatio a) = targetAspectRatio a)
  /\ targetAspectRatio "9:16" = "9:16"
  /\ targetAspectRatio "3:4" = "9:16"
  /\ targetAspectRatio "16:9" = "16:9"
  /\ targetAspectRatio "4:3" = "16:9"
  /\ targetAspectRatio "1:1" = "16:9"
  /\ (forall img prompt a e,
        v_aspectRatio (v_config (videoRequest img prompt a e)) = targetAspectRatio a).
Proof.
  repeat split.
  - intros a. unfold targetAspectRatio.
    destruct (String.eqb a "9:16" || String.eqb a "3:4"); auto.
  - intros a. unfold targetAspectRatio.
    destruct (String.eqb a "9:16" || String.eqb a "3:4"); reflexivity.
Qed.

(** ** Running programs in the scripted environment *)

#[global] Instance runIn_eq_itree {R : Type} (w : World) :
  Proper (eq_itree eq ==> eq_itree eq) (@runIn R w).
Proof. intros t1 t2 H. unfold runIn. rewrite H. reflexivity. Qed.

#[global] Instance runIn_eutt {R : Type} (w : World) :
  Proper (eutt eq ==> eutt eq) (@runIn R w).
Proof. intros t1 t2 H. unfold runIn. rewrite H. reflexivity. Qed.

Lemma runIn_ret {R : Type} (w : World) (r : R) : runIn w (Ret r) ≈ Ret (w, r).
Proof. unfold runIn. rewrite interp_state_ret. reflexivity. Qed.

Lemma runIn_trigger {T : Type} (w : World) (e : envE T) :
  runIn w (ITree.trigger e) ≈ Ret (respond e w).
Proof. unfold runIn. rewrite interp_state_trigger. reflexivity. Qed.

Lemma runIn_bind {A B : Type} (w w' : World) (t : itree envE A) (k : A -> itree envE B) (a : A) :
  runIn w t ≈ Ret (w', a) ->
  runIn w (ITree.bind t k) ≈ runIn w' (k a).
Proof.
  unfold runIn. intros H. rewrite interp_state_bind, H, bind_ret_l. reflexivity.
Qed.

Lemma runIn_trigger_bind {T B : Type} (w : World) (e : envE T) (k : T -> itree envE B) :
  runIn w (ITree.bind (ITree.trigger e) k) ≈ runIn (fst (respond e w)) (k (snd (respond e w))).
Proof.
  apply runIn_bind. rewrite runIn_trigger. destruct (respond e w). reflexivity.
Qed.

(** C6: the remote call answers with a non-empty text on which
    [JSON.parse] throws.  The job resolves, it does not reject:
    [englishPrompt] is the raw text and [chineseDescription] the fixed
    placeholder; the parse error is logged and the gallery untouched. *)
Theorem unparsable_analysis_degrades
  (env_API_KEY : option string) (JSON_parse : string -> JsError + Js.Json)
  (w : World) (base64Image : string) (apiKey : option string)
  (ai : GoogleGenAI) (reply : Reply ContentResponse) (rest : list (Reply ContentResponse))
  (response : ContentResponse) (responseText : string) (e : JsError) :
  getClient env_API_KEY apiKey = inr ai ->
  contentReplies (script w) = reply :: rest ->
  outcome reply = inr response ->
  text response = Some responseText ->
  responseText <> EmptyString ->
  JSON_parse responseText = inl e ->
  exists w',
    runIn w (analyzeFrame env_API_KEY JSON_parse base64Image apiKey)
    ≈ Ret (w', inr {| chineseDescription := Js.JString "解析响应失败";
                      englishPrompt := Js.JString responseText |})
    /\ calls w' = calls w ++ [CallGenerateContent ai (analyzeRequest base64Image);
                              CallConsoleError "JSON Parse Error" e]
    /\ app w' = app w.
Proof.
  intros Hai Hscript Hout Htext Hne Hparse.
  eexists. split.
  - unfold analyzeFrame, analyzeFrame_try, tryCatch, await, lift, generateContent.
    rewrite Hai. rewrite !bind_ret_l. rewrite !bind_bind.
    rewrite runIn_trigger_bind.
    cbn [respond]. unfold nextContentReply. cbn [script logCall]. rewrite Hscript.
    cbn [fst snd]. rewrite !bind_ret_l. rewrite Hout, Htext.
    destruct responseText as [|c s]; [contradiction|]. cbn [Js.truthy].
    unfold parseAnalysis. rewrite Hparse.
    rewrite bind_bind. rewrite runIn_trigger_bind. cbn [respond fst snd].
    unfold resolve. rewrite bind_ret_l. rewrite runIn_ret. reflexivity.
  - cbn. rewrite <- app_assoc. split; reflexivity.
Qed.

Lemma unparsable_analysis_degrades_witness :
  exists w',
    runIn (worldOf (withContentReplies [replyText "Sure! Here is a prompt: a lighthouse at dusk"]))
          (analyzeFrame None literalJSON sampleDataUrl (Some sampleKey))
    ≈ Ret (w', inr {| chineseDescription := Js.JString "解析响应失败";
                      englishPrompt :=
                        Js.JString "Sure! Here is a prompt: a lighthouse at dusk" |})
    /\ calls w' = calls (worldOf (withContentReplies
                                   [replyText "Sure! Here is a prompt: a lighthouse at dusk"]))
                  ++ [CallGenerateContent {| client_apiKey := sampleKey |}
                        (analyzeRequest sampleDataUrl);
                      CallConsoleError "JSON Parse Error"
                        (Error "Unexpected token in JSON at position 0")]
    /\ app w' = app (worldOf (withContentReplies
                                [replyText "Sure! Here is a prompt: a lighthouse at dusk"])).
Proof.
  apply (unparsable_analysis_degrades None literalJSON
           (worldOf (withContentReplies
                       [replyText "Sure! Here is a prompt: a lighthouse at dusk"]))
           sampleDataUrl (Some sampleKey) {| client_apiKey := sampleKey |}
           (replyText "Sure! Here is a prompt: a lighthouse at dusk") []
           {| text := Some "Sure! Here is a prompt: a lighthouse at dusk"; candidates := None |}
           "Sure! Here is a prompt: a lighthouse at dusk"
           (Error "Unexpected token in JSON at position 0")).
  - reflexivity.
  - reflexivity.
  - reflexivity.
  - reflexivity.
  - discriminate.
  - reflexivity.
Defined.

(** The same run, evaluated. *)
Example unparsable_analysis_evaluated :
  option_map snd
    (observeFor 20
       (runIn (worldOf (withContentReplies [replyText "not json"]))
              (analyzeFrame None literalJSON sampleDataUrl (Some sampleKey))))
  = Some (inr {| chineseDescription := Js.JString "解析响应失败";
                 englishPrompt := Js.JString "not json" |}).
Proof. vm_compute. reflexivity. Qed.

(** A response that parses to [null] takes the same way out: reading a key
    of [null] throws inside the inner [try]. *)
Example null_analysis_evaluated :
  option_map snd
    (observeFor 20
       (runIn (worldOf (withContentReplies [replyText "null"]))
              (analyzeFrame None literalJSON sampleDataUrl (Some sampleKey))))
  = Some (inr {| chineseDescription := Js.JString "解析响应失败";
                 englishPrompt := Js.JString "null" |}).
Proof. vm_compute. reflexivity. Qed.

(** ** Error classification *)

Lemma indicates403_iff (error : JsError) :
  indicates403 error = true <->
  err_status error = Js.Num 403
  \/ err_code error = Js.Num 403
  \/ exists m, err_message error = Some m /\ Js.includes "403" m = true.
Proof.
  unfold indicates403. rewrite !orb_true_iff. split.
  - intros [[H|H]|H].
    + left. destruct (err_status error); try discriminate.
      cbn in H. apply Z.eqb_eq in H. now subst.
    + right. left. destruct (err_code error); try discriminate.
      cbn in H. apply Z.eqb_eq in H. now subst.
    + right. right. destruct (err_message error) as [m|]; [|discriminate].
      apply andb_true_iff in H. exists m. tauto.
  - intros [H|[H|[m [Hm Hinc]]]].
    + left. left. rewrite H. reflexivity.
    + left. right. rewrite H. reflexivity.
    + right. rewrite Hm, Hinc. destruct m; [discriminate|reflexivity].
Qed.

(** The [catch] of a service function, run after its [try] block threw
    [error]: the error is logged and [rethrows error] is thrown. *)
Lemma runIn_tryCatch_throw {A : Type} (w w' : World) (p : Promise A)
  (label : string) (rethrows : JsError -> JsError) (error : JsError) :
  runIn w p ≈ Ret (w', inl error) ->
  runIn w (tryCatch p (fun error => ITree.trigger (ConsoleError label error);;
                                     throw (rethrows error)))
  ≈ Ret (logCall (CallConsoleError label error) w', inl (rethrows error)).
Proof.
  intros H. unfold tryCatch. rewrite (runIn_bind _ _ _ _ _ H).
  rewrite runIn_trigger_bind. cbn [respond fst snd]. apply runIn_ret.
Qed.

Lemma runIn_tryCatch_resolve {A : Type} (w w' : World) (p : Promise A)
  (h : JsError -> Promise A) (a : A) :
  runIn w p ≈ Ret (w', inr a) ->
  runIn w (tryCatch p h) ≈ Ret (w', inr a).
Proof.
  intros H. unfold tryCatch. rewrite (runIn_bind _ _ _ _ _ H). apply runIn_ret.
Qed.

(** C4, as amended: whatever the [try] block of [generateVideoFromImage]
    throws, at any stage, is thrown on as the billing error when its
    status or code is the number 403 or its message contains "403", and
    unchanged otherwise; [analyzeFrame] and [generateImageFromPrompt] throw
    on every error unchanged, one that indicates 403 included. *)
Theorem only_video_generation_reclassifies_403
  (env_API_KEY : option string) (JSON_parse : string -> JsError + Js.Json)
  (w w' : World) (error : JsError) :
  (forall imageBase64 prompt aspectRatio apiKey endImageBase64,
      runIn w (generateVideo_try env_API_KEY imageBase64 prompt
                 (match aspectRatio with Some a => a | None => "16:9" end)
                 apiKey endImageBase64)
      ≈ Ret (w', inl error) ->
      runIn w (generateVideoFromImage env_API_KEY imageBase64 prompt aspectRatio
                 apiKey endImageBase64)
      ≈ Ret (logCall (CallConsoleError "Veo Generation Error:" error) w',
             inl (if indicates403 error then billingRequiredError else error)))
  /\ (forall base64Image apiKey,
      runIn w (analyzeFrame_try env_API_KEY JSON_parse base64Image apiKey)
      ≈ Ret (w', inl error) ->
      runIn w (analyzeFrame env_API_KEY JSON_parse base64Image apiKey)
      ≈ Ret (logCall (CallConsoleError "Analysis Error:" error) w', inl error))
  /\ (forall prompt aspectRatio count apiKey,
      runIn w (generateImage_try env_API_KEY prompt
                 (match aspectRatio with Some a => a | None => "1:1" end)
                 (match count with Some c => c | None => 1%nat end) apiKey)
      ≈ Ret (w', inl error) ->
      runIn w (generateImageFromPrompt env_API_KEY prompt aspectRatio count apiKey)
      ≈ Ret (logCall (CallConsoleError "Generation Error:" error) w', inl error)).
Proof.
  repeat split; intros.
  - unfold generateVideoFromImage.
    now apply (runIn_tryCatch_throw w w' _ _ generateVideo_rethrows error).
  - unfold analyzeFrame.
    now apply (runIn_tryCatch_throw w w' _ _ analyzeFrame_rethrows error).
  - unfold generateImageFromPrompt.
    now apply (runIn_tryCatch_throw w w' _ _ generateImage_rethrows error).
Qed.

(** A run that ends within the fuel ends with that result. *)
Lemma observeFor_sound {R : Type} (fuel : nat) (t : itree void1 R) (r : R) :
  observeFor fuel t = Some r -> t ≈ Ret r.
Proof.
  revert t. induction fuel as [|fuel IH]; intros t H; [discriminate|].
  cbn in H. rewrite (itree_eta t).
  destruct (observe t) as [r'|t'|X e k].
  - inversion H. reflexivity.
  - rewrite tau_eutt. now apply IH.
  - destruct e.
Qed.

Lemma only_video_generation_reclassifies_403_witness :
  runIn (worldOf (videoScript (inl forbidden) [] (inl notScripted)))
        (generateVideoFromImage None sampleDataUrl EmptyString (Some "16:9") (Some sampleKey) None)
  ≈ Ret (logCall (CallConsoleError "Veo Generation Error:" forbidden)
           (logCall (CallGenerateVideos {| client_apiKey := sampleKey |}
                       (videoRequest sampleDataUrl EmptyString "16:9" None))
              (worldOf (videoScript (inl forbidden) [] (inl notScripted)))),
         inl billingRequiredError).
Proof.
  apply (only_video_generation_reclassifies_403 None literalJSON
           (worldOf (videoScript (inl forbidden) [] (inl notScripted)))
           (logCall (CallGenerateVideos {| client_apiKey := sampleKey |}
                       (videoRequest sampleDataUrl EmptyString "16:9" None))
              (worldOf (videoScript (inl forbidden) [] (inl notScripted))))
           forbidden).
  apply (observeFor_sound 20). vm_compute. reflexivity.
Defined.

(** C4 as stated fails for two of the three kinds: an error with status
    403 from the remote call comes out of [analyzeFrame] and of
    [generateImageFromPrompt] as it went in, and it is not the billing
    error. *)
Lemma analysis_and_image_generation_keep_403 :
  indicates403 forbidden = true
  /\ option_map snd
       (observeFor 20
          (runIn (worldOf (withContentReplies [replyError 1 forbidden]))
                 (analyzeFrame None literalJSON sampleDataUrl (Some sampleKey))))
     = Some (inl forbidden)
  /\ option_map snd
       (observeFor 20
          (runIn (worldOf (withContentReplies [replyError 1 forbidden]))
                 (generateImageFromPrompt None "a lighthouse at dusk" (Some "1:1")
                    (Some 1%nat) (Some sampleKey))))
     = Some (inl forbidden)
  /\ forbidden <> billingRequiredError.
Proof.
  split; [reflexivity|]. split; [vm_compute; reflexivity|].
  split; [vm_compute; reflexivity|]. discriminate.
Qed.

(** The stages of a video job, each with a 403: the submission, a status
    request, and the download, whose error message is built from the HTTP
    status. *)
Example video_403_at_submission :
  option_map snd
    (observeFor 40
       (runIn (worldOf (videoScript (inl forbidden) [] (inl notScripted)))
              (generateVideoFromImage None sampleDataUrl "pan left" (Some "16:9")
                 (Some sampleKey) None)))
  = Some (inl billingRequiredError).
Proof. vm_compute. reflexivity. Qed.

Example video_403_at_a_status_request :
  option_map snd
    (observeFor 40
       (runIn (worldOf (videoScript (inr pendingOp) [inr pendingOp; inl forbidden]
                          (inl notScripted)))
              (generateVideoFromImage None sampleDataUrl "pan left" (Some "16:9")
                 (Some sampleKey) None)))
  = Some (inl billingRequiredError).
Proof. vm_compute. reflexivity. Qed.

Example video_403_at_download :
  option_map snd
    (observeFor 40
       (runIn (worldOf (videoScript (inr doneOp) [] (inr videoForbidden)))
              (generateVideoFromImage None sampleDataUrl "pan left" (Some "16:9")
                 (Some sampleKey) None)))
  = Some (inl billingRequiredError).
Proof. vm_compute. reflexivity. Qed.

Example video_other_error_passes_through :
  option_map snd
    (observeFor 40
       (runIn (worldOf (videoScript (inl overloaded) [] (inl notScripted)))
              (generateVideoFromImage None sampleDataUrl "pan left" (Some "16:9")
                 (Some sampleKey) None)))
  = Some (inl overloaded).
Proof. vm_compute. reflexivity. Qed.

Lemma includes_app_l (p a s : string) :
  Js.includes p s = true -> Js.includes p (a ++ s)%string = true.
Proof.
  intros H. induction a as [|c a IH]; [exact H|].
  cbn [String.append Js.includes]. rewrite IH. apply orb_true_r.
Qed.

(** A download refused with HTTP status 403 indicates 403 whatever the
    status text: the status is part of the message that is thrown. *)
Lemma download_refused_with_403_indicates_403 (statusText0 : string) :
  indicates403
    (Error ("Failed to download video: " ++ statusText0
            ++ " (" ++ Js.ofZ 403 ++ ")")%string) = true.
Proof.
  unfold indicates403. cbn [err_status err_code err_message Error Js.strictEqNum orb].
  apply andb_true_iff. split; [reflexivity|].
  apply includes_app_l, includes_app_l. reflexivity.
Qed.

(** ** The video prompt *)

(** C10: with the empty prompt the request carries the default prompt,
    the whole job is the job of the default prompt, and, the key resolved,
    the first thing the job does is submit that request. *)
Theorem empty_video_prompt_becomes_default
  (env_API_KEY : option string) (imageBase64 : string) (aspectRatio : option string)
  (apiKey endImageBase64 : option string) :
  (forall a, v_prompt (videoRequest imageBase64 EmptyString a endImageBase64) = defaultVideoPrompt)
  /\ generateVideoFromImage env_API_KEY imageBase64 EmptyString aspectRatio apiKey endImageBase64
     = generateVideoFromImage env_API_KEY imageBase64 defaultVideoPrompt aspectRatio
         apiKey endImageBase64
  /\ (forall aiClient, getClient env_API_KEY apiKey = inr aiClient ->
      exists req k,
        observe (generateVideoFromImage env_API_KEY imageBase64 EmptyString aspectRatio
                   apiKey endImageBase64)
        = VisF (GenerateVideos aiClient req) k
        /\ v_prompt req = "Animate this scene naturally, cinematic lighting, 4k").
Proof.
  repeat split.
  intros aiClient Hai.
  unfold generateVideoFromImage, generateVideo_try, tryCatch, await, lift.
  rewrite Hai. cbn. eexists. eexists. split; reflexivity.
Qed.

Lemma empty_video_prompt_becomes_default_witness :
  exists req k,
    observe (generateVideoFromImage None sampleDataUrl EmptyString (Some "9:16")
               (Some sampleKey) None)
    = VisF (GenerateVideos {| client_apiKey := sampleKey |} req) k
    /\ v_prompt req = "Animate this scene naturally, cinematic lighting, 4k".
Proof.
  destruct (empty_video_prompt_becomes_default None sampleDataUrl (Some "9:16")
              (Some sampleKey) None) as [_ [_ H]].
  apply H. reflexivity.
Defined.

(** ** The polling loop *)

Lemma runIn_tau {R : Type} (w : World) (t : itree envE R) :
  runIn w (Tau t) ≈ runIn w t.
Proof. rewrite tau_eutt. reflexivity. Qed.

Lemma afterPolls_afterPolls (cs1 cs2 : list Call) (rest1 rest2 : list (JsError + Operation))
  (ms1 ms2 : Z) (w : World) :
  afterPolls cs2 rest2 ms2 (afterPolls cs1 rest1 ms1 w)
  = afterPolls (cs1 ++ cs2) rest2 (ms1 + ms2) w.
Proof.
  unfold afterPolls. cbn. rewrite app_assoc, Z.add_assoc. reflexivity.
Qed.

(** One round: sleep five seconds, then ask for the status. *)
Lemma respond_pollRound (ai : GoogleGenAI) (operation : Operation) (w : World)
  (r : JsError + Operation) (rest : list (JsError + Operation)) :
  pollReplies (script w) = r :: rest ->
  respond (GetVideosOperation ai operation) (fst (respond (SetTimeout 5000) w))
  = (afterPolls (pollRound ai operation) rest 5000 w, r).
Proof.
  intros H. cbn. unfold nextPollReply. cbn. rewrite H.
  unfold afterPolls, pollRound. cbn. rewrite <- app_assoc. reflexivity.
Qed.

Lemma runIn_pollUntilDone_done (ai : GoogleGenAI) (w : World) (operation : Operation) :
  isDone operation = true ->
  runIn w (pollUntilDone ai operation) ≈ Ret (w, inr operation).
Proof.
  intros Hdone. unfold pollUntilDone. rewrite unfold_iter, Hdone, bind_ret_l.
  apply runIn_ret.
Qed.

Lemma runIn_pollUntilDone_round (ai : GoogleGenAI) (w : World) (operation next : Operation)
  (rest : list (JsError + Operation)) :
  isDone operation = false ->
  pollReplies (script w) = inr next :: rest ->
  runIn w (pollUntilDone ai operation)
  ≈ runIn (afterPolls (pollRound ai operation) rest 5000 w) (pollUntilDone ai next).
Proof.
  intros Hnot Hreplies. unfold pollUntilDone at 1.
  rewrite unfold_iter, Hnot, !bind_bind.
  rewrite runIn_trigger_bind, bind_bind, runIn_trigger_bind.
  rewrite (respond_pollRound ai operation w (inr next) rest Hreplies).
  cbn [fst snd]. rewrite bind_ret_l. apply runIn_tau.
Qed.

(** A status request that throws ends the loop with that error. *)
Lemma runIn_pollUntilDone_throw (ai : GoogleGenAI) (w : World) (operation : Operation)
  (e : JsError) (rest : list (JsError + Operation)) :
  isDone operation = false ->
  pollReplies (script w) = inl e :: rest ->
  runIn w (pollUntilDone ai operation)
  ≈ Ret (afterPolls (pollRound ai operation) rest 5000 w, inl e).
Proof.
  intros Hnot Hreplies. unfold pollUntilDone.
  rewrite unfold_iter, Hnot, !bind_bind.
  rewrite runIn_trigger_bind, bind_bind, runIn_trigger_bind.
  rewrite (respond_pollRound ai operation w (inl e) rest Hreplies).
  cbn [fst snd]. rewrite !bind_ret_l. apply runIn_ret.
Qed.

(** The loop goes on for as long as the handle is not done: after any
    number of answers that are not done, the first done one ends it. *)
Lemma runIn_pollUntilDone (ai : GoogleGenAI) (pending : list Operation) :
  forall (w : World) (operation final : Operation) (rest : list (JsError + Operation)),
    isDone operation = false ->
    Forall (fun o => isDone o = false) pending ->
    isDone final = true ->
    pollReplies (script w) = List.map inr pending ++ inr final :: rest ->
    runIn w (pollUntilDone ai operation)
    ≈ Ret (afterPolls (flat_map (pollRound ai) (operation :: pending)) rest
             (5000 * Z.of_nat (S (length pending))) w,
           inr final).
Proof.
  induction pending as [|next pending IH]; intros w operation final rest Hnot Hall Hdone Hreplies.
  - simpl in Hreplies.
    rewrite (runIn_pollUntilDone_round ai w operation final rest Hnot Hreplies).
    rewrite (runIn_pollUntilDone_done ai _ final Hdone).
    cbn [flat_map length]. rewrite app_nil_r. reflexivity.
  - simpl in Hreplies. inversion Hall as [|? ? Hnext Hall']; subst.
    rewrite (runIn_pollUntilDone_round ai w operation next _ Hnot Hreplies).
    rewrite (IH (afterPolls (pollRound ai operation)
                   (List.map inr pending ++ inr final :: rest) 5000 w)
               next final rest Hnext Hall' Hdone eq_refl).
    rewrite afterPolls_afterPolls.
    replace (5000 + 5000 * Z.of_nat (S (length pending)))%Z
      with (5000 * Z.of_nat (S (length (next :: pending))))%Z by (cbn [length]; lia).
    reflexivity.
Qed.

Lemma pollCount_app (l1 l2 : list Call) :
  pollCount (l1 ++ l2) = pollCount l1 + pollCount l2.
Proof. unfold pollCount. now rewrite filter_app, length_app. Qed.

Lemma pollCount_rounds (ai : GoogleGenAI) (l : list Operation) :
  pollCount (flat_map (pollRound ai) l) = length l.
Proof.
  induction l as [|o l IH]; [reflexivity|].
  cbn [flat_map]. rewrite pollCount_app, IH. reflexivity.
Qed.

(** C7: the submission gives a handle that is not done; the status
    requests then answer not done any number of times ([pending]) and done
    with a locator after that.  The job sleeps 5000 ms before each status
    request, asks once per answer, so once more than there are answers
    that are not done, and resolves; with two answers not done and then a
    done one, that is exactly three status requests. *)
Theorem video_job_polls_every_five_seconds_until_done
  (env_API_KEY : option string) (w : World)
  (imageBase64 prompt : string) (aspectRatio apiKey endImageBase64 : option string)
  (aiClient : GoogleGenAI) (operation final : Operation) (pending : list Operation)
  (rest : list (JsError + Operation)) (downloadLink : string)
  (videoResponse : FetchResponse) (videoBlob : Blob) :
  getClient env_API_KEY apiKey = inr aiClient ->
  submitReply (script w) = inr operation ->
  isDone operation = false ->
  pollReplies (script w) = List.map inr pending ++ inr final :: rest ->
  Forall (fun o => isDone o = false) pending ->
  isDone final = true ->
  downloadLinkOf final = Some downloadLink ->
  downloadLink <> EmptyString ->
  fetchReply (script w) = inr videoResponse ->
  ok videoResponse = true ->
  blobReply (script w) = inr videoBlob ->
  exists w',
    runIn w (generateVideoFromImage env_API_KEY imageBase64 prompt aspectRatio
               apiKey endImageBase64)
    ≈ Ret (w', inr (objectUrl (script w)))
    /\ calls w'
       = calls w
         ++ [CallGenerateVideos aiClient
               (videoRequest imageBase64 prompt
                  (match aspectRatio with Some a => a | None => "16:9" end)
                  endImageBase64)]
         ++ flat_map (pollRound aiClient) (operation :: pending)
         ++ [CallFetch (finalUrlOf env_API_KEY downloadLink apiKey);
             CallReadBlob videoResponse;
             CallCreateObjectURL videoBlob]
    /\ pollCount (calls w') = pollCount (calls w) + S (length pending)
    /\ now w' = (now w + 5000 * Z.of_nat (S (length pending)))%Z
    /\ (length pending = 2 -> pollCount (calls w') = pollCount (calls w) + 3).
Proof.
  intros Hai Hsubmit Hnot Hreplies Hall Hdone Hlink Hne Hfetch Hok Hblob.
  eexists. split; [|split; [|split; [|split]]].
  - unfold generateVideoFromImage. apply runIn_tryCatch_resolve.
    unfold generateVideo_try, await, lift. rewrite Hai, bind_ret_l.
    rewrite runIn_trigger_bind. cbn [respond fst snd]. rewrite Hsubmit.
    match goal with
    | |- runIn ?w1 _ ≈ _ =>
        rewrite (runIn_bind _ _ _ _ _
                   (runIn_pollUntilDone aiClient pending w1 operation final rest
                      Hnot Hall Hdone Hreplies))
    end.
    rewrite Hlink. destruct downloadLink as [|c s]; [contradiction|]. cbn [Js.truthy].
    rewrite runIn_trigger_bind. cbn [respond fst snd]. cbn [script afterPolls logCall fetchReply].
    rewrite Hfetch, Hok.
    rewrite runIn_trigger_bind. cbn [respond fst snd]. cbn [script afterPolls logCall blobReply].
    rewrite Hblob.
    rewrite runIn_trigger_bind. cbn [respond fst snd]. cbn [script afterPolls logCall objectUrl].
    apply runIn_ret.
  - cbn [calls logCall afterPolls]. rewrite <- !app_assoc. reflexivity.
  - cbn [calls logCall afterPolls]. rewrite !pollCount_app, pollCount_rounds.
    cbn. lia.
  - reflexivity.
  - intros Hlen. cbn [calls logCall afterPolls].
    rewrite !pollCount_app, pollCount_rounds. cbn. lia.
Qed.

Lemma video_job_polls_every_five_seconds_until_done_witness :
  exists w',
    runIn (worldOf (videoScript (inr pendingOp) [inr pendingOp; inr pendingOp; inr doneOp]
                      (inr videoFile)))
          (generateVideoFromImage None sampleDataUrl "pan left" (Some "16:9")
             (Some sampleKey) None)
    ≈ Ret (w', inr "blob:https://clipforge.example/3f0c")
    /\ pollCount (calls w') = 3
    /\ now w' = (1700000000000 + 15000)%Z.
Proof.
  destruct (video_job_polls_every_five_seconds_until_done None
              (worldOf (videoScript (inr pendingOp)
                          [inr pendingOp; inr pendingOp; inr doneOp] (inr videoFile)))
              sampleDataUrl "pan left" (Some "16:9") (Some sampleKey) None
              {| client_apiKey := sampleKey |} pendingOp doneOp [pendingOp; pendingOp] []
              "https://files.example/v1/video.mp4?alt=media" videoFile "mp4-bytes")
    as [w' [Hrun [_ [_ [Hnow Hthree]]]]].
  - reflexivity.
  - reflexivity.
  - reflexivity.
  - reflexivity.
  - repeat constructor.
  - reflexivity.
  - reflexivity.
  - discriminate.
  - reflexivity.
  - reflexivity.
  - reflexivity.
  - exists w'. split; [exact Hrun|]. split; [apply Hthree; reflexivity | exact Hnow].
Defined.

(** The same run, evaluated: the calls, in order. *)
Example video_job_three_polls_evaluated :
  option_map (fun r => (calls (fst r), snd r))
    (observeFor 60
       (runIn (worldOf (videoScript (inr pendingOp) [inr pendingOp; inr pendingOp; inr doneOp]
                          (inr videoFile)))
              (generateVideoFromImage None sampleDataUrl "pan left" (Some "16:9")
                 (Some sampleKey) None)))
  = Some ([ CallGenerateVideos {| client_apiKey := sampleKey |}
              (videoRequest sampleDataUrl "pan left" "16:9" None);
            CallSetTimeout 5000;
            CallGetVideosOperation {| client_apiKey := sampleKey |} pendingOp;
            CallSetTimeout 5000;
            CallGetVideosOperation {| client_apiKey := sampleKey |} pendingOp;
            CallSetTimeout 5000;
            CallGetVideosOperation {| client_apiKey := sampleKey |} pendingOp;
            CallFetch "https://files.example/v1/video.mp4?alt=media&key=AIzaSyD-sample-key";
            CallReadBlob videoFile;
            CallCreateObjectURL "mp4-bytes" ],
          inr "blob:https://clipforge.example/3f0c").
Proof. vm_compute. reflexivity. Qed.

(** What is counted are the status requests: the handle that the
    submission returns is looked at without a request.  Were its state the
    first of the two reports that are not done, two status requests would
    follow. *)
Example video_job_submission_report_is_not_a_poll :
  option_map (fun r => (pollCount (calls (fst r)), now (fst r), snd r))
    (observeFor 60
       (runIn (worldOf (videoScript (inr pendingOp) [inr pendingOp; inr doneOp]
                          (inr videoFile)))
              (generateVideoFromImage None sampleDataUrl "pan left" (Some "16:9")
                 (Some sampleKey) None)))
  = Some (2, (1700000000000 + 10000)%Z, inr "blob:https://clipforge.example/3f0c").
Proof. vm_compute. reflexivity. Qed.

(** A handle that is done when the submission returns is never asked for
    its status. *)
Example video_job_done_at_submission_evaluated :
  option_map (fun r => (pollCount (calls (fst r)), now (fst r), snd r))
    (observeFor 60
       (runIn (worldOf (videoScript (inr doneOp) [] (inr videoFile)))
              (generateVideoFromImage None sampleDataUrl "pan left" (Some "16:9")
                 (Some sampleKey) None)))
  = Some (0, 1700000000000%Z, inr "blob:https://clipforge.example/3f0c").
Proof. vm_compute. reflexivity. Qed.

(** ** The image job *)

Lemma afterRequests_afterRequests (cs1 cs2 : list Call)
  (rest1 rest2 : list (Reply ContentResponse)) (w : World) :
  afterRequests cs2 rest2 (afterRequests cs1 rest1 w) = afterRequests (cs1 ++ cs2) rest2 w.
Proof. unfold afterRequests. cbn. rewrite app_assoc. reflexivity. Qed.

Lemma afterRequests_nil (w : World) :
  afterRequests [] (contentReplies (script w)) w = w.
Proof.
  destruct w as [[cr sr pr fr br ou rs] nw cs ap]. unfold afterRequests. cbn.
  rewrite app_nil_r. reflexivity.
Qed.

(** All [count] requests are sent, whatever the answers are. *)
Lemma runIn_startAll (ai : GoogleGenAI) (prompt aspectRatio : string)
  (replies : list (Reply ContentResponse)) :
  forall (w : World) (rest : list (Reply ContentResponse)),
    contentReplies (script w) = replies ++ rest ->
    runIn w (startAll (length replies) (imageTask ai prompt aspectRatio))
    ≈ Ret (afterRequests
             (repeat (CallGenerateContent ai (imageRequest prompt aspectRatio))
                (length replies)) rest w,
           List.map (fun reply => (arrival reply, imageOutcome reply)) replies).
Proof.
  induction replies as [|reply replies IH]; intros w rest Hscript.
  - cbn. rewrite runIn_ret. cbn in Hscript. rewrite <- Hscript, afterRequests_nil.
    reflexivity.
  - cbn [length startAll]. unfold imageTask at 1. rewrite !bind_bind.
    rewrite runIn_trigger_bind. cbn [respond]. unfold nextContentReply.
    cbn [script logCall]. rewrite Hscript. cbn [app fst snd].
    rewrite bind_ret_l.
    match goal with
    | |- runIn ?w1 _ ≈ _ =>
        rewrite (runIn_bind _ _ _ _ _ (IH w1 rest eq_refl))
    end.
    rewrite runIn_ret.
    match goal with
    | |- Ret (?a, _) ≈ Ret (?b, _) =>
        replace a with b
          by (unfold afterRequests; cbn; rewrite <- app_assoc; reflexivity)
    end.
    reflexivity.
Qed.

(** One rejection among the settled promises makes [Promise.all] reject,
    with the error of one of the rejected promises. *)
Lemma firstRejection_In {A : Type} (settled : list (nat * (JsError + A)))
  (t : nat) (e : JsError) :
  firstRejection settled = Some (t, e) -> In (t, inl e) settled.
Proof.
  revert t e. induction settled as [|[t0 [e0|a0]] settled IH]; intros t e H.
  - discriminate.
  - cbn [firstRejection] in H.
    destruct (firstRejection settled) as [[t1 e1]|].
    + destruct (t0 <=? t1)%nat; inversion H; subst.
      * now left.
      * right. now apply IH.
    + inversion H; subst. now left.
  - right. now apply IH.
Qed.

Lemma firstRejection_none {A : Type} (settled : list (nat * (JsError + A)))
  (t : nat) (e : JsError) :
  In (t, inl e) settled -> firstRejection settled <> None.
Proof.
  induction settled as [|[t0 [e0|a0]] settled IH]; intros Hin.
  - contradiction.
  - cbn [firstRejection].
    destruct (firstRejection settled) as [[t1 e1]|]; [|discriminate].
    destruct (t0 <=? t1)%nat; discriminate.
  - destruct Hin as [Hin|Hin]; [discriminate|]. now apply IH.
Qed.

Lemma firstRejection_some {A : Type} (settled : list (nat * (JsError + A)))
  (t : nat) (e : JsError) :
  In (t, inl e) settled ->
  exists t' e', firstRejection settled = Some (t', e') /\ In (t', inl e') settled.
Proof.
  intros Hin. pose proof (firstRejection_none settled t e Hin) as Hsome.
  destruct (firstRejection settled) as [[t' e']|] eqn:Heq; [|contradiction].
  exists t', e'. split; [reflexivity|]. now apply firstRejection_In.
Qed.

Lemma Promise_all_rejects {A : Type} (settled : list (nat * (JsError + A)))
  (t : nat) (e : JsError) :
  In (t, inl e) settled ->
  exists t' e', Promise_all settled = inl e' /\ In (t', inl e') settled.
Proof.
  intros Hin. destruct (firstRejection_some settled t e Hin) as [t' [e' [Heq Hin']]].
  exists t', e'. unfold Promise_all. rewrite Heq. split; [reflexivity | exact Hin'].
Qed.

Lemma requestCount_app (l1 l2 : list Call) :
  requestCount (l1 ++ l2) = requestCount l1 + requestCount l2.
Proof. unfold requestCount. now rewrite filter_app, length_app. Qed.

Lemma requestCount_repeat (ai : GoogleGenAI) (req : ContentRequest) (n : nat) :
  requestCount (repeat (CallGenerateContent ai req) n) = n.
Proof. induction n as [|n IH]; [reflexivity|]. cbn. unfold requestCount in IH. now rewrite IH. Qed.

(** The service function on [length replies] requests: all are sent, and
    the outcome is that of [Promise.all] on the settled closures. *)
Lemma runIn_generateImageFromPrompt
  (env_API_KEY : option string) (w : World) (prompt aspectRatio : string)
  (apiKey : option string) (ai : GoogleGenAI)
  (replies rest : list (Reply ContentResponse)) :
  getClient env_API_KEY apiKey = inr ai ->
  contentReplies (script w) = replies ++ rest ->
  runIn w (generateImageFromPrompt env_API_KEY prompt (Some aspectRatio)
             (Some (length replies)) apiKey)
  ≈ Ret (afterRequests
           (imageJobCalls ai prompt aspectRatio (length replies)
              (Promise_all (List.map (fun reply => (arrival reply, imageOutcome reply))
                              replies)))
           rest w,
         Promise_all (List.map (fun reply => (arrival reply, imageOutcome reply)) replies)).
Proof.
  intros Hai Hscript.
  assert (Htry : runIn w (generateImage_try env_API_KEY prompt aspectRatio
                            (length replies) apiKey)
                 ≈ Ret (afterRequests
                          (repeat (CallGenerateContent ai (imageRequest prompt aspectRatio))
                             (length replies)) rest w,
                        Promise_all (List.map (fun reply => (arrival reply, imageOutcome reply))
                                       replies))).
  { unfold generateImage_try, await, lift. rewrite Hai, bind_ret_l.
    rewrite (runIn_bind _ _ _ _ _ (runIn_startAll ai prompt aspectRatio replies w rest Hscript)).
    apply runIn_ret. }
  unfold generateImageFromPrompt, imageJobCalls.
  destruct (Promise_all (List.map (fun reply => (arrival reply, imageOutcome reply)) replies))
    as [e'|urls].
  - rewrite (runIn_tryCatch_throw w _ _ _ generateImage_rethrows e' Htry).
    unfold generateImage_rethrows, logCall, afterRequests. cbn.
    rewrite <- app_assoc. reflexivity.
  - rewrite (runIn_tryCatch_resolve w _ _ _ urls Htry). rewrite app_nil_r. reflexivity.
Qed.

(** C5: a job of [imageCount] requests.  All the requests are sent,
    whatever the answers.  If at least one fails (the remote call rejects
    or its response holds no image), the service function rejects, with
    the error of a failed request and with no list of images; the
    component ends in the error state with an empty batch; and the gallery
    of the application is what it was. *)
Theorem image_job_is_all_or_nothing
  (env_API_KEY props_apiKey : option string) (st0 : CreativeStudio) (w : World)
  (ai : GoogleGenAI) (replies rest : list (Reply ContentResponse)) :
  studio_englishPrompt st0 <> EmptyString ->
  getClient env_API_KEY props_apiKey = inr ai ->
  contentReplies (script w) = replies ++ rest ->
  length replies = imageCount st0 ->
  exists w' r,
    runIn w (generateImageFromPrompt env_API_KEY (studio_englishPrompt st0)
               (Some (studio_aspectRatio st0)) (Some (imageCount st0)) props_apiKey)
    ≈ Ret (w', r)
    /\ requestCount (calls w') = requestCount (calls w) + imageCount st0
    /\ (forall failing e,
          In failing replies ->
          imageOutcome failing = inl e ->
          exists e' st',
            r = inl e'
            /\ (exists reply, In reply replies /\ imageOutcome reply = inl e')
            /\ calls w'
               = calls w
                 ++ repeat (CallGenerateContent ai
                              (imageRequest (studio_englishPrompt st0)
                                 (studio_aspectRatio st0)))
                      (imageCount st0)
                 ++ [CallConsoleError "Generation Error:" e']
            /\ runIn w (handleGenerate env_API_KEY props_apiKey st0) ≈ Ret (w', st')
            /\ studio_appState st' = ERROR
            /\ studio_error st' = Some generateError
            /\ generatedImages st' = []
            /\ app w' = app w).
Proof.
  intros Hprompt Hai Hscript Hlen.
  pose proof (runIn_generateImageFromPrompt env_API_KEY w (studio_englishPrompt st0)
                (studio_aspectRatio st0) props_apiKey ai replies rest Hai Hscript) as Hrun.
  rewrite Hlen in Hrun.
  eexists. eexists. split; [exact Hrun|]. split.
  - unfold imageJobCalls. cbn [calls afterRequests].
    rewrite !requestCount_app, requestCount_repeat.
    destruct (Promise_all _); cbn; lia.
  - intros failing e Hin Hfail.
    destruct (Promise_all_rejects
                (List.map (fun reply => (arrival reply, imageOutcome reply)) replies)
                (arrival failing) e) as [t' [e' [Hall Hin']]].
    { apply in_map_iff. exists failing. rewrite Hfail. auto. }
    rewrite Hall in Hrun |- *.
    exists e'. eexists.
    split; [reflexivity|]. split; [|split; [|split; [|repeat split]]].
    + apply in_map_iff in Hin'. destruct Hin' as [reply [Heq Hreply]].
      exists reply. split; [exact Hreply|]. now inversion Heq.
    + reflexivity.
    + unfold handleGenerate.
      assert (Ht : Js.truthy (studio_englishPrompt st0) = true)
        by (destruct (studio_englishPrompt st0); [contradiction | reflexivity]).
      rewrite Ht. cbn [negb].
      rewrite (runIn_bind _ _ _ _ _ Hrun). apply runIn_ret.
    + reflexivity.
    + reflexivity.
    + reflexivity.
Qed.

Lemma image_job_is_all_or_nothing_witness :
  exists w' st' e',
    runIn (worldOf (withContentReplies secondOfThreeFails))
          (handleGenerate None (Some sampleKey) (studioAsking "a lighthouse at dusk" 3))
    ≈ Ret (w', st')
    /\ requestCount (calls w') = 3
    /\ (exists reply, In reply secondOfThreeFails /\ imageOutcome reply = inl e')
    /\ studio_appState st' = ERROR
    /\ generatedImages st' = []
    /\ frames (app w') = [].
Proof.
  destruct (image_job_is_all_or_nothing None (Some sampleKey)
              (studioAsking "a lighthouse at dusk" 3)
              (worldOf (withContentReplies secondOfThreeFails))
              {| client_apiKey := sampleKey |} secondOfThreeFails [])
    as [w' [r [_ [Hcount Hfails]]]].
  - discriminate.
  - reflexivity.
  - reflexivity.
  - reflexivity.
  - destruct (Hfails (replyError 1 overloaded) overloaded)
      as [e' [st' [_ [Hsome [_ [Hrun [Hstate [_ [Hbatch Happ]]]]]]]]].
    + right. left. reflexivity.
    + reflexivity.
    + exists w', st', e'.
      split; [exact Hrun|]. split; [exact Hcount|]. split; [exact Hsome|].
      split; [exact Hstate|]. split; [exact Hbatch|].
      rewrite Happ. reflexivity.
Defined.

(** The same job, evaluated: three requests, one error logged, the error
    of the second request thrown, nothing kept. *)
Example second_of_three_fails_evaluated :
  option_map (fun r => (calls (fst r), frames (app (fst r)),
                        studio_appState (snd r), studio_error (snd r),
                        generatedImages (snd r)))
    (observeFor 60
       (runIn (worldOf (withContentReplies secondOfThreeFails))
              (handleGenerate None (Some sampleKey)
                 (studioAsking "a lighthouse at dusk" 3))))
  = Some ([ CallGenerateContent {| client_apiKey := sampleKey |}
              (imageRequest "a lighthouse at dusk" "16:9");
            CallGenerateContent {| client_apiKey := sampleKey |}
              (imageRequest "a lighthouse at dusk" "16:9");
            CallGenerateContent {| client_apiKey := sampleKey |}
              (imageRequest "a lighthouse at dusk" "16:9");
            CallConsoleError "Generation Error:" overloaded ],
          [], ERROR, Some generateError, []).
Proof. vm_compute. reflexivity. Qed.

(** Where all three requests succeed the batch holds three images, and the
    gallery still changes only when one of them is saved by a click. *)
Example three_of_three_evaluated :
  option_map (fun r => (List.map img_dataUrl (generatedImages (snd r)),
                        studio_appState (snd r), frames (app (fst r))))
    (observeFor 80
       (runIn (worldOf (withContentReplies
                          [replyImage 2 "QUFB"; replyImage 1 "QkJC"; replyImage 3 "Q0ND"]))
              (handleGenerate None (Some sampleKey)
                 (studioAsking "a lighthouse at dusk" 3))))
  = Some (["data:image/png;base64,QUFB"; "data:image/png;base64,QkJC";
           "data:image/png;base64,Q0ND"], IDLE, []).
Proof. vm_compute. reflexivity. Qed.

Example save_to_gallery_evaluated :
  option_map (fun r => List.map id (frames (app (fst r))))
    (observeFor 10
       (runIn (onApp (handleCapture frameA) (worldOf quietScript))
              (handleSaveToGallery sampleImage)))
  = Some [img_id sampleImage; id frameA].
Proof. vm_compute. reflexivity. Qed.


(** * More properties of the code *)

(** ** The gallery, continued *)

Lemma frames_handleDeleteFrame (id0 : string) (st : App) :
  frames (handleDeleteFrame id0 st)
  = filter (fun f => negb (String.eqb (id f) id0)) (frames st).
Proof.
  unfold handleDeleteFrame. destruct (selectedFrame st) as [s|]; [|reflexivity].
  destruct (String.eqb (id s) id0); reflexivity.
Qed.

Lemma frames_handleCapture (frame : CapturedFrame) (st : App) :
  frames (handleCapture frame st) = frames st ++ [frame].
Proof. unfold handleCapture. destruct (selectedFrame st); reflexivity. Qed.

Lemma hasId_false_filter (i : string) (l : list CapturedFrame) :
  hasId i l = false ->
  filter (fun f => negb (String.eqb (id f) i)) l = l.
Proof.
  intros H. apply filter_other_ids. intros g Hg Heq.
  assert (hasId i l = true) by (apply hasId_In; eauto). congruence.
Qed.

(** Adding a frame whose id is new to the gallery and to the selection,
    then removing that id, gives back the frames and the selection that
    were there. *)
Theorem add_then_remove_restores_gallery (frame : CapturedFrame) (st : App) :
  hasId (id frame) (frames st) = false ->
  (forall s, selectedFrame st = Some s -> id s <> id frame) ->
  frames (handleDeleteFrame (id frame) (handleCapture frame st)) = frames st
  /\ selectedFrame (handleDeleteFrame (id frame) (handleCapture frame st))
     = selectedFrame st.
Proof.
  intros Hfresh Hsel. split.
  - rewrite frames_handleDeleteFrame, frames_handleCapture, filter_app.
    rewrite hasId_false_filter by exact Hfresh.
    cbn. rewrite String.eqb_refl. cbn. apply app_nil_r.
  - unfold handleDeleteFrame, handleCapture.
    destruct (selectedFrame st) as [s|] eqn:Hs; cbn.
    + rewrite Hs. pose proof (Hsel s eq_refl) as Hne.
      apply String.eqb_neq in Hne. rewrite Hne. cbn. exact Hs.
    + rewrite String.eqb_refl. reflexivity.
Qed.

Lemma add_then_remove_restores_gallery_witness :
  frames (handleDeleteFrame (id frameB) (handleCapture frameB (handleCapture frameA initialApp)))
  = [frameA]
  /\ selectedFrame (handleDeleteFrame (id frameB)
                      (handleCapture frameB (handleCapture frameA initialApp)))
     = Some frameA.
Proof.
  apply (add_then_remove_restores_gallery frameB (handleCapture frameA initialApp)).
  - reflexivity.
  - intros s Hs. inversion Hs. discriminate.
Defined.

Lemma hasId_false_iff (i : string) (l : list CapturedFrame) :
  hasId i l = false <-> ~ In i (List.map id l).
Proof.
  split.
  - intros H Hin. apply in_map_iff in Hin. destruct Hin as [f [Hid Hf]].
    assert (hasId i l = true) by (apply hasId_In; eauto). congruence.
  - intros H. destruct (hasId i l) eqn:E; [|reflexivity].
    exfalso. apply H. apply hasId_In in E. destruct E as [f [Hf Hid]].
    apply in_map_iff. eauto.
Qed.

Lemma NoDup_map_filter {A B : Type} (f : A -> B) (p : A -> bool) (l : list A) :
  NoDup (List.map f l) -> NoDup (List.map f (filter p l)).
Proof.
  induction l as [|a l IH]; intros H; [exact H|].
  cbn in *. inversion H as [|? ? Hnotin Hrest]; subst.
  destruct (p a); cbn; [|now apply IH].
  constructor; [|now apply IH].
  intros Hin. apply Hnotin. apply in_map_iff in Hin.
  destruct Hin as [x [Hx Hin]]. apply filter_In in Hin.
  apply in_map_iff. exists x. tauto.
Qed.

Lemma applyOp_keeps_ids_distinct (st : App) (op : GalleryOp) :
  NoDup (idsOf st) ->
  bringsFreshId st op = true ->
  NoDup (idsOf (applyOp st op)).
Proof.
  unfold idsOf. intros Hnd Hfresh.
  destruct op as [frame|frame|id0|img|step]; cbn [applyOp bringsFreshId] in *.
  - rewrite frames_handleCapture, map_app. cbn.
    apply negb_true_iff, hasId_false_iff in Hfresh.
    apply NoDup_rev in Hnd.
    rewrite <- (rev_involutive (List.map id (frames st) ++ [id frame])).
    apply NoDup_rev. rewrite rev_app_distr. cbn.
    constructor; [|exact Hnd]. now rewrite <- in_rev.
  - unfold handleSelectFrame.
    destruct (WorkflowStep_eqb (currentStep st) CAPTURE); exact Hnd.
  - rewrite frames_handleDeleteFrame. now apply NoDup_map_filter.
  - apply negb_true_iff, hasId_false_iff in Hfresh.
    cbn. constructor; assumption.
  - exact Hnd.
Qed.

(** The ids of the gallery stay pairwise distinct along every sequence of
    operations whose adds and imports each bring an id that the gallery
    does not hold at that moment; the handlers themselves never compare
    ids on the way in. *)
Theorem gallery_ids_stay_distinct (ops : list GalleryOp) (st : App) :
  NoDup (idsOf st) ->
  allBringFreshIds st ops = true ->
  NoDup (idsOf (run ops st)).
Proof.
  revert st. induction ops as [|op ops IH]; intros st Hnd Hops; [exact Hnd|].
  cbn in Hops. apply andb_true_iff in Hops. destruct Hops as [Hop Hops].
  cbn. apply IH; [now apply applyOp_keeps_ids_distinct | exact Hops].
Qed.

Lemma gallery_ids_stay_distinct_witness :
  NoDup (idsOf (run [Add frameA; ImportGenerated sampleImage; Add frameB;
                     Remove (id frameA); Add frameA] initialApp)).
Proof.
  apply (gallery_ids_stay_distinct
           [Add frameA; ImportGenerated sampleImage; Add frameB;
            Remove (id frameA); Add frameA] initialApp).
  - constructor.
  - reflexivity.
Defined.

(** Keeping the same generated image twice puts two frames with one id in
    the gallery, and one remove of that id then deletes both: where the
    id was new, the frames are back to what they were. *)
Theorem image_kept_twice_is_removed_at_once (img : GeneratedImage) (st : App) :
  hasId (img_id img) (frames st) = false ->
  frames (handleImageSaved img (handleImageSaved img st))
  = frameOfImage img :: frameOfImage img :: frames st
  /\ ~ NoDup (idsOf (handleImageSaved img (handleImageSaved img st)))
  /\ frames (handleDeleteFrame (img_id img)
               (handleImageSaved img (handleImageSaved img st)))
     = frames st.
Proof.
  intros Hfresh. split; [reflexivity|]. split.
  - unfold idsOf. cbn. intros Hnd. inversion Hnd as [|? ? Hnotin _]; subst.
    apply Hnotin. now left.
  - rewrite frames_handleDeleteFrame. cbn. rewrite String.eqb_refl. cbn.
    now apply hasId_false_filter.
Qed.

Lemma image_kept_twice_is_removed_at_once_witness :
  frames (handleDeleteFrame (img_id sampleImage)
            (handleImageSaved sampleImage
               (handleImageSaved sampleImage (handleCapture frameA initialApp))))
  = [frameA].
Proof.
  apply (image_kept_twice_is_removed_at_once sampleImage (handleCapture frameA initialApp)).
  reflexivity.
Defined.

(** Along a sequence without removes the gallery is: the imported images
    as frames, the latest first; then the frames that were there; then the
    added frames, in the order of the adds. *)
Theorem captures_append_and_imports_prepend (ops : list GalleryOp) (st : App) :
  forallb removesNothing ops = true ->
  frames (run ops st)
  = rev (List.map frameOfImage (importedBy ops)) ++ frames st ++ addedBy ops.
Proof.
  revert st. induction ops as [|op ops IH]; intros st Hops.
  - cbn. now rewrite app_nil_r.
  - cbn in Hops. apply andb_true_iff in Hops. destruct Hops as [Hop Hops].
    cbn [run fold_left]. fold (run ops (applyOp st op)). rewrite (IH _ Hops).
    destruct op as [frame|frame|id0|img|step]; cbn [applyOp addedBy importedBy].
    + rewrite frames_handleCapture, <- !app_assoc. reflexivity.
    + unfold handleSelectFrame.
      destruct (WorkflowStep_eqb (currentStep st) CAPTURE); reflexivity.
    + discriminate.
    + cbn [List.map rev]. rewrite <- !app_assoc. reflexivity.
    + reflexivity.
Qed.

Lemma captures_append_and_imports_prepend_witness :
  frames (run [Add frameA; ImportGenerated sampleImage; Select frameA; Add frameB]
            initialApp)
  = [frameOfImage sampleImage; frameA; frameB].
Proof.
  apply (captures_append_and_imports_prepend
           [Add frameA; ImportGenerated sampleImage; Select frameA; Add frameB]
           initialApp).
  reflexivity.
Defined.

(** ** The key editor *)

Lemma applyKeyOp_keeps_prefix (p : App * Storage) (op : KeyOp) :
  storedKeyHasPrefix (snd p) = true ->
  storedKeyHasPrefix (snd (applyKeyOp p op)) = true.
Proof.
  destruct p as [st ls]. intros H.
  destruct op as [|value| |]; cbn [applyKeyOp fst snd]; try exact H.
  - unfold handleSaveApiKey.
    destruct (Js.truthy (Js.trim (apiKey st))); cbn [negb]; [|exact H].
    destruct (Js.startsWith "AIza" (Js.trim (apiKey st))) eqn:Hpre; cbn [negb snd]; [|exact H].
    unfold storedKeyHasPrefix. rewrite getItem_setItem. exact Hpre.
  - unfold handleCancelKeyInput.
    destruct (getItem user_gemini_api_key ls); exact H.
Qed.

(** Whatever is typed, saved or cancelled, in any order, a key that
    [localStorage] holds has the vendor prefix, provided the one it held
    at the start had it. *)
Theorem stored_key_always_has_prefix (ops : list KeyOp) (p : App * Storage) :
  storedKeyHasPrefix (snd p) = true ->
  storedKeyHasPrefix (snd (runKeyOps ops p)) = true.
Proof.
  revert p. induction ops as [|op ops IH]; intros p H; [exact H|].
  cbn. apply IH. now apply applyKeyOp_keeps_prefix.
Qed.

Lemma stored_key_always_has_prefix_witness :
  storedKeyHasPrefix
    (snd (runKeyOps [OpenEditor; TypeKey "not-a-key"; SaveKey; TypeKey " AIzaSyNEW"; SaveKey;
                     OpenEditor; TypeKey EmptyString; SaveKey; CancelEdit]
            (mounted [(user_gemini_api_key, "AIzaSyOLD")])))
  = true.
Proof.
  apply (stored_key_always_has_prefix
           [OpenEditor; TypeKey "not-a-key"; SaveKey; TypeKey " AIzaSyNEW"; SaveKey;
            OpenEditor; TypeKey EmptyString; SaveKey; CancelEdit]
           (mounted [(user_gemini_api_key, "AIzaSyOLD")])).
  reflexivity.
Defined.

Lemma mounted_closed_editor_shows_persisted (ls : Storage) :
  closed_editor_shows_persisted (mounted ls).
Proof.
  unfold closed_editor_shows_persisted, mounted, loadApiKey, persistedKey. cbn [fst snd].
  intros _. destruct (getItem user_gemini_api_key ls) as [k|]; [|reflexivity].
  unfold Js.or_else. destruct (Js.truthy k) eqn:Hk; [reflexivity|].
  reflexivity.
Qed.

Lemma applyKeyOp_closed_editor_shows_persisted (p : App * Storage) (op : KeyOp) :
  closed_editor_shows_persisted p ->
  keyOpRendered (fst p) op = true ->
  closed_editor_shows_persisted (applyKeyOp p op).
Proof.
  unfold closed_editor_shows_persisted. destruct p as [st ls]. cbn [fst snd].
  intros Hinv Hop.
  destruct op as [|value| |]; cbn [applyKeyOp keyOpRendered fst snd] in *.
  - cbn. discriminate.
  - unfold handleKeyInputChange. intros Hclosed. exfalso.
    destruct (keyError st) as [m|]; [destruct (Js.truthy m)|];
      cbn in Hclosed; congruence.
  - unfold handleSaveApiKey.
    destruct (Js.truthy (Js.trim (apiKey st))) eqn:Ht; cbn [negb fst snd].
    + destruct (Js.startsWith "AIza" (Js.trim (apiKey st))); cbn [negb fst snd].
      * intros _. unfold persistedKey. rewrite getItem_setItem.
        unfold Js.or_else. rewrite Ht. reflexivity.
      * cbn. congruence.
    + cbn. congruence.
  - unfold handleCancelKeyInput, persistedKey.
    destruct (getItem user_gemini_api_key ls) as [k|] eqn:Hk;
      cbn [fst snd]; rewrite Hk; intros _; reflexivity.
Qed.

(** From the mount on, along every sequence of opening the editor,
    typing, saving and cancelling that the rendered controls allow: while
    the editor is closed, the key that the application holds in memory,
    and hands to the studios, is the key that [localStorage] holds (none:
    the empty string). *)
Theorem closed_editor_key_is_the_persisted_key (ls : Storage) (ops : list KeyOp) :
  allKeyOpsRendered (mounted ls) ops = true ->
  showKeyInput (fst (runKeyOps ops (mounted ls))) = false ->
  apiKey (fst (runKeyOps ops (mounted ls)))
  = persistedKey (snd (runKeyOps ops (mounted ls))).
Proof.
  pose proof (mounted_closed_editor_shows_persisted ls) as Hinv.
  revert Hinv. generalize (mounted ls). clear ls.
  induction ops as [|op ops IH]; intros p Hinv Hops; [exact Hinv|].
  cbn in Hops. apply andb_true_iff in Hops. destruct Hops as [Hop Hops].
  cbn. apply IH; [now apply applyKeyOp_closed_editor_shows_persisted | exact Hops].
Qed.

Lemma closed_editor_key_is_the_persisted_key_witness :
  apiKey (fst (runKeyOps [OpenEditor; TypeKey "not-a-key"; SaveKey; CancelEdit]
                 (mounted [(user_gemini_api_key, "AIzaSyOLD")])))
  = "AIzaSyOLD".
Proof.
  apply (closed_editor_key_is_the_persisted_key
           [(user_gemini_api_key, "AIzaSyOLD")]
           [OpenEditor; TypeKey "not-a-key"; SaveKey; CancelEdit]).
  - reflexivity.
  - reflexivity.
Defined.

(** ** Data URLs *)

Lemma string_app_assoc (a b c : string) :
  ((a ++ b) ++ c)%string = (a ++ (b ++ c))%string.
Proof. induction a as [|x a IH]; [reflexivity|]. cbn. now rewrite IH. Qed.

Lemma split_lacks (sep : ascii) (s : string) :
  lacks sep s = true -> Js.split sep s = [s].
Proof.
  induction s as [|c s IH]; intros H; [reflexivity|].
  cbn in H. apply andb_true_iff in H. destruct H as [Hc Hs].
  cbn. apply negb_true_iff in Hc. rewrite Hc, (IH Hs). reflexivity.
Qed.

Lemma split_app (sep : ascii) (a b : string) :
  lacks sep a = true ->
  Js.split sep (a ++ String sep b)%string = a :: Js.split sep b.
Proof.
  induction a as [|c a IH]; intros H.
  - cbn. now rewrite Ascii.eqb_refl.
  - cbn in H. apply andb_true_iff in H. destruct H as [Hc Ha].
    cbn. apply negb_true_iff in Hc. rewrite Hc, (IH Ha). reflexivity.
Qed.

Lemma lacks_app (c : ascii) (a b : string) :
  lacks c (a ++ b)%string = lacks c a && lacks c b.
Proof.
  induction a as [|x a IH]; [reflexivity|].
  cbn. rewrite IH. now rewrite andb_assoc.
Qed.

Lemma split_all_lack (c sep : ascii) (s : string) :
  lacks c s = true -> Forall (fun x => lacks c x = true) (Js.split sep s).
Proof.
  induction s as [|x s IH]; intros H.
  - repeat constructor.
  - cbn in H. apply andb_true_iff in H. destruct H as [Hx Hs].
    cbn. specialize (IH Hs). destruct (Ascii.eqb x sep).
    + constructor; [reflexivity | exact IH].
    + destruct (Js.split sep s) as [|h t].
      * repeat constructor. cbn. now rewrite Hx.
      * inversion IH; subst. constructor; [|assumption].
        cbn. rewrite Hx. assumption.
Qed.

Lemma split_nonempty (sep : ascii) (s : string) : Js.split sep s <> [].
Proof.
  destruct s as [|c s]; cbn; [discriminate|].
  destruct (Ascii.eqb c sep); [discriminate|].
  destruct (Js.split sep s); discriminate.
Qed.

Lemma or_else_truthy (a b : string) : a <> EmptyString -> Js.or_else a b = a.
Proof. destruct a; [contradiction | reflexivity]. Qed.

(** The two helpers take apart what the image job puts together: of the
    data URL built from a mime type and base64 data they give back the
    data and the mime type, where neither is empty, the mime type holds
    none of [: ; ,] and the data holds no comma. *)
Theorem data_url_round_trip (mime data : string) :
  mime <> EmptyString ->
  data <> EmptyString ->
  lacks ":" mime = true ->
  lacks ";" mime = true ->
  lacks "," mime = true ->
  lacks "," data = true ->
  stripBase64Prefix (dataUrlOf mime data) = data
  /\ getMimeType (dataUrlOf mime data) = mime.
Proof.
  intros Hmime Hdata Hcolon Hsemi Hcomma Hdcomma. split.
  - unfold stripBase64Prefix, dataUrlOf.
    replace ("data:" ++ mime ++ ";base64," ++ data)%string
      with (("data:" ++ mime ++ ";base64") ++ String "," data)%string
      by (cbn; rewrite ?string_app_assoc; reflexivity).
    rewrite split_app.
    + rewrite (split_lacks _ _ Hdcomma). unfold Js.nth_or. cbn.
      now apply or_else_truthy.
    + rewrite !lacks_app, Hcomma. reflexivity.
  - unfold getMimeType, dataUrlOf.
    replace ("data:" ++ mime ++ ";base64," ++ data)%string
      with (("data:" ++ mime) ++ String ";" ("base64," ++ data))%string
      by (cbn; rewrite ?string_app_assoc; reflexivity).
    rewrite split_app by (rewrite lacks_app, Hsemi; reflexivity).
    cbn [nth].
    change ("data:" ++ mime)%string with ("data" ++ String ":" mime)%string.
    rewrite split_app by reflexivity.
    rewrite (split_lacks _ _ Hcolon). unfold Js.nth_or. cbn.
    now apply or_else_truthy.
Qed.

Lemma data_url_round_trip_witness :
  stripBase64Prefix (dataUrlOf "image/png" "iVBORw0KGgo=") = "iVBORw0KGgo="
  /\ getMimeType (dataUrlOf "image/png" "iVBORw0KGgo=") = "image/png".
Proof.
  apply (data_url_round_trip "image/png" "iVBORw0KGgo=");
    try discriminate; reflexivity.
Defined.

(** A text without a comma is taken whole as the data, and a text without
    a colon is taken to be a PNG: the helpers never fail. *)
Theorem text_that_is_no_data_url (s : string) :
  (lacks "," s = true -> stripBase64Prefix s = s)
  /\ (lacks ":" s = true -> getMimeType s = "image/png").
Proof.
  split; intros H.
  - unfold stripBase64Prefix. now rewrite (split_lacks _ _ H).
  - unfold getMimeType.
    pose proof (split_all_lack ":" ";" s H) as Hall.
    pose proof (split_nonempty ";" s) as Hne.
    destruct (Js.split ";" s) as [|h t]; [contradiction|].
    inversion Hall; subst. cbn [nth].
    now rewrite (split_lacks ":" h).
Qed.

Lemma text_that_is_no_data_url_witness :
  stripBase64Prefix "iVBORw0KGgo=" = "iVBORw0KGgo="
  /\ getMimeType "iVBORw0KGgo=" = "image/png".
Proof.
  destruct (text_that_is_no_data_url "iVBORw0KGgo=") as [Hstrip Hmime].
  split; [apply Hstrip | apply Hmime]; reflexivity.
Defined.

(** The [for] loop takes the first part that carries data and skips the
    parts before it; its URL is built from that part, with [image/png]
    for a missing mime type; a response none of whose parts carries data
    gives nothing. *)
Theorem first_part_with_data_wins
  (skipped rest : list ResponsePart) (part : ResponsePart) (d : InlineData)
  (bytes : string) :
  forallb (fun p => negb (carriesImage p)) skipped = true ->
  inlineData part = Some d ->
  inline_data d = Some bytes ->
  bytes <> EmptyString ->
  firstInlineImage (skipped ++ part :: rest)
  = Some (dataUrlOf (match inline_mimeType d with
                     | Some m => Js.or_else m "image/png"
                     | None => "image/png"
                     end) bytes)
  /\ firstInlineImage skipped = None.
Proof.
  intros Hskip Hpart Hd Hbytes.
  induction skipped as [|p skipped IH].
  - split; [|reflexivity]. cbn. rewrite Hpart, Hd.
    destruct bytes; [contradiction|]. reflexivity.
  - cbn in Hskip. apply andb_true_iff in Hskip. destruct Hskip as [Hp Hskip].
    specialize (IH Hskip). destruct IH as [IH1 IH2].
    apply negb_true_iff in Hp. unfold carriesImage in Hp.
    rewrite <- app_comm_cons. cbn [firstInlineImage].
    destruct (inlineData p) as [dp|]; [|split; assumption].
    destruct (inline_data dp) as [bp|]; [|split; assumption].
    rewrite Hp. split; assumption.
Qed.

Lemma first_part_with_data_wins_witness :
  firstInlineImage
    ([ {| inlineData := None |};
       {| inlineData := Some {| inline_data := Some EmptyString; inline_mimeType := None |} |} ]
     ++ {| inlineData := Some {| inline_data := Some "QUFB"; inline_mimeType := None |} |}
     :: [ {| inlineData := Some {| inline_data := Some "QkJC";
                                   inline_mimeType := Some "image/jpeg" |} |} ])
  = Some "data:image/png;base64,QUFB".
Proof.
  apply (first_part_with_data_wins
           [ {| inlineData := None |};
             {| inlineData := Some {| inline_data := Some EmptyString;
                                      inline_mimeType := None |} |} ]
           [ {| inlineData := Some {| inline_data := Some "QkJC";
                                      inline_mimeType := Some "image/jpeg" |} |} ]
           {| inlineData := Some {| inline_data := Some "QUFB"; inline_mimeType := None |} |}
           {| inline_data := Some "QUFB"; inline_mimeType := None |} "QUFB").
  - reflexivity.
  - reflexivity.
  - reflexivity.
  - discriminate.
Defined.

(** ** The credential in the service *)

(** A key typed by the user wins over the key of the build whenever it is
    more than white space, and is used trimmed; a key of white space only
    counts as no key. *)
Theorem typed_key_wins_over_build_key (env_API_KEY : option string) (k : string) :
  (Js.trim k <> EmptyString ->
     getClient env_API_KEY (Some k) = inr {| client_apiKey := Js.trim k |})
  /\ (Js.trim k = EmptyString ->
     getClient env_API_KEY (Some k) = getClient env_API_KEY None).
Proof.
  unfold getClient, resolveKey. split; intros H.
  - destruct (Js.trim k) as [|c s] eqn:E; [contradiction|]. reflexivity.
  - rewrite H. reflexivity.
Qed.

Lemma typed_key_wins_over_build_key_witness :
  getClient (Some "AIzaBUILD") (Some "  AIzaTYPED ") = inr {| client_apiKey := "AIzaTYPED" |}
  /\ getClient (Some "AIzaBUILD") (Some "   ") = inr {| client_apiKey := "AIzaBUILD" |}.
Proof.
  destruct (typed_key_wins_over_build_key (Some "AIzaBUILD") "  AIzaTYPED ") as [Hwins _].
  destruct (typed_key_wins_over_build_key (Some "AIzaBUILD") "   ") as [_ Hblank].
  split.
  - apply Hwins. discriminate.
  - rewrite Hblank; reflexivity.
Defined.

Lemma getClient_missing (env_API_KEY apiKey : option string) :
  (forall k, apiKey = Some k -> Js.trim k = EmptyString) ->
  (forall k, env_API_KEY = Some k -> k = EmptyString) ->
  getClient env_API_KEY apiKey = inl apiKeyMissing.
Proof.
  intros Hkey Henv. unfold getClient, resolveKey.
  assert (Hdefault : match env_API_KEY with
                     | Some apiKey0 =>
                         if Js.truthy apiKey0 then inr {| client_apiKey := apiKey0 |}
                         else inl apiKeyMissing
                     | None => inl apiKeyMissing
                     end = inl apiKeyMissing).
  { destruct env_API_KEY as [k|]; [|reflexivity]. now rewrite (Henv k eq_refl). }
  destruct apiKey as [k|]; [|exact Hdefault].
  rewrite (Hkey k eq_refl). exact Hdefault.
Qed.

Lemma runIn_generateImageFromPrompt_no_key
  (env_API_KEY apiKey : option string) (w : World)
  (prompt : string) (aspectRatio : option string) (count : option nat) :
  getClient env_API_KEY apiKey = inl apiKeyMissing ->
  runIn w (generateImageFromPrompt env_API_KEY prompt aspectRatio count apiKey)
  ≈ Ret (logCall (CallConsoleError "Generation Error:" apiKeyMissing) w,
         inl apiKeyMissing).
Proof.
  intros Hmissing. unfold generateImageFromPrompt.
  apply (runIn_tryCatch_throw w w _ _ generateImage_rethrows apiKeyMissing).
  unfold generateImage_try, await, lift. rewrite Hmissing, bind_ret_l. apply runIn_ret.
Qed.

(** Without a usable key (none typed or white space only, none in the
    build or an empty one) each of the three service functions rejects
    with the missing-key error and has sent nothing: the one call it made
    is the [console.error] of its [catch]. *)
Theorem no_key_no_request
  (env_API_KEY apiKey : option string) (JSON_parse : string -> JsError + Js.Json)
  (w : World) :
  (forall k, apiKey = Some k -> Js.trim k = EmptyString) ->
  (forall k, env_API_KEY = Some k -> k = EmptyString) ->
  (forall base64Image,
      runIn w (analyzeFrame env_API_KEY JSON_parse base64Image apiKey)
      ≈ Ret (logCall (CallConsoleError "Analysis Error:" apiKeyMissing) w,
             inl apiKeyMissing))
  /\ (forall prompt aspectRatio count,
      runIn w (generateImageFromPrompt env_API_KEY prompt aspectRatio count apiKey)
      ≈ Ret (logCall (CallConsoleError "Generation Error:" apiKeyMissing) w,
             inl apiKeyMissing))
  /\ (forall imageBase64 prompt aspectRatio endImageBase64,
      runIn w (generateVideoFromImage env_API_KEY imageBase64 prompt aspectRatio
                 apiKey endImageBase64)
      ≈ Ret (logCall (CallConsoleError "Veo Generation Error:" apiKeyMissing) w,
             inl apiKeyMissing)).
Proof.
  intros Hkey Henv. pose proof (getClient_missing _ _ Hkey Henv) as Hmissing.
  repeat split; intros.
  - unfold analyzeFrame.
    apply (runIn_tryCatch_throw w w _ _ analyzeFrame_rethrows apiKeyMissing).
    unfold analyzeFrame_try, await, lift. rewrite Hmissing, bind_ret_l. apply runIn_ret.
  - now apply runIn_generateImageFromPrompt_no_key.
  - unfold generateVideoFromImage.
    apply (runIn_tryCatch_throw w w _ _ generateVideo_rethrows apiKeyMissing).
    unfold generateVideo_try, await, lift. rewrite Hmissing, bind_ret_l. apply runIn_ret.
Qed.

Lemma no_key_no_request_witness :
  runIn (worldOf (videoScript (inr doneOp) [] (inr videoFile)))
        (generateVideoFromImage None sampleDataUrl "pan left" None (Some "  ") None)
  ≈ Ret (logCall (CallConsoleError "Veo Generation Error:" apiKeyMissing)
           (worldOf (videoScript (inr doneOp) [] (inr videoFile))),
         inl apiKeyMissing).
Proof.
  destruct (no_key_no_request None (Some "  ") literalJSON
              (worldOf (videoScript (inr doneOp) [] (inr videoFile)))) as [_ [_ Hvideo]].
  - intros k Hk. inversion Hk. reflexivity.
  - discriminate.
  - apply Hvideo.
Defined.

Lemma includes_app_r (p a b : string) :
  Js.includes p a = true -> Js.includes p (a ++ b)%string = true.
Proof.
  assert (Hprefix : forall p a b, String.prefix p a = true ->
                                  String.prefix p (a ++ b)%string = true).
  { clear. induction p as [|x p IH]; intros a b H; [destruct (a ++ b)%string; reflexivity|].
    destruct a as [|y a]; [discriminate|]. cbn in *.
    destruct (ascii_dec x y); [now apply IH | discriminate]. }
  induction a as [|x a IH]; intros H.
  - cbn in H. rewrite orb_false_r in H.
    destruct p; [|discriminate]. destruct b; reflexivity.
  - cbn [Js.includes] in H. apply orb_true_iff in H.
    cbn [String.append Js.includes]. apply orb_true_iff.
    destruct H as [H|H]; [left; now apply (Hprefix p (String x a) b) | right; now apply IH].
Qed.

(** The key put on the download URL is the key the client was made with;
    it follows ["&key="] when the locator has a query string already and
    ["?key="] when it has none, so the URL that is fetched always has
    one. *)
Theorem download_url_carries_the_client_key
  (env_API_KEY apiKey : option string) (ai : GoogleGenAI) (downloadLink : string) :
  getClient env_API_KEY apiKey = inr ai ->
  finalUrlOf env_API_KEY downloadLink apiKey
  = (downloadLink ++ (if Js.includes "?" downloadLink then "&" else "?")
     ++ "key=" ++ client_apiKey ai)%string
  /\ Js.includes "?" (finalUrlOf env_API_KEY downloadLink apiKey) = true.
Proof.
  intros Hai. unfold getClient in Hai. unfold finalUrlOf.
  destruct (resolveKey env_API_KEY apiKey) as [k|]; [|discriminate].
  destruct (Js.truthy k); [|discriminate]. inversion Hai; subst. cbn [client_apiKey].
  split; [reflexivity|].
  destruct (Js.includes "?" downloadLink) eqn:Hq.
  - now apply includes_app_r.
  - apply includes_app_l. reflexivity.
Qed.

Lemma download_url_carries_the_client_key_witness :
  finalUrlOf None "https://files.example/v1/video.mp4" (Some " AIzaTYPED ")
  = "https://files.example/v1/video.mp4?key=AIzaTYPED"
  /\ finalUrlOf None "https://files.example/v1/video.mp4?alt=media" (Some " AIzaTYPED ")
     = "https://files.example/v1/video.mp4?alt=media&key=AIzaTYPED".
Proof.
  split.
  - apply (download_url_carries_the_client_key None (Some " AIzaTYPED ")
             {| client_apiKey := "AIzaTYPED" |} "https://files.example/v1/video.mp4").
    reflexivity.
  - apply (download_url_carries_the_client_key None (Some " AIzaTYPED ")
             {| client_apiKey := "AIzaTYPED" |}
             "https://files.example/v1/video.mp4?alt=media").
    reflexivity.
Defined.

(** ** The stages of a video job *)

Lemma generateVideo_try_stages
  (env_API_KEY : option string) (imageBase64 prompt aspectRatio : string)
  (apiKey endImageBase64 : option string) :
  generateVideo_try env_API_KEY imageBase64 prompt aspectRatio apiKey endImageBase64
  = await (lift (getClient env_API_KEY apiKey)) (fun aiClient =>
    await (ITree.trigger
             (GenerateVideos aiClient
                (videoRequest imageBase64 prompt aspectRatio endImageBase64)))
          (fun operation =>
    await (pollUntilDone aiClient operation) (downloadVideo env_API_KEY apiKey))).
Proof. reflexivity. Qed.

(** The job up to the end of the polling loop, then the download. *)
Lemma runIn_generateVideo_try_polled
  (env_API_KEY : option string) (w w2 : World)
  (imageBase64 prompt aspectRatio : string) (apiKey endImageBase64 : option string)
  (aiClient : GoogleGenAI) (operation : Operation) (polled : JsError + Operation) :
  getClient env_API_KEY apiKey = inr aiClient ->
  submitReply (script w) = inr operation ->
  runIn (logCall (CallGenerateVideos aiClient
                    (videoRequest imageBase64 prompt aspectRatio endImageBase64)) w)
        (pollUntilDone aiClient operation)
  ≈ Ret (w2, polled) ->
  runIn w (generateVideo_try env_API_KEY imageBase64 prompt aspectRatio apiKey endImageBase64)
  ≈ runIn w2 (match polled with
              | inl e => throw e
              | inr final => downloadVideo env_API_KEY apiKey final
              end).
Proof.
  intros Hai Hsubmit Hpoll. rewrite generateVideo_try_stages.
  unfold await at 1 2, lift. rewrite Hai, bind_ret_l.
  rewrite runIn_trigger_bind. cbn [respond fst snd]. rewrite Hsubmit.
  unfold await. rewrite (runIn_bind _ _ _ _ _ Hpoll). reflexivity.
Qed.

Lemma runIn_pollUntilDone_fails (ai : GoogleGenAI) (pending : list Operation) :
  forall (w : World) (operation : Operation) (e : JsError)
         (rest : list (JsError + Operation)),
    isDone operation = false ->
    Forall (fun o => isDone o = false) pending ->
    pollReplies (script w) = List.map inr pending ++ inl e :: rest ->
    runIn w (pollUntilDone ai operation)
    ≈ Ret (afterPolls (flat_map (pollRound ai) (operation :: pending)) rest
             (5000 * Z.of_nat (S (length pending))) w,
           inl e).
Proof.
  induction pending as [|next pending IH]; intros w operation e rest Hnot Hall Hreplies.
  - simpl in Hreplies.
    rewrite (runIn_pollUntilDone_throw ai w operation e rest Hnot Hreplies).
    cbn [flat_map length]. rewrite app_nil_r. reflexivity.
  - simpl in Hreplies. inversion Hall as [|? ? Hnext Hall']; subst.
    rewrite (runIn_pollUntilDone_round ai w operation next _ Hnot Hreplies).
    rewrite (IH (afterPolls (pollRound ai operation)
                   (List.map inr pending ++ inl e :: rest) 5000 w)
               next e rest Hnext Hall' eq_refl).
    rewrite afterPolls_afterPolls.
    replace (5000 + 5000 * Z.of_nat (S (length pending)))%Z
      with (5000 * Z.of_nat (S (length (next :: pending))))%Z by (cbn [length]; lia).
    reflexivity.
Qed.

(** A status request that throws, after any number of answers that are
    not done, ends the job there: the error goes through the [catch], no
    further status request is made and nothing is fetched. *)
Theorem failed_status_request_ends_the_video_job
  (env_API_KEY : option string) (w : World)
  (imageBase64 prompt : string) (aspectRatio apiKey endImageBase64 : option string)
  (aiClient : GoogleGenAI) (operation : Operation) (pending : list Operation)
  (e : JsError) (rest : list (JsError + Operation)) :
  getClient env_API_KEY apiKey = inr aiClient ->
  submitReply (script w) = inr operation ->
  isDone operation = false ->
  Forall (fun o => isDone o = false) pending ->
  pollReplies (script w) = List.map inr pending ++ inl e :: rest ->
  exists w',
    runIn w (generateVideoFromImage env_API_KEY imageBase64 prompt aspectRatio
               apiKey endImageBase64)
    ≈ Ret (w', inl (if indicates403 e then billingRequiredError else e))
    /\ calls w'
       = calls w
         ++ [CallGenerateVideos aiClient
               (videoRequest imageBase64 prompt
                  (match aspectRatio with Some a => a | None => "16:9" end)
                  endImageBase64)]
         ++ flat_map (pollRound aiClient) (operation :: pending)
         ++ [CallConsoleError "Veo Generation Error:" e]
    /\ pollCount (calls w') = pollCount (calls w) + S (length pending)
    /\ pollReplies (script w') = rest
    /\ filter isFetch (calls w') = filter isFetch (calls w).
Proof.
  intros Hai Hsubmit Hnot Hall Hreplies.
  eexists. split; [|split; [|split; [|split]]].
  - unfold generateVideoFromImage.
    eapply (runIn_tryCatch_throw w _ _ _ generateVideo_rethrows e).
    pose proof (runIn_pollUntilDone_fails aiClient pending
                  (logCall (CallGenerateVideos aiClient
                              (videoRequest imageBase64 prompt
                                 (match aspectRatio with Some a => a | None => "16:9" end)
                                 endImageBase64)) w)
                  operation e rest Hnot Hall Hreplies) as Hpoll.
    rewrite (runIn_generateVideo_try_polled env_API_KEY w _ _ _ _ _ _ aiClient operation
               (inl e) Hai Hsubmit Hpoll).
    apply runIn_ret.
  - cbn [calls logCall afterPolls]. rewrite <- !app_assoc. reflexivity.
  - cbn [calls logCall afterPolls]. rewrite !pollCount_app, pollCount_rounds. cbn. lia.
  - reflexivity.
  - cbn [calls logCall afterPolls]. rewrite !filter_app. cbn [filter isFetch].
    rewrite !app_nil_r.
    assert (Hrounds : forall l, filter isFetch (flat_map (pollRound aiClient) l) = []).
    { induction l as [|o l IHl]; [reflexivity|]. cbn. exact IHl. }
    rewrite Hrounds, app_nil_r. reflexivity.
Qed.

Lemma failed_status_request_ends_the_video_job_witness :
  exists w',
    runIn (worldOf (videoScript (inr pendingOp) [inr pendingOp; inl overloaded; inr doneOp]
                      (inr videoFile)))
          (generateVideoFromImage None sampleDataUrl "pan left" (Some "16:9")
             (Some sampleKey) None)
    ≈ Ret (w', inl overloaded)
    /\ pollCount (calls w') = 2
    /\ pollReplies (script w') = [inr doneOp]
    /\ filter isFetch (calls w') = [].
Proof.
  destruct (failed_status_request_ends_the_video_job None
              (worldOf (videoScript (inr pendingOp)
                          [inr pendingOp; inl overloaded; inr doneOp] (inr videoFile)))
              sampleDataUrl "pan left" (Some "16:9") (Some sampleKey) None
              {| client_apiKey := sampleKey |} pendingOp [pendingOp] overloaded [inr doneOp])
    as [w' [Hrun [_ [Hcount [Hrest Hfetch]]]]].
  - reflexivity.
  - reflexivity.
  - reflexivity.
  - repeat constructor.
  - reflexivity.
  - exists w'. split; [exact Hrun|]. split; [exact Hcount|]. split; [exact Hrest | exact Hfetch].
Defined.

(** A handle that is done when the submission returns is not asked for its
    status and not waited for: the job goes straight to the download. *)
Theorem finished_handle_is_not_polled
  (env_API_KEY : option string) (w : World)
  (imageBase64 prompt : string) (aspectRatio apiKey endImageBase64 : option string)
  (aiClient : GoogleGenAI) (operation : Operation) (downloadLink : string)
  (videoResponse : FetchResponse) (videoBlob : Blob) :
  getClient env_API_KEY apiKey = inr aiClient ->
  submitReply (script w) = inr operation ->
  isDone operation = true ->
  downloadLinkOf operation = Some downloadLink ->
  downloadLink <> EmptyString ->
  fetchReply (script w) = inr videoResponse ->
  ok videoResponse = true ->
  blobReply (script w) = inr videoBlob ->
  exists w',
    runIn w (generateVideoFromImage env_API_KEY imageBase64 prompt aspectRatio
               apiKey endImageBase64)
    ≈ Ret (w', inr (objectUrl (script w)))
    /\ calls w'
       = calls w
         ++ [CallGenerateVideos aiClient
               (videoRequest imageBase64 prompt
                  (match aspectRatio with Some a => a | None => "16:9" end)
                  endImageBase64);
             CallFetch (finalUrlOf env_API_KEY downloadLink apiKey);
             CallReadBlob videoResponse;
             CallCreateObjectURL videoBlob]
    /\ now w' = now w
    /\ pollReplies (script w') = pollReplies (script w).
Proof.
  intros Hai Hsubmit Hdone Hlink Hne Hfetch Hok Hblob.
  eexists. split; [|split; [|split]].
  - unfold generateVideoFromImage. apply runIn_tryCatch_resolve.
    pose proof (runIn_pollUntilDone_done aiClient
                  (logCall (CallGenerateVideos aiClient
                              (videoRequest imageBase64 prompt
                                 (match aspectRatio with Some a => a | None => "16:9" end)
                                 endImageBase64)) w)
                  operation Hdone) as Hpoll.
    rewrite (runIn_generateVideo_try_polled env_API_KEY w _ _ _ _ _ _ aiClient operation
               (inr operation) Hai Hsubmit Hpoll).
    unfold downloadVideo, await. rewrite Hlink.
    destruct downloadLink as [|c s]; [contradiction|]. cbn [Js.truthy].
    rewrite runIn_trigger_bind. cbn [respond fst snd]. cbn [script logCall fetchReply].
    rewrite Hfetch, Hok.
    rewrite runIn_trigger_bind. cbn [respond fst snd]. cbn [script logCall blobReply].
    rewrite Hblob.
    rewrite runIn_trigger_bind. cbn [respond fst snd]. cbn [script logCall objectUrl].
    apply runIn_ret.
  - cbn [calls logCall]. rewrite <- !app_assoc. reflexivity.
  - reflexivity.
  - reflexivity.
Qed.

Lemma finished_handle_is_not_polled_witness :
  exists w',
    runIn (worldOf (videoScript (inr doneOp) [inr pendingOp] (inr videoFile)))
          (generateVideoFromImage None sampleDataUrl "pan left" None (Some sampleKey) None)
    ≈ Ret (w', inr "blob:https://clipforge.example/3f0c")
    /\ now w' = 1700000000000%Z
    /\ pollReplies (script w') = [inr pendingOp].
Proof.
  destruct (finished_handle_is_not_polled None
              (worldOf (videoScript (inr doneOp) [inr pendingOp] (inr videoFile)))
              sampleDataUrl "pan left" None (Some sampleKey) None
              {| client_apiKey := sampleKey |} doneOp
              "https://files.example/v1/video.mp4?alt=media" videoFile "mp4-bytes")
    as [w' [Hrun [_ [Hnow Hrest]]]].
  - reflexivity.
  - reflexivity.
  - reflexivity.
  - reflexivity.
  - discriminate.
  - reflexivity.
  - reflexivity.
  - reflexivity.
  - exists w'. split; [exact Hrun|]. split; [exact Hnow | exact Hrest].
Defined.

(** A finished operation that names no video, or an empty locator, makes
    the job reject with its own error; nothing is fetched.  The polling
    before may have taken any number of rounds. *)
Theorem finished_operation_without_locator_rejects
  (env_API_KEY : option string) (w w2 : World)
  (imageBase64 prompt : string) (aspectRatio apiKey endImageBase64 : option string)
  (aiClient : GoogleGenAI) (operation final : Operation) :
  getClient env_API_KEY apiKey = inr aiClient ->
  submitReply (script w) = inr operation ->
  runIn (logCall (CallGenerateVideos aiClient
                    (videoRequest imageBase64 prompt
                       (match aspectRatio with Some a => a | None => "16:9" end)
                       endImageBase64)) w)
        (pollUntilDone aiClient operation)
  ≈ Ret (w2, inr final) ->
  downloadLinkOf final = None \/ downloadLinkOf final = Some EmptyString ->
  runIn w (generateVideoFromImage env_API_KEY imageBase64 prompt aspectRatio
             apiKey endImageBase64)
  ≈ Ret (logCall (CallConsoleError "Veo Generation Error:" noUriReturned) w2,
         inl noUriReturned).
Proof.
  intros Hai Hsubmit Hpoll Hlink.
  unfold generateVideoFromImage.
  apply (runIn_tryCatch_throw w w2 _ _ generateVideo_rethrows noUriReturned).
  rewrite (runIn_generateVideo_try_polled env_API_KEY w _ _ _ _ _ _ aiClient operation
             (inr final) Hai Hsubmit Hpoll).
  unfold downloadVideo. destruct Hlink as [Hlink|Hlink]; rewrite Hlink; apply runIn_ret.
Qed.

Lemma finished_operation_without_locator_rejects_witness :
  runIn (worldOf (videoScript
                    (inr {| op_name := "operations/x7"; done := Some true; response := None |})
                    [] (inr videoFile)))
        (generateVideoFromImage None sampleDataUrl "pan left" (Some "16:9")
           (Some sampleKey) None)
  ≈ Ret (logCall (CallConsoleError "Veo Generation Error:" noUriReturned)
           (logCall (CallGenerateVideos {| client_apiKey := sampleKey |}
                       (videoRequest sampleDataUrl "pan left" "16:9" None))
              (worldOf (videoScript
                          (inr {| op_name := "operations/x7"; done := Some true;
                                  response := None |})
                          [] (inr videoFile)))),
         inl noUriReturned).
Proof.
  apply (finished_operation_without_locator_rejects None
           (worldOf (videoScript
                       (inr {| op_name := "operations/x7"; done := Some true;
                               response := None |})
                       [] (inr videoFile)))
           _ sampleDataUrl "pan left" (Some "16:9") (Some sampleKey) None
           {| client_apiKey := sampleKey |}
           {| op_name := "operations/x7"; done := Some true; response := None |}
           {| op_name := "operations/x7"; done := Some true; response := None |}).
  - reflexivity.
  - reflexivity.
  - apply runIn_pollUntilDone_done. reflexivity.
  - left. reflexivity.
Defined.

(** A download that the server refuses makes the job reject without
    reading a body; the message names the status text and the status, and
    because of that a refusal with status 403 comes out as the billing
    error, whatever the status text says. *)
Theorem refused_download_rejects
  (env_API_KEY : option string) (w w2 : World)
  (imageBase64 prompt : string) (aspectRatio apiKey endImageBase64 : option string)
  (aiClient : GoogleGenAI) (operation final : Operation) (downloadLink : string)
  (videoResponse : FetchResponse) :
  getClient env_API_KEY apiKey = inr aiClient ->
  submitReply (script w) = inr operation ->
  runIn (logCall (CallGenerateVideos aiClient
                    (videoRequest imageBase64 prompt
                       (match aspectRatio with Some a => a | None => "16:9" end)
                       endImageBase64)) w)
        (pollUntilDone aiClient operation)
  ≈ Ret (w2, inr final) ->
  downloadLinkOf final = Some downloadLink ->
  downloadLink <> EmptyString ->
  fetchReply (script w2) = inr videoResponse ->
  ok videoResponse = false ->
  runIn w (generateVideoFromImage env_API_KEY imageBase64 prompt aspectRatio
             apiKey endImageBase64)
  ≈ Ret (logCall (CallConsoleError "Veo Generation Error:" (downloadFailed videoResponse))
           (logCall (CallFetch (finalUrlOf env_API_KEY downloadLink apiKey)) w2),
         inl (if indicates403 (downloadFailed videoResponse)
              then billingRequiredError
              else downloadFailed videoResponse))
  /\ (resp_status videoResponse = 403%Z ->
      indicates403 (downloadFailed videoResponse) = true).
Proof.
  intros Hai Hsubmit Hpoll Hlink Hne Hfetch Hok. split.
  - unfold generateVideoFromImage.
    apply (runIn_tryCatch_throw w _ _ _ generateVideo_rethrows (downloadFailed videoResponse)).
    rewrite (runIn_generateVideo_try_polled env_API_KEY w _ _ _ _ _ _ aiClient operation
               (inr final) Hai Hsubmit Hpoll).
    unfold downloadVideo, await. rewrite Hlink.
    destruct downloadLink as [|c s]; [contradiction|]. cbn [Js.truthy].
    rewrite runIn_trigger_bind. cbn [respond fst snd]. rewrite Hfetch, Hok.
    apply runIn_ret.
  - intros Hstatus. unfold downloadFailed. rewrite Hstatus.
    apply download_refused_with_403_indicates_403.
Qed.

Lemma refused_download_rejects_witness :
  runIn (worldOf (videoScript (inr doneOp) [] (inr videoForbidden)))
        (generateVideoFromImage None sampleDataUrl "pan left" (Some "16:9")
           (Some sampleKey) None)
  ≈ Ret (logCall (CallConsoleError "Veo Generation Error:" (downloadFailed videoForbidden))
           (logCall (CallFetch (finalUrlOf None "https://files.example/v1/video.mp4?alt=media"
                                  (Some sampleKey)))
              (logCall (CallGenerateVideos {| client_apiKey := sampleKey |}
                          (videoRequest sampleDataUrl "pan left" "16:9" None))
                 (worldOf (videoScript (inr doneOp) [] (inr videoForbidden))))),
         inl billingRequiredError).
Proof.
  destruct (refused_download_rejects None
              (worldOf (videoScript (inr doneOp) [] (inr videoForbidden)))
              (logCall (CallGenerateVideos {| client_apiKey := sampleKey |}
                          (videoRequest sampleDataUrl "pan left" "16:9" None))
                 (worldOf (videoScript (inr doneOp) [] (inr videoForbidden))))
              sampleDataUrl "pan left" (Some "16:9") (Some sampleKey) None
              {| client_apiKey := sampleKey |} doneOp doneOp
              "https://files.example/v1/video.mp4?alt=media" videoForbidden)
    as [Hrun _].
  - reflexivity.
  - reflexivity.
  - apply runIn_pollUntilDone_done. reflexivity.
  - reflexivity.
  - discriminate.
  - reflexivity.
  - reflexivity.
  - exact Hrun.
Defined.

(** ** The analysis job *)

Lemma analyzeFrame_try_stages
  (env_API_KEY : option string) (JSON_parse : string -> JsError + Js.Json)
  (base64Image : string) (apiKey : option string) :
  analyzeFrame_try env_API_KEY JSON_parse base64Image apiKey
  = await (lift (getClient env_API_KEY apiKey)) (fun ai =>
    await (generateContent ai (analyzeRequest base64Image)) (readAnalysis JSON_parse)).
Proof. reflexivity. Qed.

Lemma respond_GenerateContent (ai : GoogleGenAI) (req : ContentRequest) (w : World) :
  calls (fst (respond (GenerateContent ai req) w)) = calls w ++ [CallGenerateContent ai req]
  /\ app (fst (respond (GenerateContent ai req) w)) = app w
  /\ now (fst (respond (GenerateContent ai req) w)) = now w.
Proof.
  cbn [respond]. unfold nextContentReply. cbn [script logCall].
  destruct (contentReplies (script w)); cbn; auto.
Qed.

(** The job up to the answer of the one request. *)
Lemma runIn_analyzeFrame_try_answered
  (env_API_KEY : option string) (JSON_parse : string -> JsError + Js.Json)
  (w : World) (base64Image : string) (apiKey : option string) (ai : GoogleGenAI) :
  getClient env_API_KEY apiKey = inr ai ->
  runIn w (analyzeFrame_try env_API_KEY JSON_parse base64Image apiKey)
  ≈ runIn (fst (respond (GenerateContent ai (analyzeRequest base64Image)) w))
          (match outcome (snd (respond (GenerateContent ai (analyzeRequest base64Image)) w))
           with
           | inl e => throw e
           | inr response => readAnalysis JSON_parse response
           end).
Proof.
  intros Hai. rewrite analyzeFrame_try_stages.
  unfold await, lift, generateContent. rewrite Hai, bind_ret_l, bind_bind.
  rewrite runIn_trigger_bind. rewrite bind_ret_l. reflexivity.
Qed.

Lemma orDefault_truthy (v : option Js.Json) (dflt : string) :
  dflt <> EmptyString -> Js.truthyJson (orDefault v dflt) = true.
Proof.
  intros Hd. unfold orDefault.
  assert (Js.truthyJson (Js.JString dflt) = true)
    by (destruct dflt; [contradiction | reflexivity]).
  destruct v as [x|]; [|assumption].
  destruct (Js.truthyJson x) eqn:Hx; assumption.
Qed.

Lemma parseAnalysis_truthy (JSON_parse : string -> JsError + Js.Json)
  (responseText : string) (result : AnalysisResult) :
  parseAnalysis JSON_parse responseText = inr result ->
  Js.truthyJson (chineseDescription result) = true
  /\ Js.truthyJson (englishPrompt result) = true.
Proof.
  unfold parseAnalysis. intros H.
  destruct (JSON_parse responseText) as [e|json]; [discriminate|].
  destruct (getProp json "chineseDescription") as [e|cd]; [discriminate|].
  destruct (getProp json "englishPrompt") as [e|ep]; [discriminate|].
  inversion H; subst. cbn [chineseDescription englishPrompt].
  split; apply orDefault_truthy; discriminate.
Qed.

(** In every environment and for every parser the analysis job ends,
    after one request at most, without touching the gallery, and what it
    resolves with has no blank field: each of the two is the value from
    the response when that is truthy, and a fixed text or the raw response
    otherwise. *)
Theorem analysis_never_resolves_blank
  (env_API_KEY : option string) (JSON_parse : string -> JsError + Js.Json)
  (w : World) (base64Image : string) (apiKey : option string) :
  exists w' r,
    runIn w (analyzeFrame env_API_KEY JSON_parse base64Image apiKey) ≈ Ret (w', r)
    /\ requestCount (calls w') <= requestCount (calls w) + 1
    /\ app w' = app w
    /\ (forall result, r = inr result ->
          Js.truthyJson (chineseDescription result) = true
          /\ Js.truthyJson (englishPrompt result) = true).
Proof.
  unfold analyzeFrame.
  destruct (getClient env_API_KEY apiKey) as [e|ai] eqn:Hai.
  - exists (logCall (CallConsoleError "Analysis Error:" e) w), (inl e).
    split; [|split; [|split]].
    + apply (runIn_tryCatch_throw w w _ _ analyzeFrame_rethrows e).
      unfold analyzeFrame_try, await, lift. rewrite Hai, bind_ret_l. apply runIn_ret.
    + cbn [calls logCall]. rewrite requestCount_app. cbn. lia.
    + reflexivity.
    + discriminate.
  - pose proof (runIn_analyzeFrame_try_answered env_API_KEY JSON_parse w base64Image
                  apiKey ai Hai) as Htry.
    destruct (respond_GenerateContent ai (analyzeRequest base64Image) w)
      as [Hcalls [Happ _]].
    destruct (respond (GenerateContent ai (analyzeRequest base64Image)) w)
      as [w1 reply]. cbn [fst snd] in *.
    assert (Hcount : requestCount (calls w1) = requestCount (calls w) + 1)
      by (rewrite Hcalls, requestCount_app; reflexivity).
    assert (Hthrow : forall e,
               runIn w (analyzeFrame_try env_API_KEY JSON_parse base64Image apiKey)
               ≈ Ret (w1, inl e) ->
               exists w' r,
                 runIn w (tryCatch (analyzeFrame_try env_API_KEY JSON_parse base64Image apiKey)
                            (fun error =>
                               ITree.trigger (ConsoleError "Analysis Error:" error);;
                               throw (analyzeFrame_rethrows error)))
                 ≈ Ret (w', r)
                 /\ requestCount (calls w') <= requestCount (calls w) + 1
                 /\ app w' = app w
                 /\ (forall result, r = inr result ->
                       Js.truthyJson (chineseDescription result) = true
                       /\ Js.truthyJson (englishPrompt result) = true)).
    { intros e He.
      exists (logCall (CallConsoleError "Analysis Error:" e) w1), (inl e).
      split; [|split; [|split]].
      - now apply (runIn_tryCatch_throw w w1 _ _ analyzeFrame_rethrows e).
      - cbn [calls logCall]. rewrite requestCount_app. cbn. lia.
      - exact Happ.
      - discriminate. }
    destruct (outcome reply) as [e|response].
    + apply (Hthrow e). rewrite Htry. apply runIn_ret.
    + unfold readAnalysis in Htry.
      destruct (text response) as [responseText|];
        [|apply (Hthrow noTextResponse); rewrite Htry; apply runIn_ret].
      destruct (Js.truthy responseText) eqn:Ht;
        [|apply (Hthrow noTextResponse); rewrite Htry; apply runIn_ret].
      destruct (parseAnalysis JSON_parse responseText) as [e|result] eqn:Hparse.
      * exists (logCall (CallConsoleError "JSON Parse Error" e) w1),
               (inr (parseFailed responseText)).
        split; [|split; [|split]].
        -- apply runIn_tryCatch_resolve. rewrite Htry.
           rewrite runIn_trigger_bind. apply runIn_ret.
        -- cbn [calls logCall]. rewrite requestCount_app. cbn. lia.
        -- exact Happ.
        -- intros result Hr. inversion Hr; subst. cbn. now rewrite Ht.
      * exists w1, (inr result).
        split; [|split; [|split]].
        -- apply runIn_tryCatch_resolve. rewrite Htry. apply runIn_ret.
        -- lia.
        -- exact Happ.
        -- intros result' Hr. inversion Hr; subst.
           now apply (parseAnalysis_truthy JSON_parse responseText).
Qed.

(** A response without text, or with the empty text, makes the job reject
    with its own error, whatever the parser would say. *)
Theorem analysis_without_text_rejects
  (env_API_KEY : option string) (JSON_parse : string -> JsError + Js.Json)
  (w : World) (base64Image : string) (apiKey : option string)
  (ai : GoogleGenAI) (reply : Reply ContentResponse) (rest : list (Reply ContentResponse))
  (response : ContentResponse) :
  getClient env_API_KEY apiKey = inr ai ->
  contentReplies (script w) = reply :: rest ->
  outcome reply = inr response ->
  text response = None \/ text response = Some EmptyString ->
  runIn w (analyzeFrame env_API_KEY JSON_parse base64Image apiKey)
  ≈ Ret (afterRequests [CallGenerateContent ai (analyzeRequest base64Image);
                        CallConsoleError "Analysis Error:" noTextResponse] rest w,
         inl noTextResponse).
Proof.
  intros Hai Hscript Hout Htext. unfold analyzeFrame.
  rewrite (runIn_tryCatch_throw w
             (afterRequests [CallGenerateContent ai (analyzeRequest base64Image)] rest w)
             _ _ analyzeFrame_rethrows noTextResponse).
  - unfold logCall, afterRequests. cbn. rewrite <- app_assoc. reflexivity.
  - rewrite (runIn_analyzeFrame_try_answered _ _ _ _ _ ai Hai).
    cbn [respond]. unfold nextContentReply. cbn [script logCall]. rewrite Hscript.
    cbn [fst snd]. rewrite Hout. unfold readAnalysis.
    destruct Htext as [Htext|Htext]; rewrite Htext; apply runIn_ret.
Qed.

Lemma analysis_without_text_rejects_witness :
  runIn (worldOf (withContentReplies [replyText EmptyString]))
        (analyzeFrame None literalJSON sampleDataUrl (Some sampleKey))
  ≈ Ret (afterRequests [CallGenerateContent {| client_apiKey := sampleKey |}
                          (analyzeRequest sampleDataUrl);
                        CallConsoleError "Analysis Error:" noTextResponse] []
           (worldOf (withContentReplies [replyText EmptyString])),
         inl noTextResponse).
Proof.
  apply (analysis_without_text_rejects None literalJSON
           (worldOf (withContentReplies [replyText EmptyString]))
           sampleDataUrl (Some sampleKey) {| client_apiKey := sampleKey |}
           (replyText EmptyString) []
           {| text := Some EmptyString; candidates := None |}).
  - reflexivity.
  - reflexivity.
  - reflexivity.
  - right. reflexivity.
Defined.

(** A response that parses to an object resolves the job with the two
    keys of the object, each replaced by its fixed text when it is missing
    or falsy; nothing is logged.  With both keys non-empty strings that is
    the two strings. *)
Theorem analysis_of_an_object
  (env_API_KEY : option string) (JSON_parse : string -> JsError + Js.Json)
  (w : World) (base64Image : string) (apiKey : option string)
  (ai : GoogleGenAI) (reply : Reply ContentResponse) (rest : list (Reply ContentResponse))
  (response : ContentResponse) (responseText : string) (o : list (string * Js.Json)) :
  getClient env_API_KEY apiKey = inr ai ->
  contentReplies (script w) = reply :: rest ->
  outcome reply = inr response ->
  text response = Some responseText ->
  responseText <> EmptyString ->
  JSON_parse responseText = inr (Js.JObject o) ->
  runIn w (analyzeFrame env_API_KEY JSON_parse base64Image apiKey)
  ≈ Ret (afterRequests [CallGenerateContent ai (analyzeRequest base64Image)] rest w,
         inr {| chineseDescription :=
                  orDefault (Js.assoc "chineseDescription" o) "无法生成中文描述";
                englishPrompt :=
                  orDefault (Js.assoc "englishPrompt" o) "Could not generate prompt" |})
  /\ (forall cn en,
        Js.assoc "chineseDescription" o = Some (Js.JString cn) -> cn <> EmptyString ->
        Js.assoc "englishPrompt" o = Some (Js.JString en) -> en <> EmptyString ->
        runIn w (analyzeFrame env_API_KEY JSON_parse base64Image apiKey)
        ≈ Ret (afterRequests [CallGenerateContent ai (analyzeRequest base64Image)] rest w,
               inr {| chineseDescription := Js.JString cn;
                      englishPrompt := Js.JString en |})).
Proof.
  intros Hai Hscript Hout Htext Hne Hparse.
  assert (Hrun : runIn w (analyzeFrame env_API_KEY JSON_parse base64Image apiKey)
                 ≈ Ret (afterRequests [CallGenerateContent ai (analyzeRequest base64Image)]
                          rest w,
                        inr {| chineseDescription :=
                                 orDefault (Js.assoc "chineseDescription" o) "无法生成中文描述";
                               englishPrompt :=
                                 orDefault (Js.assoc "englishPrompt" o)
                                   "Could not generate prompt" |})).
  { unfold analyzeFrame. apply runIn_tryCatch_resolve.
    rewrite (runIn_analyzeFrame_try_answered _ _ _ _ _ ai Hai).
    cbn [respond]. unfold nextContentReply. cbn [script logCall]. rewrite Hscript.
    cbn [fst snd]. rewrite Hout. unfold readAnalysis. rewrite Htext.
    destruct responseText as [|c s]; [contradiction|]. cbn [Js.truthy].
    unfold parseAnalysis. rewrite Hparse. cbn [getProp]. apply runIn_ret. }
  split; [exact Hrun|].
  intros cn en Hcn Hcne Hen Hene. rewrite Hrun, Hcn, Hen.
  destruct cn; [contradiction|]. destruct en; [contradiction|]. reflexivity.
Qed.

Lemma analysis_of_an_object_witness :
  runIn (worldOf (withContentReplies [replyText promptOnlyText]))
        (analyzeFrame None promptOnlyJSON sampleDataUrl (Some sampleKey))
  ≈ Ret (afterRequests [CallGenerateContent {| client_apiKey := sampleKey |}
                          (analyzeRequest sampleDataUrl)] []
           (worldOf (withContentReplies [replyText promptOnlyText])),
         inr {| chineseDescription := Js.JString "无法生成中文描述";
                englishPrompt := Js.JString "a lighthouse at dusk" |}).
Proof.
  destruct (analysis_of_an_object None promptOnlyJSON
              (worldOf (withContentReplies [replyText promptOnlyText]))
              sampleDataUrl (Some sampleKey) {| client_apiKey := sampleKey |}
              (replyText promptOnlyText) []
              {| text := Some promptOnlyText; candidates := None |}
              promptOnlyText [("englishPrompt", Js.JString "a lighthouse at dusk")])
    as [Hrun _].
  - reflexivity.
  - reflexivity.
  - reflexivity.
  - reflexivity.
  - discriminate.
  - reflexivity.
  - exact Hrun.
Defined.

(** ** The image job, continued *)

Lemma firstRejection_fulfilled {A : Type} (settled : list (nat * (JsError + A)))
  (values : list A) :
  List.map snd settled = List.map inr values ->
  firstRejection settled = None /\ fulfilled settled = values.
Proof.
  revert values. induction settled as [|[t [e|a]] settled IH]; intros values H.
  - destruct values; [split; reflexivity | discriminate].
  - destruct values; discriminate.
  - destruct values as [|v values]; [discriminate|]. cbn in H. inversion H; subst.
    destruct (IH values) as [Hnone Hvals]; [assumption|].
    cbn. rewrite Hnone, Hvals. split; reflexivity.
Qed.

Lemma runIn_generateImageFromPrompt_resolves
  (env_API_KEY : option string) (w : World) (prompt aspectRatio : string)
  (apiKey : option string) (ai : GoogleGenAI)
  (replies rest : list (Reply ContentResponse)) (imageUrls : list string) :
  getClient env_API_KEY apiKey = inr ai ->
  contentReplies (script w) = replies ++ rest ->
  List.map imageOutcome replies = List.map inr imageUrls ->
  runIn w (generateImageFromPrompt env_API_KEY prompt (Some aspectRatio)
             (Some (length replies)) apiKey)
  ≈ Ret (afterRequests
           (repeat (CallGenerateContent ai (imageRequest prompt aspectRatio))
              (length replies)) rest w,
         inr imageUrls).
Proof.
  intros Hai Hscript Hall.
  rewrite (runIn_generateImageFromPrompt env_API_KEY w prompt aspectRatio apiKey ai
             replies rest Hai Hscript).
  destruct (firstRejection_fulfilled
              (List.map (fun reply => (arrival reply, imageOutcome reply)) replies)
              imageUrls) as [Hnone Hvalues].
  { rewrite List.map_map. exact Hall. }
  unfold Promise_all, imageJobCalls. rewrite Hnone, Hvalues, app_nil_r. reflexivity.
Qed.

(** Where every request brings an image the job resolves with one URL per
    request, in the order of the requests, whatever the order in which the
    answers arrived. *)
Theorem image_job_resolves_in_request_order
  (env_API_KEY : option string) (w : World) (prompt aspectRatio : string)
  (apiKey : option string) (ai : GoogleGenAI)
  (replies rest : list (Reply ContentResponse)) (imageUrls : list string) :
  getClient env_API_KEY apiKey = inr ai ->
  contentReplies (script w) = replies ++ rest ->
  List.map imageOutcome replies = List.map inr imageUrls ->
  runIn w (generateImageFromPrompt env_API_KEY prompt (Some aspectRatio)
             (Some (length replies)) apiKey)
  ≈ Ret (afterRequests
           (repeat (CallGenerateContent ai (imageRequest prompt aspectRatio))
              (length replies)) rest w,
         inr imageUrls)
  /\ length imageUrls = length replies.
Proof.
  intros Hai Hscript Hall. split.
  - now apply runIn_generateImageFromPrompt_resolves.
  - apply (f_equal (@length _)) in Hall. rewrite !length_map in Hall. auto.
Qed.

Lemma image_job_resolves_in_request_order_witness :
  runIn (worldOf (withContentReplies
                    [replyImage 3 "QUFB"; replyImage 1 "QkJC"; replyImage 2 "Q0ND"]))
        (generateImageFromPrompt None "a lighthouse at dusk" (Some "1:1") (Some 3)
           (Some sampleKey))
  ≈ Ret (afterRequests
           (repeat (CallGenerateContent {| client_apiKey := sampleKey |}
                      (imageRequest "a lighthouse at dusk" "1:1")) 3) []
           (worldOf (withContentReplies
                       [replyImage 3 "QUFB"; replyImage 1 "QkJC"; replyImage 2 "Q0ND"])),
         inr ["data:image/png;base64,QUFB"; "data:image/png;base64,QkJC";
              "data:image/png;base64,Q0ND"]).
Proof.
  apply (image_job_resolves_in_request_order None
           (worldOf (withContentReplies
                       [replyImage 3 "QUFB"; replyImage 1 "QkJC"; replyImage 2 "Q0ND"]))
           "a lighthouse at dusk" "1:1" (Some sampleKey) {| client_apiKey := sampleKey |}
           [replyImage 3 "QUFB"; replyImage 1 "QkJC"; replyImage 2 "Q0ND"] []
           ["data:image/png;base64,QUFB"; "data:image/png;base64,QkJC";
            "data:image/png;base64,Q0ND"]).
  - reflexivity.
  - reflexivity.
  - reflexivity.
Defined.

(** ** The studio *)

(** The studio sends nothing when it cannot: with an empty prompt the
    click changes neither the studio nor the environment; without a
    usable key the previous batch is cleared and the studio ends in the
    error state with its fixed message, no request made. *)
Theorem studio_sends_nothing_without_prompt_or_key
  (env_API_KEY props_apiKey : option string) (st0 : CreativeStudio) (w : World) :
  (studio_englishPrompt st0 = EmptyString ->
     runIn w (handleGenerate env_API_KEY props_apiKey st0) ≈ Ret (w, st0))
  /\ (studio_englishPrompt st0 <> EmptyString ->
      (forall k, props_apiKey = Some k -> Js.trim k = EmptyString) ->
      (forall k, env_API_KEY = Some k -> k = EmptyString) ->
      exists w' st',
        runIn w (handleGenerate env_API_KEY props_apiKey st0) ≈ Ret (w', st')
        /\ requestCount (calls w') = requestCount (calls w)
        /\ studio_appState st' = ERROR
        /\ studio_error st' = Some generateError
        /\ generatedImages st' = []
        /\ studio_englishPrompt st' = studio_englishPrompt st0
        /\ app w' = app w).
Proof.
  split.
  - intros Hp. unfold handleGenerate. rewrite Hp. cbn. apply runIn_ret.
  - intros Hp Hkey Henv.
    pose proof (fun prompt aspectRatio count =>
                  runIn_generateImageFromPrompt_no_key env_API_KEY props_apiKey w
                    prompt aspectRatio count
                    (getClient_missing _ _ Hkey Henv)) as Himage.
    eexists. eexists. split.
    + unfold handleGenerate.
      assert (Ht : Js.truthy (studio_englishPrompt st0) = true)
        by (destruct (studio_englishPrompt st0); [contradiction | reflexivity]).
      rewrite Ht. cbn [negb].
      rewrite (runIn_bind _ _ _ _ _ (Himage _ _ _)). apply runIn_ret.
    + repeat split.
      cbn [calls logCall]. rewrite requestCount_app. cbn. lia.
Qed.

Lemma studio_sends_nothing_without_prompt_or_key_witness :
  runIn (worldOf (withContentReplies secondOfThreeFails))
        (handleGenerate None (Some sampleKey) (studioAsking EmptyString 3))
  ≈ Ret (worldOf (withContentReplies secondOfThreeFails), studioAsking EmptyString 3)
  /\ exists w' st',
       runIn (worldOf (withContentReplies secondOfThreeFails))
             (handleGenerate None (Some "  ") (studioAsking "a lighthouse at dusk" 3))
       ≈ Ret (w', st')
       /\ requestCount (calls w') = 0
       /\ studio_appState st' = ERROR.
Proof.
  split.
  - destruct (studio_sends_nothing_without_prompt_or_key None (Some sampleKey)
                (studioAsking EmptyString 3)
                (worldOf (withContentReplies secondOfThreeFails))) as [Hempty _].
    apply Hempty. reflexivity.
  - destruct (studio_sends_nothing_without_prompt_or_key None (Some "  ")
                (studioAsking "a lighthouse at dusk" 3)
                (worldOf (withContentReplies secondOfThreeFails))) as [_ Hnokey].
    destruct Hnokey as [w' [st' [Hrun [Hcount [Hstate _]]]]].
    + discriminate.
    + intros k Hk. inversion Hk. reflexivity.
    + discriminate.
    + exists w', st'. split; [exact Hrun|]. split; [exact Hcount | exact Hstate].
Defined.

Lemma runIn_toGeneratedImages (englishPrompt : string) (imageUrls : list string) :
  forall (w : World) (suffixes more : list string),
    randoms (script w) = suffixes ++ more ->
    length suffixes = length imageUrls ->
    exists imgs,
      runIn w (toGeneratedImages englishPrompt imageUrls) ≈ Ret (afterRandoms more w, imgs)
      /\ List.map img_dataUrl imgs = imageUrls
      /\ List.map img_id imgs = List.map (imageIdOf (now w)) suffixes
      /\ Forall (fun img => img_promptUsed img = englishPrompt
                            /\ img_createdAt img = now w) imgs.
Proof.
  induction imageUrls as [|url imageUrls IH]; intros w suffixes more Hrandoms Hlen.
  - destruct suffixes; [|discriminate]. cbn in Hrandoms.
    exists []. split; [|repeat split; constructor].
    cbn. rewrite runIn_ret.
    replace (afterRandoms more w) with w; [reflexivity|].
    destruct w as [[cr sr pr fr br ou rs] nw cs ap]. cbn in Hrandoms. subst.
    reflexivity.
  - destruct suffixes as [|suffix suffixes]; [discriminate|].
    cbn in Hrandoms, Hlen. injection Hlen as Hlen.
    destruct (IH (afterRandoms (suffixes ++ more) w) suffixes more eq_refl Hlen)
      as [imgs [Hrun [Hurls [Hids Hall]]]].
    eexists. split; [|split; [|split]].
    + cbn [toGeneratedImages]. unfold generateId. rewrite !bind_bind.
      rewrite runIn_trigger_bind. cbn [respond fst snd]. rewrite bind_bind.
      rewrite runIn_trigger_bind. cbn [respond]. unfold nextRandom. rewrite Hrandoms.
      cbn [fst snd]. rewrite bind_ret_l.
      rewrite runIn_trigger_bind. cbn [respond fst snd].
      fold (afterRandoms (suffixes ++ more) w).
      rewrite (runIn_bind _ _ _ _ _ Hrun). rewrite runIn_ret. reflexivity.
    + cbn. now rewrite Hurls.
    + cbn. rewrite Hids. reflexivity.
    + constructor; [split; reflexivity | exact Hall].
Qed.

Lemma imageIdOf_injective (now0 : Z) (s1 s2 : string) :
  imageIdOf now0 s1 = imageIdOf now0 s2 -> s1 = s2.
Proof.
  unfold imageIdOf.
  assert (Hcancel : forall p a b : string, (p ++ a)%string = (p ++ b)%string -> a = b).
  { induction p as [|x p IHp]; intros a b H; [exact H|].
    cbn in H. inversion H. now apply IHp. }
  intros H. apply Hcancel in H. apply Hcancel in H. now apply Hcancel in H.
Qed.

Lemma NoDup_map_injective {A B : Type} (f : A -> B) (l : list A) :
  (forall x y, f x = f y -> x = y) -> NoDup l -> NoDup (List.map f l).
Proof.
  intros Hinj Hnd. induction Hnd as [|a l Hnotin Hnd IH]; cbn; constructor; [|exact IH].
  intros Hin. apply in_map_iff in Hin. destruct Hin as [x [Hfx Hx]].
  apply Hinj in Hfx. subst. contradiction.
Qed.

(** Where every request brings an image, the click leaves the studio idle
    with a batch of one image per request, in the order of the requests,
    each carrying the prompt; the ids of the batch are made of the clock
    and the random suffixes, and are pairwise distinct when the suffixes
    are; the gallery is not touched. *)
Theorem studio_batch_after_success
  (env_API_KEY props_apiKey : option string) (st0 : CreativeStudio) (w : World)
  (ai : GoogleGenAI) (replies rest : list (Reply ContentResponse))
  (imageUrls suffixes more : list string) :
  studio_englishPrompt st0 <> EmptyString ->
  getClient env_API_KEY props_apiKey = inr ai ->
  contentReplies (script w) = replies ++ rest ->
  length replies = imageCount st0 ->
  List.map imageOutcome replies = List.map inr imageUrls ->
  randoms (script w) = suffixes ++ more ->
  length suffixes = imageCount st0 ->
  exists w' st',
    runIn w (handleGenerate env_API_KEY props_apiKey st0) ≈ Ret (w', st')
    /\ studio_appState st' = IDLE
    /\ studio_error st' = None
    /\ List.map img_dataUrl (generatedImages st') = imageUrls
    /\ length (generatedImages st') = imageCount st0
    /\ Forall (fun img => img_promptUsed img = studio_englishPrompt st0)
         (generatedImages st')
    /\ List.map img_id (generatedImages st') = List.map (imageIdOf (now w)) suffixes
    /\ (NoDup suffixes -> NoDup (List.map img_id (generatedImages st')))
    /\ requestCount (calls w') = requestCount (calls w) + imageCount st0
    /\ app w' = app w.
Proof.
  intros Hprompt Hai Hscript Hlen Hall Hrandoms Hsuffixes.
  pose proof (runIn_generateImageFromPrompt_resolves env_API_KEY w
                (studio_englishPrompt st0) (studio_aspectRatio st0) props_apiKey ai
                replies rest imageUrls Hai Hscript Hall) as Hjob.
  assert (Hurls : length imageUrls = length replies).
  { apply (f_equal (@length _)) in Hall. rewrite !length_map in Hall. auto. }
  rewrite Hlen in Hjob.
  destruct (runIn_toGeneratedImages (studio_englishPrompt st0) imageUrls
              (afterRequests
                 (repeat (CallGenerateContent ai
                            (imageRequest (studio_englishPrompt st0) (studio_aspectRatio st0)))
                    (imageCount st0)) rest w)
              suffixes more Hrandoms ltac:(congruence))
    as [imgs [Hrun [Hdata [Hids Himgs]]]].
  eexists. eexists. split; [|split; [|split; [|split; [|split; [|split; [|split; [|split; [|split]]]]]]]].
  - unfold handleGenerate.
    assert (Ht : Js.truthy (studio_englishPrompt st0) = true)
      by (destruct (studio_englishPrompt st0); [contradiction | reflexivity]).
    rewrite Ht. cbn [negb].
    rewrite (runIn_bind _ _ _ _ _ Hjob). rewrite (runIn_bind _ _ _ _ _ Hrun).
    apply runIn_ret.
  - reflexivity.
  - reflexivity.
  - exact Hdata.
  - cbn. rewrite <- (length_map img_dataUrl), Hdata. congruence.
  - cbn. eapply Forall_impl; [|exact Himgs]. intros img [Hp _]. exact Hp.
  - exact Hids.
  - intros Hnd. cbn [generatedImages setAppState setGeneratedImages]. rewrite Hids.
    apply NoDup_map_injective; [|exact Hnd].
    intros s1 s2. apply imageIdOf_injective.
  - cbn [calls afterRandoms afterRequests].
    rewrite requestCount_app, requestCount_repeat. reflexivity.
  - reflexivity.
Qed.

Lemma studio_batch_after_success_witness :
  exists w' st',
    runIn (worldOf (withContentReplies
                      [replyImage 3 "QUFB"; replyImage 1 "QkJC"; replyImage 2 "Q0ND"]))
          (handleGenerate None (Some sampleKey) (studioAsking "a lighthouse at dusk" 3))
    ≈ Ret (w', st')
    /\ List.map img_dataUrl (generatedImages st')
       = ["data:image/png;base64,QUFB"; "data:image/png;base64,QkJC";
          "data:image/png;base64,Q0ND"]
    /\ List.map img_id (generatedImages st')
       = ["img-1700000000000-k3x9q2m1a"; "img-1700000000000-p0d8w7z5b";
          "img-1700000000000-t4h6n1c8d"]
    /\ frames (app w') = [].
Proof.
  destruct (studio_batch_after_success None (Some sampleKey)
              (studioAsking "a lighthouse at dusk" 3)
              (worldOf (withContentReplies
                          [replyImage 3 "QUFB"; replyImage 1 "QkJC"; replyImage 2 "Q0ND"]))
              {| client_apiKey := sampleKey |}
              [replyImage 3 "QUFB"; replyImage 1 "QkJC"; replyImage 2 "Q0ND"] []
              ["data:image/png;base64,QUFB"; "data:image/png;base64,QkJC";
               "data:image/png;base64,Q0ND"]
              ["k3x9q2m1a"; "p0d8w7z5b"; "t4h6n1c8d"] [])
    as [w' [st' [Hrun [_ [_ [Hdata [_ [_ [Hids [_ [_ Happ]]]]]]]]]]].
  - discriminate.
  - reflexivity.
  - reflexivity.
  - reflexivity.
  - reflexivity.
  - reflexivity.
  - reflexivity.
  - exists w', st'. split; [exact Hrun|]. split; [exact Hdata|]. split; [exact Hids|].
    rewrite Happ. reflexivity.
Defined.


(** ** The video studio *)

#[global] Instance runVeo_eq_itree {R : Type} (p : World * Host) :
  Proper (eq_itree eq ==> eq_itree eq) (@runVeo R p).
Proof. intros t1 t2 H. unfold runVeo. rewrite H. reflexivity. Qed.

#[global] Instance runVeo_eutt {R : Type} (p : World * Host) :
  Proper (eutt eq ==> eutt eq) (@runVeo R p).
Proof. intros t1 t2 H. unfold runVeo. rewrite H. reflexivity. Qed.

Lemma runVeo_ret {R : Type} (p : World * Host) (r : R) : runVeo p (Ret r) ≈ Ret (p, r).
Proof. unfold runVeo. rewrite interp_state_ret. reflexivity. Qed.

Lemma runVeo_bind {A B : Type} (p p' : World * Host) (t : itree veoE A)
  (k : A -> itree veoE B) (a : A) :
  runVeo p t ≈ Ret (p', a) ->
  runVeo p (ITree.bind t k) ≈ runVeo p' (k a).
Proof.
  unfold runVeo. intros H. rewrite interp_state_bind, H, bind_ret_l. reflexivity.
Qed.

Lemma runVeo_host {T : Type} (p : World * Host) (e : hostE T) :
  runVeo p (host e)
  ≈ Ret ((fst p, fst (respondHost e (snd p))), snd (respondHost e (snd p))).
Proof.
  unfold runVeo, host. rewrite interp_state_trigger. unfold scriptedVeo.
  cbn [respondVeo]. destruct (respondHost e (snd p)). reflexivity.
Qed.

Lemma runVeo_env {T : Type} (p : World * Host) (e : envE T) :
  runVeo p (env e)
  ≈ Ret ((fst (respond e (fst p)), snd p), snd (respond e (fst p))).
Proof.
  unfold runVeo, env. rewrite interp_state_trigger. unfold scriptedVeo.
  cbn [respondVeo]. destruct (respond e (fst p)). reflexivity.
Qed.

(** The service run inside the component is the service run: the events of
    the service do not see the host. *)
Lemma runVeo_lift_service {R : Type} :
  forall (t : itree envE R) (w : World) (h : Host),
    runVeo (w, h) (translate inl1 t)
    ≅ ITree.map (fun p => ((fst p, h), snd p)) (runIn w t).
Proof.
  unfold runVeo, runIn. ginit. gcofix CIH. intros t w h.
  rewrite (itree_eta t). destruct (observe t) as [r0|t'|X e k].
  - rewrite translate_ret, !interp_state_ret. unfold ITree.map. rewrite bind_ret_l.
    gstep. constructor. reflexivity.
  - rewrite translate_tau, !interp_state_tau. unfold ITree.map. rewrite bind_tau.
    gstep. constructor. gbase. apply CIH.
  - rewrite translate_vis, !interp_state_vis. unfold scriptedVeo, scripted.
    cbn [respondVeo fst snd]. rewrite !bind_ret_l.
    destruct (respond e w) as [w' x]. cbn [fst snd].
    unfold ITree.map. rewrite bind_tau.
    gstep. constructor. gbase. apply CIH.
Qed.

Lemma runVeo_service {R : Type} (t : itree envE R) (w w' : World) (h : Host) (r : R) :
  runIn w t ≈ Ret (w', r) ->
  runVeo (w, h) (translate inl1 t) ≈ Ret ((w', h), r).
Proof.
  intros H. rewrite runVeo_lift_service, H. unfold ITree.map. rewrite bind_ret_l.
  reflexivity.
Qed.

(** Before the request: without a start frame the click sets the error
    and calls nothing; with one, the key check of the host always comes
    back, whatever the host answers or throws, asks the host only where
    there is one, and leaves the script of the service alone. *)
Theorem video_click_before_the_request
  (env_API_KEY props_apiKey : option string) (hasAiStudio : bool)
  (st0 : VeoStudio) (w : World) (h : Host) :
  (startFrame st0 = None ->
     runVeo (w, h) (handleGenerateVideo env_API_KEY props_apiKey hasAiStudio st0)
     ≈ Ret ((w, h), setVeoError (Some noStartFrame) st0))
  /\ (exists w1 h1,
        runVeo (w, h) (checkHostKey hasAiStudio) ≈ Ret ((w1, h1), tt)
        /\ script w1 = script w
        /\ app w1 = app w
        /\ (hasAiStudio = false -> w1 = w /\ h1 = h)
        /\ (hasAiStudio = true ->
            exists more, hostCalls h1 = hostCalls h ++ CallHasSelectedApiKey :: more)).
Proof.
  split.
  - intros Hstart. unfold handleGenerateVideo. rewrite Hstart. apply runVeo_ret.
  - unfold checkHostKey. destruct hasAiStudio.
    + destruct (hasSelectedApiKeyReply h) as [e|hasKey] eqn:Hkey.
      * eexists. eexists. split.
        { rewrite (runVeo_bind _ _ _ _ _ (runVeo_host _ HasSelectedApiKey)).
          cbn [respondHost fst snd]. rewrite Hkey. apply runVeo_env. }
        split; [reflexivity|]. split; [reflexivity|]. split; [discriminate|].
        intros _. exists []. reflexivity.
      * destruct hasKey.
        -- eexists. eexists. split.
           { rewrite (runVeo_bind _ _ _ _ _ (runVeo_host _ HasSelectedApiKey)).
             cbn [respondHost fst snd]. rewrite Hkey. apply runVeo_ret. }
           split; [reflexivity|]. split; [reflexivity|]. split; [discriminate|].
           intros _. exists []. reflexivity.
        -- destruct (openSelectKeyReply h) as [e|u] eqn:Hopen.
           ++ eexists. eexists. split.
              { rewrite (runVeo_bind _ _ _ _ _ (runVeo_host _ HasSelectedApiKey)).
                cbn [respondHost fst snd]. rewrite Hkey.
                rewrite (runVeo_bind _ _ _ _ _ (runVeo_host _ OpenSelectKey)).
                cbn [respondHost fst snd logHost openSelectKeyReply]. rewrite Hopen.
                apply runVeo_env. }
              split; [reflexivity|]. split; [reflexivity|]. split; [discriminate|].
              intros _. exists [CallOpenSelectKey]. cbn. rewrite <- app_assoc. reflexivity.
           ++ eexists. eexists. split.
              { rewrite (runVeo_bind _ _ _ _ _ (runVeo_host _ HasSelectedApiKey)).
                cbn [respondHost fst snd]. rewrite Hkey.
                rewrite (runVeo_bind _ _ _ _ _ (runVeo_host _ OpenSelectKey)).
                cbn [respondHost fst snd logHost openSelectKeyReply]. rewrite Hopen.
                apply runVeo_ret. }
              split; [reflexivity|]. split; [reflexivity|]. split; [discriminate|].
              intros _. exists [CallOpenSelectKey]. cbn. rewrite <- app_assoc. reflexivity.
    + exists w, h. split; [apply runVeo_ret|]. repeat split; try discriminate.
Qed.

Lemma video_click_before_the_request_witness :
  runVeo (worldOf (videoScript (inr doneOp) [] (inr videoFile)), sampleHost)
         (handleGenerateVideo None (Some sampleKey) true initialVeoStudio)
  ≈ Ret ((worldOf (videoScript (inr doneOp) [] (inr videoFile)), sampleHost),
         setVeoError (Some noStartFrame) initialVeoStudio).
Proof.
  destruct (video_click_before_the_request None (Some sampleKey) true initialVeoStudio
              (worldOf (videoScript (inr doneOp) [] (inr videoFile))) sampleHost)
    as [Hnone _].
  apply Hnone. reflexivity.
Defined.

(** The click up to the answer of the service. *)
Lemma runVeo_handleGenerateVideo_answered
  (env_API_KEY props_apiKey : option string) (hasAiStudio : bool)
  (st0 : VeoStudio) (start : CapturedFrame) (w w1 w2 : World) (h h1 : Host)
  (r : JsError + string) (k : (JsError + string) -> itree veoE VeoStudio) :
  runVeo (w, h) (checkHostKey hasAiStudio) ≈ Ret ((w1, h1), tt) ->
  runIn w1 (generateVideoFromImage env_API_KEY (dataUrl start) (veo_prompt st0)
              (Some (veo_aspectRatio st0)) props_apiKey
              (match endFrame st0 with
               | Some frame => Some (dataUrl frame)
               | None => None
               end))
  ≈ Ret (w2, r) ->
  runVeo (w, h)
    (checkHostKey hasAiStudio;;
     r <- translate inl1
            (generateVideoFromImage env_API_KEY (dataUrl start) (veo_prompt st0)
               (Some (veo_aspectRatio st0)) props_apiKey
               (match endFrame st0 with
                | Some frame => Some (dataUrl frame)
                | None => None
                end));;
     k r)
  ≈ runVeo (w2, h1) (k r).
Proof.
  intros Hcheck Hservice.
  rewrite (runVeo_bind _ _ _ _ _ Hcheck).
  rewrite (runVeo_bind _ _ _ _ _ (runVeo_service _ _ _ h1 _ Hservice)).
  reflexivity.
Qed.

(** When the service resolves, the studio is idle and holds the video:
    the object URL, the clock reading, and the prompt as it was typed,
    also where that is empty and the service sent its default prompt. *)
Theorem video_click_stores_the_video
  (env_API_KEY props_apiKey : option string) (hasAiStudio : bool)
  (st0 : VeoStudio) (start : CapturedFrame) (w w1 w2 : World) (h h1 : Host)
  (videoUrl0 : string) :
  startFrame st0 = Some start ->
  runVeo (w, h) (checkHostKey hasAiStudio) ≈ Ret ((w1, h1), tt) ->
  runIn w1 (generateVideoFromImage env_API_KEY (dataUrl start) (veo_prompt st0)
              (Some (veo_aspectRatio st0)) props_apiKey
              (match endFrame st0 with
               | Some frame => Some (dataUrl frame)
               | None => None
               end))
  ≈ Ret (w2, inr videoUrl0) ->
  exists st',
    runVeo (w, h) (handleGenerateVideo env_API_KEY props_apiKey hasAiStudio st0)
    ≈ Ret ((w2, h1), st')
    /\ veo_appState st' = IDLE
    /\ veo_error st' = None
    /\ generatedVideo st'
       = Some {| videoUrl := videoUrl0;
                 vid_promptUsed := veo_prompt st0;
                 vid_createdAt := now w2 |}
    /\ startFrame st' = startFrame st0
    /\ endFrame st' = endFrame st0.
Proof.
  intros Hstart Hcheck Hservice. eexists. split.
  - unfold handleGenerateVideo. rewrite Hstart.
    rewrite (runVeo_handleGenerateVideo_answered _ _ _ _ _ _ _ _ _ _ _ _ Hcheck Hservice).
    rewrite (runVeo_bind _ _ _ _ _ (runVeo_env _ DateNow)).
    cbn [respond fst snd]. apply runVeo_ret.
  - repeat split.
Qed.

(** When the service rejects, the error is logged and the studio ends in
    the error state with no video.  The message shown is the message of
    the error, or a fixed text where it has none; but a message that
    contains "403" or "Permission Denied" is replaced by the billing
    text, and then, and only then, the key selection of the host is
    opened, where there is a host. *)
Theorem video_click_shows_the_error
  (env_API_KEY props_apiKey : option string) (hasAiStudio : bool)
  (st0 : VeoStudio) (start : CapturedFrame) (w w1 w2 : World) (h h1 : Host)
  (err : JsError) :
  startFrame st0 = Some start ->
  runVeo (w, h) (checkHostKey hasAiStudio) ≈ Ret ((w1, h1), tt) ->
  runIn w1 (generateVideoFromImage env_API_KEY (dataUrl start) (veo_prompt st0)
              (Some (veo_aspectRatio st0)) props_apiKey
              (match endFrame st0 with
               | Some frame => Some (dataUrl frame)
               | None => None
               end))
  ≈ Ret (w2, inl err) ->
  exists h' st',
    runVeo (w, h) (handleGenerateVideo env_API_KEY props_apiKey hasAiStudio st0)
    ≈ Ret ((w2, h'), st')
    /\ veo_appState st' = ERROR
    /\ generatedVideo st' = None
    /\ veo_error st'
       = Some (if looksLikeBilling (messageOf err) then billingMessage else messageOf err)
    /\ hostCalls h'
       = hostCalls h1 ++ CallConsoleErrorValue err
         :: (if looksLikeBilling (messageOf err) && hasAiStudio
             then [CallOpenSelectKey] else []).
Proof.
  intros Hstart Hcheck Hservice.
  assert (Hrun : runVeo (w, h) (handleGenerateVideo env_API_KEY props_apiKey hasAiStudio st0)
                 ≈ runVeo (w2, logHost (CallConsoleErrorValue err) h1)
                     (if looksLikeBilling (messageOf err) then
                        (if hasAiStudio
                         then (opened <- host OpenSelectKey;; Ret tt)
                         else Ret tt);;
                        Ret (setVeoAppState ERROR
                               (setVeoError (Some billingMessage)
                                  (setGeneratedVideo None
                                     (setVeoError None (setVeoAppState GENERATING st0)))))
                      else
                        Ret (setVeoAppState ERROR
                               (setVeoError (Some (messageOf err))
                                  (setGeneratedVideo None
                                     (setVeoError None (setVeoAppState GENERATING st0))))))).
  { unfold handleGenerateVideo. rewrite Hstart.
    rewrite (runVeo_handleGenerateVideo_answered _ _ _ _ _ _ _ _ _ _ _ _ Hcheck Hservice).
    rewrite (runVeo_bind _ _ _ _ _ (runVeo_host _ (ConsoleErrorValue err))).
    reflexivity. }
  destruct (looksLikeBilling (messageOf err)); [destruct hasAiStudio|].
  - eexists. eexists. split.
    { rewrite Hrun. rewrite bind_bind.
      rewrite (runVeo_bind _ _ _ _ _ (runVeo_host _ OpenSelectKey)).
      rewrite bind_ret_l. apply runVeo_ret. }
    repeat split. cbn. rewrite <- app_assoc. reflexivity.
  - eexists. eexists. split.
    { rewrite Hrun. rewrite bind_ret_l. apply runVeo_ret. }
    repeat split.
  - eexists. eexists. split.
    { rewrite Hrun. apply runVeo_ret. }
    repeat split.
Qed.

Lemma looksLikeBilling_billingRequiredError :
  looksLikeBilling (messageOf billingRequiredError) = true.
Proof. reflexivity. Qed.

(** Service and studio together: whatever the [try] block of the video job
    throws with a status or code 403, or "403" in its message, the user
    is shown the billing text, and a host with a key selection opens
    it. *)
Theorem every_403_is_shown_as_billing
  (env_API_KEY props_apiKey : option string) (hasAiStudio : bool)
  (st0 : VeoStudio) (start : CapturedFrame) (w w1 w2 : World) (h h1 : Host)
  (error : JsError) :
  startFrame st0 = Some start ->
  runVeo (w, h) (checkHostKey hasAiStudio) ≈ Ret ((w1, h1), tt) ->
  runIn w1 (generateVideo_try env_API_KEY (dataUrl start) (veo_prompt st0)
              (veo_aspectRatio st0) props_apiKey
              (match endFrame st0 with
               | Some frame => Some (dataUrl frame)
               | None => None
               end))
  ≈ Ret (w2, inl error) ->
  indicates403 error = true ->
  exists p' st',
    runVeo (w, h) (handleGenerateVideo env_API_KEY props_apiKey hasAiStudio st0)
    ≈ Ret (p', st')
    /\ veo_appState st' = ERROR
    /\ veo_error st' = Some billingMessage
    /\ (hasAiStudio = true ->
        exists before, hostCalls (snd p') = before ++ [CallOpenSelectKey]).
Proof.
  intros Hstart Hcheck Htry H403.
  assert (Hservice :
            runIn w1 (generateVideoFromImage env_API_KEY (dataUrl start) (veo_prompt st0)
                        (Some (veo_aspectRatio st0)) props_apiKey
                        (match endFrame st0 with
                         | Some frame => Some (dataUrl frame)
                         | None => None
                         end))
            ≈ Ret (logCall (CallConsoleError "Veo Generation Error:" error) w2,
                   inl billingRequiredError)).
  { unfold generateVideoFromImage.
    rewrite (runIn_tryCatch_throw w1 w2 _ _ generateVideo_rethrows error Htry).
    unfold generateVideo_rethrows. rewrite H403. reflexivity. }
  assert (Hrun : runVeo (w, h) (handleGenerateVideo env_API_KEY props_apiKey hasAiStudio st0)
                 ≈ runVeo (logCall (CallConsoleError "Veo Generation Error:" error) w2,
                           logHost (CallConsoleErrorValue billingRequiredError) h1)
                     ((if hasAiStudio
                       then (opened <- host OpenSelectKey;; Ret tt)
                       else Ret tt);;
                      Ret (setVeoAppState ERROR
                             (setVeoError (Some billingMessage)
                                (setGeneratedVideo None
                                   (setVeoError None (setVeoAppState GENERATING st0))))))).
  { unfold handleGenerateVideo. rewrite Hstart.
    rewrite (runVeo_handleGenerateVideo_answered _ _ _ _ _ _ _ _ _ _ _ _ Hcheck Hservice).
    rewrite (runVeo_bind _ _ _ _ _ (runVeo_host _ (ConsoleErrorValue billingRequiredError))).
    rewrite looksLikeBilling_billingRequiredError. reflexivity. }
  destruct hasAiStudio.
  - eexists. eexists. split.
    { rewrite Hrun. rewrite bind_bind.
      rewrite (runVeo_bind _ _ _ _ _ (runVeo_host _ OpenSelectKey)).
      rewrite bind_ret_l. apply runVeo_ret. }
    split; [reflexivity|]. split; [reflexivity|].
    intros _. eexists. reflexivity.
  - eexists. eexists. split.
    { rewrite Hrun. rewrite bind_ret_l. apply runVeo_ret. }
    split; [reflexivity|]. split; [reflexivity|]. discriminate.
Qed.

Lemma video_click_stores_the_video_witness :
  exists st',
    runVeo (worldOf (videoScript (inr doneOp) [] (inr videoFile)), sampleHost)
           (handleGenerateVideo None (Some sampleKey) true (veoWith frameA EmptyString))
    ≈ Ret ((logCall (CallCreateObjectURL "mp4-bytes")
              (logCall (CallReadBlob videoFile)
                 (logCall (CallFetch
                             "https://files.example/v1/video.mp4?alt=media&key=AIzaSyD-sample-key")
                    (logCall (CallGenerateVideos {| client_apiKey := sampleKey |}
                                (videoRequest (dataUrl frameA) EmptyString "16:9" None))
                       (worldOf (videoScript (inr doneOp) [] (inr videoFile)))))),
            logHost CallHasSelectedApiKey sampleHost), st')
    /\ generatedVideo st'
       = Some {| videoUrl := "blob:https://clipforge.example/3f0c";
                 vid_promptUsed := EmptyString;
                 vid_createdAt := 1700000000000 |}.
Proof.
  destruct (video_click_stores_the_video None (Some sampleKey) true
              (veoWith frameA EmptyString) frameA
              (worldOf (videoScript (inr doneOp) [] (inr videoFile)))
              (worldOf (videoScript (inr doneOp) [] (inr videoFile)))
              (logCall (CallCreateObjectURL "mp4-bytes")
                 (logCall (CallReadBlob videoFile)
                    (logCall (CallFetch
                                "https://files.example/v1/video.mp4?alt=media&key=AIzaSyD-sample-key")
                       (logCall (CallGenerateVideos {| client_apiKey := sampleKey |}
                                   (videoRequest (dataUrl frameA) EmptyString "16:9" None))
                          (worldOf (videoScript (inr doneOp) [] (inr videoFile)))))))
              sampleHost (logHost CallHasSelectedApiKey sampleHost)
              "blob:https://clipforge.example/3f0c")
    as [st' [Hrun [_ [_ [Hvideo _]]]]].
  - reflexivity.
  - apply (observeFor_sound 20). vm_compute. reflexivity.
  - apply (observeFor_sound 40). vm_compute. reflexivity.
  - exists st'. split; [exact Hrun | exact Hvideo].
Defined.

Lemma video_click_shows_the_error_witness :
  exists h' st',
    runVeo (worldOf (videoScript (inl overloaded) [] (inl notScripted)), sampleHost)
           (handleGenerateVideo None (Some sampleKey) true (veoWith frameA "pan left"))
    ≈ Ret ((logCall (CallConsoleError "Veo Generation Error:" overloaded)
              (logCall (CallGenerateVideos {| client_apiKey := sampleKey |}
                          (videoRequest (dataUrl frameA) "pan left" "16:9" None))
                 (worldOf (videoScript (inl overloaded) [] (inl notScripted)))),
            h'), st')
    /\ veo_error st' = Some "The model is overloaded. Please try again later."
    /\ hostCalls h' = [CallHasSelectedApiKey; CallConsoleErrorValue overloaded].
Proof.
  destruct (video_click_shows_the_error None (Some sampleKey) true
              (veoWith frameA "pan left") frameA
              (worldOf (videoScript (inl overloaded) [] (inl notScripted)))
              (worldOf (videoScript (inl overloaded) [] (inl notScripted)))
              (logCall (CallConsoleError "Veo Generation Error:" overloaded)
                 (logCall (CallGenerateVideos {| client_apiKey := sampleKey |}
                             (videoRequest (dataUrl frameA) "pan left" "16:9" None))
                    (worldOf (videoScript (inl overloaded) [] (inl notScripted)))))
              sampleHost (logHost CallHasSelectedApiKey sampleHost) overloaded)
    as [h' [st' [Hrun [_ [_ [Herror Hcalls]]]]]].
  - reflexivity.
  - apply (observeFor_sound 20). vm_compute. reflexivity.
  - apply (observeFor_sound 40). vm_compute. reflexivity.
  - exists h', st'. split; [exact Hrun|]. split; [exact Herror | exact Hcalls].
Defined.

Lemma every_403_is_shown_as_billing_witness :
  exists p' st',
    runVeo (worldOf (videoScript (inr doneOp) [] (inr videoForbidden)), sampleHost)
           (handleGenerateVideo None (Some sampleKey) true (veoWith frameA "pan left"))
    ≈ Ret (p', st')
    /\ veo_error st' = Some billingMessage
    /\ exists before, hostCalls (snd p') = before ++ [CallOpenSelectKey].
Proof.
  destruct (every_403_is_shown_as_billing None (Some sampleKey) true
              (veoWith frameA "pan left") frameA
              (worldOf (videoScript (inr doneOp) [] (inr videoForbidden)))
              (worldOf (videoScript (inr doneOp) [] (inr videoForbidden)))
              (logCall (CallFetch
                          "https://files.example/v1/video.mp4?alt=media&key=AIzaSyD-sample-key")
                 (logCall (CallGenerateVideos {| client_apiKey := sampleKey |}
                             (videoRequest (dataUrl frameA) "pan left" "16:9" None))
                    (worldOf (videoScript (inr doneOp) [] (inr videoForbidden)))))
              sampleHost (logHost CallHasSelectedApiKey sampleHost)
              (downloadFailed videoForbidden))
    as [p' [st' [Hrun [_ [Herror Hopen]]]]].
  - reflexivity.
  - apply (observeFor_sound 20). vm_compute. reflexivity.
  - apply (observeFor_sound 40). vm_compute. reflexivity.
  - reflexivity.
  - exists p', st'. split; [exact Hrun|]. split; [exact Herror|]. apply Hopen. reflexivity.
Defined.
